(** * The APPO learner ([algorithms/appo/learner.py]): a shallow embedding

    The file embeds the control part of [LearnerWorker] and proves the
    properties that its specification states about it.

    Conventions of the embedding.
    - Python [int] is [Z]; [//] and [%] are [Z.div] and [Z.modulo], which
      round like Python's for every non-zero divisor, with the
      [ZeroDivisionError] written out.
    - Python [float] values and the tensors of the losses are idealised
      as exact rationals ([Qc]): rounding and overflow are outside of
      the model.  A Python division by a zero float raises.  The tensors
      of the V-trace computation, which divides by the discount, are
      tensors of [Float.t]: exact rationals again, with the infinities
      and NaN that a torch division by zero gives.  The mean of an empty
      tensor of the losses, NaN in torch, is a number here ([x / 0] is
      [0] in [Qc]), and the statements on the losses are on tensors that
      are not empty.
    - A method that can raise returns an [outcome]; a loop that the source
      can spin in forever returns [Diverge] at the point where it stops
      making progress.
    - Dictionaries are [gmap]s, tensors that are indexed are lists, the
      checkpoint directory is a map from file names to directory entries.
    - Values that the source draws from outside (the random permutation of
      numpy, the result of the optimiser step, the save-rate schedule of
      [utils.decay.LinearDecay]) are variables of the section that uses
      them. *)

From Stdlib Require Import ZArith QArith Qcanon Lia Lqa Ascii.
From stdpp Require Import base tactics option list numbers gmap strings sorting.

Local Open Scope Z_scope.

(** ** Python runtime *)

Inductive exn : Type :=
  | AssertionError
  | ZeroDivisionError
  | KeyError
  | IndexError
  | ValueError
  | RuntimeError
  | OSError.

Inductive outcome (A : Type) : Type :=
  | Ok (a : A)
  | Raise (e : exn)
  | Diverge.
Arguments Ok {A} a.
Arguments Raise {A} e.
Arguments Diverge {A}.

Global Instance outcome_ret : MRet outcome := @Ok.
Global Instance outcome_bind : MBind outcome := λ A B f m,
  match m with
  | Ok a => f a
  | Raise e => Raise e
  | Diverge => Diverge
  end.

Module Py.

(** [assert b] *)
Definition assert (b : bool) : outcome unit :=
  if b then Ok () else Raise AssertionError.

(** [a // b] on integers *)
Definition floordiv (a b : Z) : outcome Z :=
  if b =? 0 then Raise ZeroDivisionError else Ok (a / b).

(** [a % b] on integers *)
Definition mod_ (a b : Z) : outcome Z :=
  if b =? 0 then Raise ZeroDivisionError else Ok (a mod b).

(** [len(l)] *)
Definition len {A} (l : list A) : Z := Z.of_nat (length l).

(** The position a slice bound [n] denotes in a sequence of length
    [len]: negative bounds count from the end, and all are clipped. *)
Definition slice_bound (n len : Z) : nat :=
  Z.to_nat (Z.min len (if n <? 0 then Z.max 0 (len + n) else n)).

(** [l[:n]] *)
Definition slice_to {A} (n : Z) (l : list A) : list A :=
  take (slice_bound n (len l)) l.

(** [l[n:]] *)
Definition slice_from {A} (n : Z) (l : list A) : list A :=
  drop (slice_bound n (len l)) l.

(** [l[i]] for an integer [i]: negative indices count from the end. *)
Definition index {A} (l : list A) (i : Z) : outcome A :=
  let j := if i <? 0 then i + len l else i in
  if (0 <=? j) && (j <? len l)
  then match l !! Z.to_nat j with
       | Some x => Ok x
       | None => Raise IndexError
       end
  else Raise IndexError.

(** [max(a, b)] on numbers: the first argument stays unless the second
    is strictly greater. *)
Definition max (a b : Qc) : Qc := if decide (a < b)%Qc then b else a.

(** The value of [delta_rollouts / delta_time]-like expressions: Python
    tells the integer [0] from a float. *)
Inductive num : Type :=
  | Int (z : Z)
  | Float (q : Qc).

(** [a / b] with an integer [a] and a float [b] *)
Definition truediv (a : Z) (b : Qc) : outcome num :=
  if decide (b = 0%Qc) then Raise ZeroDivisionError
  else Ok (Float (Qc_of_Z a / b)%Qc).

End Py.

(** ** numpy and torch helpers *)

Module Np.

(** [np.arange(start, stop, step)] on integers *)
Definition arange (start stop step : Z) : outcome (list Z) :=
  if step =? 0 then Raise ZeroDivisionError
  else
    let n := Z.to_nat (- ((start - stop) / step)) in
    Ok ((λ k : nat, start + Z.of_nat k * step) <$> seq 0 n).

(** [np.concatenate(arrays)] of one-dimensional arrays *)
Definition concatenate {A} (arrays : list (list A)) : outcome (list A) :=
  match arrays with
  | [] => Raise ValueError
  | _ => Ok (concat arrays)
  end.

(** [k] consecutive sections of [n] elements each *)
Fixpoint sections {A} (n k : nat) (l : list A) : list (list A) :=
  match k with
  | O => []
  | S k' => take n l :: sections n k' (drop n l)
  end.

(** [np.split(ary, k)] with an integer [k]: an equal division or an
    error. *)
Definition split {A} (ary : list A) (k : Z) : outcome (list (list A)) :=
  r ← Py.mod_ (Py.len ary) k;
  if negb (r =? 0) then Raise ValueError
  else if k <=? 0 then Raise ValueError
  else Ok (sections (Z.to_nat (Py.len ary / k)) (Z.to_nat k) ary).

End Np.

(** ** Configuration and data *)

Record Config : Type := MkConfig {
  macro_batch : Z;
  rollout : Z;
  recurrence : Z;
  batch_size : Z;
  max_policy_lag : Z;
  ppo_epochs : Z;
  target_kl : Qc;
  keep_checkpoints : Z;
  initial_kl_coeff : Qc;
  with_pbt : bool;
  learning_rate : Qc;
  adam_beta1 : Qc;
  adam_beta2 : Qc;
}.

(** The tensors of a trajectory slot that the learner's control flow
    looks at; [r['t']] in the source. *)
Record Trajectory : Type := MkTrajectory {
  t_policy_version : list Z;
  t_rewards : list Qc;
}.

(** A rollout descriptor, the dictionary built by [_extract_rollouts]. *)
Record Rollout : Type := MkRollout {
  r_worker_idx : Z;
  r_split_idx : Z;
  r_env_idx : Z;
  r_agent_idx : Z;
  r_traj_buffer_idx : Z;
  r_length : Z;
  r_env_steps : Z;
  r_t : Trajectory;
}.

(** A three-dimensional integer tensor, here the readiness bitmap of one
    (worker, split): its shape and its entries by index. *)
Record Tensor3 : Type := MkTensor3 {
  shape : Z * Z * Z;
  entries : gmap (Z * Z * Z) Z;
}.

(** An index into a dimension of size [d], counted from the end when
    negative. *)
Definition norm_index (i d : Z) : outcome Z :=
  if (0 <=? i) && (i <? d) then Ok i
  else if (- d <=? i) && (i <? 0) then Ok (i + d)
  else Raise IndexError.

(** [t[i, j, k] = v] *)
Definition tensor_set (t : Tensor3) (i j k v : Z) : outcome Tensor3 :=
  let '(d0, d1, d2) := shape t in
  i' ← norm_index i d0;
  j' ← norm_index j d1;
  k' ← norm_index k d2;
  Ok (MkTensor3 (shape t) (<[(i', j', k') := v]> (entries t))).

(** [t[i, j, k]] *)
Definition tensor_get (t : Tensor3) (i j k : Z) : outcome Z :=
  let '(d0, d1, d2) := shape t in
  i' ← norm_index i d0;
  j' ← norm_index j d1;
  k' ← norm_index k d2;
  Ok (default 0 (entries t !! (i', j', k'))).

(** [x.min().item()] of a one-dimensional integer tensor *)
Definition tensor_min (x : list Z) : outcome Z :=
  match x with
  | [] => Raise RuntimeError
  | v :: vs => Ok (foldl Z.min v vs)
  end.

(** ** Formatting of integers and checkpoint names *)

Module Fmt.

Definition digit (d : Z) : Ascii.ascii := Ascii.ascii_of_N (Z.to_N (48 + d)).

(** The [w] low decimal digits of [n], most significant first. *)
Fixpoint digits_fixed (w : nat) (n : Z) : string :=
  match w with
  | O => EmptyString
  | S w' => String (digit (n / 10 ^ Z.of_nat w' mod 10)) (digits_fixed w' n)
  end.

Fixpoint num_digits_fuel (fuel : nat) (n : Z) : nat :=
  match fuel with
  | O => 1%nat
  | S f => if n <? 10 then 1%nat else S (num_digits_fuel f (n / 10))
  end.

(** The number of decimal digits of [n >= 0]. *)
Definition num_digits (n : Z) : nat :=
  num_digits_fuel (Z.to_nat (Z.log2 n)) n.

(** [f'{z}'] *)
Definition format_d (z : Z) : string :=
  if z <? 0
  then String "-"%char (digits_fixed (num_digits (- z)) (- z))
  else digits_fixed (num_digits z) z.

(** [f'{z:09d}']: zero padding to a width of nine that counts the
    sign. *)
Definition format_09d (z : Z) : string :=
  if z <? 0
  then String "-"%char (digits_fixed (Nat.max 8 (num_digits (- z))) (- z))
  else digits_fixed (Nat.max 9 (num_digits z)) z.

End Fmt.

(** [f'checkpoint_{train_step:09d}_{env_steps}.pth'] *)
Definition checkpoint_name (train_step env_steps : Z) : string :=
  "checkpoint_" +:+ Fmt.format_09d train_step +:+ "_"
    +:+ Fmt.format_d env_steps +:+ ".pth".

(** ** Checkpoints and the checkpoint directory *)

(** A [state_dict] of torch: tensors by parameter name. *)
Abbreviation state_dict := (gmap string (list Qc)).

(** The Adam optimiser: the hyperparameters of its one parameter group
    and its moment estimates.  [optimizer.state_dict()] carries all of
    it. *)
Record Optimizer : Type := MkOptimizer {
  lr : Qc;
  betas : Qc * Qc;
  opt_state : state_dict;
}.

(** The dictionary built by [_get_checkpoint_dict]. *)
Record Checkpoint : Type := MkCheckpoint {
  ck_train_step : Z;
  ck_env_steps : Z;
  ck_kl_coeff : Qc;
  ck_model : state_dict;
  ck_optimizer : Optimizer;
}.

Inductive entry : Type :=
  | File (ck : Checkpoint)
  | Directory.

(** One checkpoint directory: its entries by name. *)
Abbreviation dir := (gmap string entry).

(** The pattern [checkpoint_*] of [glob.glob]. *)
Definition glob_checkpoint (name : string) : Prop :=
  String.prefix "checkpoint_" name = true.

Global Instance glob_checkpoint_dec name : Decision (glob_checkpoint name).
Proof. unfold glob_checkpoint. apply _. Defined.

(** [get_checkpoints]: the matching names, sorted as strings. *)
Definition get_checkpoints (d : dir) : list string :=
  merge_sort String.le (filter glob_checkpoint (map_to_list d).*1).

(** [os.path.isfile] *)
Definition isfile (d : dir) (name : string) : bool :=
  match d !! name with
  | Some (File _) => true
  | _ => false
  end.

(** [torch.save(checkpoint, path)] *)
Definition torch_save (ck : Checkpoint) (path : string) (d : dir) : outcome dir :=
  match d !! path with
  | Some Directory => Raise OSError
  | _ => Ok (<[path := File ck]> d)
  end.

(** [os.rename(src, dst)] of a file: an existing file [dst] is replaced. *)
Definition os_rename (src dst : string) (d : dir) : outcome dir :=
  match d !! src with
  | None => Raise OSError
  | Some Directory => Raise OSError
  | Some (File ck) =>
      match d !! dst with
      | Some Directory => Raise OSError
      | _ => Ok (<[dst := File ck]> (delete src d))
      end
  end.

(** [torch.load(path)] *)
Definition torch_load (d : dir) (path : string) : outcome Checkpoint :=
  match d !! path with
  | Some (File ck) => Ok ck
  | _ => Raise OSError
  end.

(** The loop at the end of [_save]
    <<
      while len(self.get_checkpoints(checkpoint_dir)) > self.cfg.keep_checkpoints:
          oldest_checkpoint = self.get_checkpoints(checkpoint_dir)[0]
          if os.path.isfile(oldest_checkpoint):
              os.remove(oldest_checkpoint)
    >>
    When the oldest entry is not a file the directory stays as it is and
    the loop spins: [Diverge].  [None] is the bound running out. *)
Fixpoint remove_old_fuel (fuel : nat) (keep : Z) (d : dir) : option (outcome dir) :=
  if keep <? Py.len (get_checkpoints d) then
    match fuel with
    | O => None
    | S fuel' =>
        match Py.index (get_checkpoints d) 0 with
        | Ok oldest_checkpoint =>
            if isfile d oldest_checkpoint
            then remove_old_fuel fuel' keep (delete oldest_checkpoint d)
            else Some Diverge
        | Raise e => Some (Raise e)
        | Diverge => Some Diverge
        end
    end
  else Some (Ok d).

(** Every pass removes an entry, so one pass per entry and a last test
    are enough ([remove_old_fuel_enough] below). *)
Definition remove_old (keep : Z) (d : dir) : outcome dir :=
  default Diverge (remove_old_fuel (S (length (get_checkpoints d))) keep d).

(** ** The learner's state *)

(** The experience buffer that [_prepare_train_buffer] assembles: the
    fields of the trajectories, concatenated. *)
Record Buffer : Type := MkBuffer {
  b_policy_version : list Z;
  b_rewards : list Qc;
}.

(** [(policy_version, state_dict, discarding_rate)] *)
Definition WeightUpdate : Type := Z * state_dict * Py.num.

(** The attributes of [LearnerWorker] that its control flow reads and
    writes.  [policy_worker_queues] holds what has been put on each queue,
    oldest first; [np_random_draws] counts the permutations drawn from
    numpy's generator; [fs] is the experiment directory, one checkpoint
    directory per policy id. *)
Record Learner : Type := MkLearner {
  policy_id : Z;
  cfg : Config;
  should_save_model : bool;
  load_policy_id : option Z;
  new_cfg : option (Config → Config);
  terminate : bool;
  actor_critic : state_dict;
  optimizer : Optimizer;
  rollout_tensors : gmap (Z * Z * Z * Z * Z) Trajectory;
  traj_buffer_ready : gmap (Z * Z) Tensor3;
  experience_buffer_queue : list (Buffer * Z * Z);
  with_training : bool;
  train_step : Z;
  env_steps : Z;
  last_saved : Z;
  discarded_experience_over_time : list (Qc * Z);
  discarded_experience_timer : Qc;
  num_discarded_rollouts : Z;
  kl_coeff : Qc;
  model_saved_event : bool;
  policy_worker_queues : list (list WeightUpdate);
  np_random_draws : nat;
  fs : gmap Z dir;
}.

Definition set_policy_id (v : Z) (s : Learner) : Learner :=
  MkLearner v (cfg s) (should_save_model s) (load_policy_id s) (new_cfg s)
    (terminate s) (actor_critic s) (optimizer s) (rollout_tensors s)
    (traj_buffer_ready s) (experience_buffer_queue s) (with_training s)
    (train_step s) (env_steps s) (last_saved s)
    (discarded_experience_over_time s) (discarded_experience_timer s)
    (num_discarded_rollouts s) (kl_coeff s) (model_saved_event s)
    (policy_worker_queues s) (np_random_draws s) (fs s).

Definition set_cfg (v : Config) (s : Learner) : Learner :=
  MkLearner (policy_id s) v (should_save_model s) (load_policy_id s) (new_cfg
    s) (terminate s) (actor_critic s) (optimizer s) (rollout_tensors s)
    (traj_buffer_ready s) (experience_buffer_queue s) (with_training s)
    (train_step s) (env_steps s) (last_saved s)
    (discarded_experience_over_time s) (discarded_experience_timer s)
    (num_discarded_rollouts s) (kl_coeff s) (model_saved_event s)
    (policy_worker_queues s) (np_random_draws s) (fs s).

Definition set_should_save_model (v : bool) (s : Learner) : Learner :=
  MkLearner (policy_id s) (cfg s) v (load_policy_id s) (new_cfg s) (terminate
    s) (actor_critic s) (optimizer s) (rollout_tensors s) (traj_buffer_ready
    s) (experience_buffer_queue s) (with_training s) (train_step s) (env_steps
    s) (last_saved s) (discarded_experience_over_time s)
    (discarded_experience_timer s) (num_discarded_rollouts s) (kl_coeff s)
    (model_saved_event s) (policy_worker_queues s) (np_random_draws s) (fs s).

Definition set_load_policy_id (v : option Z) (s : Learner) : Learner :=
  MkLearner (policy_id s) (cfg s) (should_save_model s) v (new_cfg s)
    (terminate s) (actor_critic s) (optimizer s) (rollout_tensors s)
    (traj_buffer_ready s) (experience_buffer_queue s) (with_training s)
    (train_step s) (env_steps s) (last_saved s)
    (discarded_experience_over_time s) (discarded_experience_timer s)
    (num_discarded_rollouts s) (kl_coeff s) (model_saved_event s)
    (policy_worker_queues s) (np_random_draws s) (fs s).

Definition set_new_cfg (v : option (Config → Config)) (s : Learner) : Learner :=
  MkLearner (policy_id s) (cfg s) (should_save_model s) (load_policy_id s) v
    (terminate s) (actor_critic s) (optimizer s) (rollout_tensors s)
    (traj_buffer_ready s) (experience_buffer_queue s) (with_training s)
    (train_step s) (env_steps s) (last_saved s)
    (discarded_experience_over_time s) (discarded_experience_timer s)
    (num_discarded_rollouts s) (kl_coeff s) (model_saved_event s)
    (policy_worker_queues s) (np_random_draws s) (fs s).

Definition set_terminate (v : bool) (s : Learner) : Learner :=
  MkLearner (policy_id s) (cfg s) (should_save_model s) (load_policy_id s)
    (new_cfg s) v (actor_critic s) (optimizer s) (rollout_tensors s)
    (traj_buffer_ready s) (experience_buffer_queue s) (with_training s)
    (train_step s) (env_steps s) (last_saved s)
    (discarded_experience_over_time s) (discarded_experience_timer s)
    (num_discarded_rollouts s) (kl_coeff s) (model_saved_event s)
    (policy_worker_queues s) (np_random_draws s) (fs s).

Definition set_actor_critic (v : state_dict) (s : Learner) : Learner :=
  MkLearner (policy_id s) (cfg s) (should_save_model s) (load_policy_id s)
    (new_cfg s) (terminate s) v (optimizer s) (rollout_tensors s)
    (traj_buffer_ready s) (experience_buffer_queue s) (with_training s)
    (train_step s) (env_steps s) (last_saved s)
    (discarded_experience_over_time s) (discarded_experience_timer s)
    (num_discarded_rollouts s) (kl_coeff s) (model_saved_event s)
    (policy_worker_queues s) (np_random_draws s) (fs s).

Definition set_optimizer (v : Optimizer) (s : Learner) : Learner :=
  MkLearner (policy_id s) (cfg s) (should_save_model s) (load_policy_id s)
    (new_cfg s) (terminate s) (actor_critic s) v (rollout_tensors s)
    (traj_buffer_ready s) (experience_buffer_queue s) (with_training s)
    (train_step s) (env_steps s) (last_saved s)
    (discarded_experience_over_time s) (discarded_experience_timer s)
    (num_discarded_rollouts s) (kl_coeff s) (model_saved_event s)
    (policy_worker_queues s) (np_random_draws s) (fs s).

Definition set_rollout_tensors (v : gmap (Z * Z * Z * Z * Z) Trajectory) (s : Learner) : Learner :=
  MkLearner (policy_id s) (cfg s) (should_save_model s) (load_policy_id s)
    (new_cfg s) (terminate s) (actor_critic s) (optimizer s) v
    (traj_buffer_ready s) (experience_buffer_queue s) (with_training s)
    (train_step s) (env_steps s) (last_saved s)
    (discarded_experience_over_time s) (discarded_experience_timer s)
    (num_discarded_rollouts s) (kl_coeff s) (model_saved_event s)
    (policy_worker_queues s) (np_random_draws s) (fs s).

Definition set_traj_buffer_ready (v : gmap (Z * Z) Tensor3) (s : Learner) : Learner :=
  MkLearner (policy_id s) (cfg s) (should_save_model s) (load_policy_id s)
    (new_cfg s) (terminate s) (actor_critic s) (optimizer s) (rollout_tensors
    s) v (experience_buffer_queue s) (with_training s) (train_step s)
    (env_steps s) (last_saved s) (discarded_experience_over_time s)
    (discarded_experience_timer s) (num_discarded_rollouts s) (kl_coeff s)
    (model_saved_event s) (policy_worker_queues s) (np_random_draws s) (fs s).

Definition set_experience_buffer_queue (v : list (Buffer * Z * Z)) (s : Learner) : Learner :=
  MkLearner (policy_id s) (cfg s) (should_save_model s) (load_policy_id s)
    (new_cfg s) (terminate s) (actor_critic s) (optimizer s) (rollout_tensors
    s) (traj_buffer_ready s) v (with_training s) (train_step s) (env_steps s)
    (last_saved s) (discarded_experience_over_time s)
    (discarded_experience_timer s) (num_discarded_rollouts s) (kl_coeff s)
    (model_saved_event s) (policy_worker_queues s) (np_random_draws s) (fs s).

Definition set_with_training (v : bool) (s : Learner) : Learner :=
  MkLearner (policy_id s) (cfg s) (should_save_model s) (load_policy_id s)
    (new_cfg s) (terminate s) (actor_critic s) (optimizer s) (rollout_tensors
    s) (traj_buffer_ready s) (experience_buffer_queue s) v (train_step s)
    (env_steps s) (last_saved s) (discarded_experience_over_time s)
    (discarded_experience_timer s) (num_discarded_rollouts s) (kl_coeff s)
    (model_saved_event s) (policy_worker_queues s) (np_random_draws s) (fs s).

Definition set_train_step (v : Z) (s : Learner) : Learner :=
  MkLearner (policy_id s) (cfg s) (should_save_model s) (load_policy_id s)
    (new_cfg s) (terminate s) (actor_critic s) (optimizer s) (rollout_tensors
    s) (traj_buffer_ready s) (experience_buffer_queue s) (with_training s) v
    (env_steps s) (last_saved s) (discarded_experience_over_time s)
    (discarded_experience_timer s) (num_discarded_rollouts s) (kl_coeff s)
    (model_saved_event s) (policy_worker_queues s) (np_random_draws s) (fs s).

Definition set_env_steps (v : Z) (s : Learner) : Learner :=
  MkLearner (policy_id s) (cfg s) (should_save_model s) (load_policy_id s)
    (new_cfg s) (terminate s) (actor_critic s) (optimizer s) (rollout_tensors
    s) (traj_buffer_ready s) (experience_buffer_queue s) (with_training s)
    (train_step s) v (last_saved s) (discarded_experience_over_time s)
    (discarded_experience_timer s) (num_discarded_rollouts s) (kl_coeff s)
    (model_saved_event s) (policy_worker_queues s) (np_random_draws s) (fs s).

Definition set_last_saved (v : Z) (s : Learner) : Learner :=
  MkLearner (policy_id s) (cfg s) (should_save_model s) (load_policy_id s)
    (new_cfg s) (terminate s) (actor_critic s) (optimizer s) (rollout_tensors
    s) (traj_buffer_ready s) (experience_buffer_queue s) (with_training s)
    (train_step s) (env_steps s) v (discarded_experience_over_time s)
    (discarded_experience_timer s) (num_discarded_rollouts s) (kl_coeff s)
    (model_saved_event s) (policy_worker_queues s) (np_random_draws s) (fs s).

Definition set_discarded_experience_over_time (v : list (Qc * Z)) (s : Learner) : Learner :=
  MkLearner (policy_id s) (cfg s) (should_save_model s) (load_policy_id s)
    (new_cfg s) (terminate s) (actor_critic s) (optimizer s) (rollout_tensors
    s) (traj_buffer_ready s) (experience_buffer_queue s) (with_training s)
    (train_step s) (env_steps s) (last_saved s) v (discarded_experience_timer
    s) (num_discarded_rollouts s) (kl_coeff s) (model_saved_event s)
    (policy_worker_queues s) (np_random_draws s) (fs s).

Definition set_discarded_experience_timer (v : Qc) (s : Learner) : Learner :=
  MkLearner (policy_id s) (cfg s) (should_save_model s) (load_policy_id s)
    (new_cfg s) (terminate s) (actor_critic s) (optimizer s) (rollout_tensors
    s) (traj_buffer_ready s) (experience_buffer_queue s) (with_training s)
    (train_step s) (env_steps s) (last_saved s)
    (discarded_experience_over_time s) v (num_discarded_rollouts s) (kl_coeff
    s) (model_saved_event s) (policy_worker_queues s) (np_random_draws s) (fs
    s).

Definition set_num_discarded_rollouts (v : Z) (s : Learner) : Learner :=
  MkLearner (policy_id s) (cfg s) (should_save_model s) (load_policy_id s)
    (new_cfg s) (terminate s) (actor_critic s) (optimizer s) (rollout_tensors
    s) (traj_buffer_ready s) (experience_buffer_queue s) (with_training s)
    (train_step s) (env_steps s) (last_saved s)
    (discarded_experience_over_time s) (discarded_experience_timer s) v
    (kl_coeff s) (model_saved_event s) (policy_worker_queues s)
    (np_random_draws s) (fs s).

Definition set_kl_coeff (v : Qc) (s : Learner) : Learner :=
  MkLearner (policy_id s) (cfg s) (should_save_model s) (load_policy_id s)
    (new_cfg s) (terminate s) (actor_critic s) (optimizer s) (rollout_tensors
    s) (traj_buffer_ready s) (experience_buffer_queue s) (with_training s)
    (train_step s) (env_steps s) (last_saved s)
    (discarded_experience_over_time s) (discarded_experience_timer s)
    (num_discarded_rollouts s) v (model_saved_event s) (policy_worker_queues
    s) (np_random_draws s) (fs s).

Definition set_model_saved_event (v : bool) (s : Learner) : Learner :=
  MkLearner (policy_id s) (cfg s) (should_save_model s) (load_policy_id s)
    (new_cfg s) (terminate s) (actor_critic s) (optimizer s) (rollout_tensors
    s) (traj_buffer_ready s) (experience_buffer_queue s) (with_training s)
    (train_step s) (env_steps s) (last_saved s)
    (discarded_experience_over_time s) (discarded_experience_timer s)
    (num_discarded_rollouts s) (kl_coeff s) v (policy_worker_queues s)
    (np_random_draws s) (fs s).

Definition set_policy_worker_queues (v : list (list WeightUpdate)) (s : Learner) : Learner :=
  MkLearner (policy_id s) (cfg s) (should_save_model s) (load_policy_id s)
    (new_cfg s) (terminate s) (actor_critic s) (optimizer s) (rollout_tensors
    s) (traj_buffer_ready s) (experience_buffer_queue s) (with_training s)
    (train_step s) (env_steps s) (last_saved s)
    (discarded_experience_over_time s) (discarded_experience_timer s)
    (num_discarded_rollouts s) (kl_coeff s) (model_saved_event s) v
    (np_random_draws s) (fs s).

Definition set_np_random_draws (v : nat) (s : Learner) : Learner :=
  MkLearner (policy_id s) (cfg s) (should_save_model s) (load_policy_id s)
    (new_cfg s) (terminate s) (actor_critic s) (optimizer s) (rollout_tensors
    s) (traj_buffer_ready s) (experience_buffer_queue s) (with_training s)
    (train_step s) (env_steps s) (last_saved s)
    (discarded_experience_over_time s) (discarded_experience_timer s)
    (num_discarded_rollouts s) (kl_coeff s) (model_saved_event s)
    (policy_worker_queues s) v (fs s).

Definition set_fs (v : gmap Z dir) (s : Learner) : Learner :=
  MkLearner (policy_id s) (cfg s) (should_save_model s) (load_policy_id s)
    (new_cfg s) (terminate s) (actor_critic s) (optimizer s) (rollout_tensors
    s) (traj_buffer_ready s) (experience_buffer_queue s) (with_training s)
    (train_step s) (env_steps s) (last_saved s)
    (discarded_experience_over_time s) (discarded_experience_timer s)
    (num_discarded_rollouts s) (kl_coeff s) (model_saved_event s)
    (policy_worker_queues s) (np_random_draws s) v.

(** [for x in l: s = f(x, s)] with exceptions *)
Fixpoint for_each {A S : Type} (f : A → S → outcome S) (l : list A) (s : S) : outcome S :=
  match l with
  | [] => Ok s
  | x :: l' => s' ← f x s; for_each f l' s'
  end.

(** [[f(x) for x in l]] with exceptions *)
Fixpoint mapM_outcome {A B : Type} (f : A → outcome B) (l : list A) : outcome (list B) :=
  match l with
  | [] => Ok []
  | x :: l' => y ← f x; ys ← mapM_outcome f l'; Ok (y :: ys)
  end.

(** The directory [checkpoint_dir(cfg, policy_id)]; a directory that
    [ensure_dir_exists] has to create is empty. *)
Definition checkpoint_dir (fs : gmap Z dir) (policy_id : Z) : dir :=
  default ∅ (fs !! policy_id).

(** [deque.append] with [maxlen=30] *)
Definition deque_append {A} (maxlen : nat) (x : A) (q : list A) : list A :=
  let q' := q ++ [x] in drop (length q' - maxlen) q'.

(** Messages of the PBT controller ([PbtTask]) *)
Inductive PbtTask : Type :=
  | SAVE_MODEL (policy_id : Z)
  | LOAD_MODEL (policy_id new_policy_id : Z)
  | UPDATE_CFG (policy_id : Z) (new_cfg : Config → Config).

(** The payload of an [INIT_TENSORS] task *)
Record InitTensors : Type := MkInitTensors {
  it_policy_id : Z;
  it_worker_idx : Z;
  it_split_idx : Z;
  it_traj_buffer_idx : Z;
  it_tensors : list (Z * Z * Trajectory);
  it_is_ready_tensor : Tensor3;
}.

(** The payload of a [TRAIN] task; a rollout is announced by
    [(env_idx, agent_idx, length, env_steps)]. *)
Record TrainData : Type := MkTrainData {
  td_worker_idx : Z;
  td_split_idx : Z;
  td_traj_buffer_idx : Z;
  td_rollouts : list (Z * Z * Z * Z);
}.

(** Messages on the learner's task queue ([TaskType]) *)
Inductive Task : Type :=
  | INIT
  | TERMINATE
  | INIT_TENSORS (data : InitTensors)
  | TRAIN (data : TrainData)
  | PBT (data : PbtTask)
  | EMPTY.
(** ** The V-trace targets of [_train] *)

(** The floats of torch in the V-trace computation, which divides by the
    discount: a finite value, an infinity or NaN.  Finite values are
    exact rationals, so rounding and overflow stay outside of the model,
    and so does the sign of a zero: a division by zero is one by [+0.0]. *)
Module Float.

Inductive t : Type :=
  | Fin (q : Qc)
  | PInf
  | NInf
  | NaN.

Definition zero : t := Fin 0.

Definition finite (x : t) : Prop :=
  match x with Fin _ => True | _ => False end.

Definition neg (x : t) : t :=
  match x with
  | Fin q => Fin (- q)
  | PInf => NInf
  | NInf => PInf
  | NaN => NaN
  end.

Definition add (x y : t) : t :=
  match x, y with
  | NaN, _ | _, NaN => NaN
  | Fin a, Fin b => Fin (a + b)
  | PInf, NInf | NInf, PInf => NaN
  | PInf, _ | _, PInf => PInf
  | NInf, _ | _, NInf => NInf
  end.

Definition sub (x y : t) : t := add x (neg y).

(** An infinity times the finite value [a] *)
Definition scale (a : Qc) (inf : t) : t :=
  if decide (a = 0%Qc) then NaN
  else if decide (0 < a)%Qc then inf else neg inf.

Definition mul (x y : t) : t :=
  match x, y with
  | NaN, _ | _, NaN => NaN
  | Fin a, Fin b => Fin (a * b)
  | Fin a, inf => scale a inf
  | inf, Fin b => scale b inf
  | PInf, PInf | NInf, NInf => PInf
  | PInf, NInf | NInf, PInf => NInf
  end.

Definition div (x y : t) : t :=
  match x, y with
  | NaN, _ | _, NaN => NaN
  | Fin a, Fin b =>
      if decide (b = 0%Qc)
      then if decide (a = 0%Qc) then NaN
           else if decide (0 < a)%Qc then PInf else NInf
      else Fin (a / b)
  | Fin _, _ => Fin 0
  | inf, Fin b => if decide (b < 0)%Qc then neg inf else inf
  | _, _ => NaN
  end.

(** [x < y]; false when either is NaN *)
Definition ltb (x y : t) : bool :=
  match x, y with
  | NaN, _ | _, NaN => false
  | Fin a, Fin b => bool_decide (a < b)%Qc
  | NInf, NInf => false
  | NInf, _ => true
  | _, NInf => false
  | PInf, _ => false
  | Fin _, PInf => true
  end.

(** [torch.min] of two elements: NaN wins. *)
Definition min (x y : t) : t :=
  match x, y with
  | NaN, _ | _, NaN => NaN
  | _, _ => if ltb y x then y else x
  end.

(** [max(a, b)] of Python on floats: the first argument stays unless
    the second is strictly greater. *)
Definition py_max (a b : t) : t := if ltb a b then b else a.

End Float.

Module Torch.

(** A binary operation on one-dimensional tensors, with the
    broadcasting of a tensor of one element. *)
Definition zip_broadcast {A} (f : A → A → A) (a b : list A) : outcome (list A) :=
  if decide (length a = length b) then Ok (zip_with f a b)
  else
    match a, b with
    | [x], _ => Ok (f x <$> b)
    | _, [y] => Ok ((λ x, f x y) <$> a)
    | _, _ => Raise RuntimeError
    end.

(** The operations on tensors of finite values *)
Definition add := zip_broadcast Qcplus.
Definition sub := zip_broadcast Qcminus.
Definition mul := zip_broadcast Qcmult.
Definition min_ := zip_broadcast (λ a b, if decide (b < a)%Qc then b else a).

(** [x[idx]] for an integer array [idx] *)
Definition gather {A} (x : list A) (idx : list Z) : outcome (list A) :=
  mapM_outcome (Py.index x) idx.

(** [x[idx] = v] for an integer array [idx] and a tensor [v] of the
    same length *)
Fixpoint scatter {A} (x : list A) (idx : list Z) (v : list A) : outcome (list A) :=
  match idx, v with
  | [], [] => Ok x
  | i :: idx', y :: v' =>
      let j := if i <? 0 then i + Py.len x else i in
      if (0 <=? j) && (j <? Py.len x)
      then scatter (<[Z.to_nat j := y]> x) idx' v'
      else Raise IndexError
  | _, _ => Raise RuntimeError
  end.

(** [x.mean()] *)
Definition mean (x : list Qc) : Qc :=
  (foldr Qcplus 0 x / Qc_of_Z (Py.len x))%Qc.

End Torch.

(** Tensors of floats, as the V-trace computation has them. *)
Module Tensor.

Definition add := Torch.zip_broadcast Float.add.
Definition sub := Torch.zip_broadcast Float.sub.
Definition mul := Torch.zip_broadcast Float.mul.
Definition min_ := Torch.zip_broadcast Float.min.

(** [torch.zeros(n)] *)
Definition zeros (n : Z) : outcome (list Float.t) :=
  if n <? 0 then Raise RuntimeError else Ok (replicate (Z.to_nat n) Float.zero).

(** [x.mean()]; NaN for an empty tensor *)
Definition mean (x : list Float.t) : Float.t :=
  Float.div (foldr Float.add Float.zero x) (Float.Fin (Qc_of_Z (Py.len x))).

End Tensor.

Section Vtrace.

(** [x.std()], the sample standard deviation *)
Variable torch_std : list Float.t → Float.t.

Variables (recurrence batch_size : Z) (gamma : Qc).

(** The state of the backward loop *)
Record VtraceLoop : Type := MkVtraceLoop {
  l_next_values : list Float.t;
  l_next_vs : list Float.t;
  l_vs : list Float.t;
  l_adv : list Float.t;
}.

(** The body of [for i in reversed(range(self.cfg.recurrence))] *)
Definition vtrace_step (rewards_cpu dones_cpu values_cpu vtrace_rho vtrace_c : list Float.t)
    (i : Z) (l : VtraceLoop) : outcome VtraceLoop :=
  timestep ← Np.arange i batch_size recurrence;
  rewards ← Torch.gather rewards_cpu timestep;
  dones ← Torch.gather dones_cpu timestep;
  let not_done := (λ d, Float.sub (Float.Fin 1) d) <$> dones in
  let not_done_times_gamma := (λ x, Float.mul x (Float.Fin gamma)) <$> not_done in
  curr_values ← Torch.gather values_cpu timestep;
  curr_vtrace_rho ← Torch.gather vtrace_rho timestep;
  curr_vtrace_c ← Torch.gather vtrace_c timestep;
  (* delta_s = curr_vtrace_rho * (rewards + not_done_times_gamma * next_values - curr_values) *)
  x ← Tensor.mul not_done_times_gamma (l_next_values l);
  x ← Tensor.add rewards x;
  x ← Tensor.sub x curr_values;
  delta_s ← Tensor.mul curr_vtrace_rho x;
  (* adv[timestep] = curr_vtrace_rho * (rewards + not_done_times_gamma * next_vs - curr_values) *)
  x ← Tensor.mul not_done_times_gamma (l_next_vs l);
  x ← Tensor.add rewards x;
  x ← Tensor.sub x curr_values;
  x ← Tensor.mul curr_vtrace_rho x;
  adv ← Torch.scatter (l_adv l) timestep x;
  (* next_vs = curr_values + delta_s + not_done_times_gamma * curr_vtrace_c * (next_vs - next_values) *)
  x ← Tensor.add curr_values delta_s;
  y ← Tensor.mul not_done_times_gamma curr_vtrace_c;
  z ← Tensor.sub (l_next_vs l) (l_next_values l);
  y ← Tensor.mul y z;
  next_vs ← Tensor.add x y;
  vs ← Torch.scatter (l_vs l) timestep next_vs;
  let next_values := curr_values in
  Ok (MkVtraceLoop next_values next_vs vs adv).

(** The V-trace targets [vs] and the advantages before they are
    normalised, from the assertions on the shape of the core outputs
    to the end of the backward loop. *)
Definition vtrace (num_trajectories : Z)
    (ratios_cpu values_cpu rewards_cpu dones_cpu : list Float.t)
    : outcome (list Float.t * list Float.t) :=
  Py.assert (recurrence * num_trajectories =? batch_size);;
  let rho_hat := [Float.Fin 1] in
  let c_hat := [Float.Fin 1] in
  vtrace_rho ← Tensor.min_ rho_hat ratios_cpu;
  vtrace_c ← Tensor.min_ c_hat ratios_cpu;
  vs ← Tensor.zeros (num_trajectories * recurrence);
  adv ← Tensor.zeros (num_trajectories * recurrence);
  last_timestep ← Np.arange (recurrence - 1) batch_size recurrence;
  last_values ← Torch.gather values_cpu last_timestep;
  last_rewards ← Torch.gather rewards_cpu last_timestep;
  x ← Tensor.sub last_values last_rewards;
  let next_values := fmap (M:=list) (λ x, Float.div x (Float.Fin gamma)) x in
  let next_vs := next_values in
  l ← for_each
        (vtrace_step rewards_cpu dones_cpu values_cpu vtrace_rho vtrace_c)
        (reverse (seqZ 0 recurrence))
        (MkVtraceLoop next_values next_vs vs adv);
  Ok (l_vs l, l_adv l).

(** [adv = (adv - adv_mean) / max(1e-2, adv_std)] *)
Definition normalize_advantage (adv : list Float.t) : list Float.t :=
  let adv_mean := Tensor.mean adv in
  let adv_std := torch_std adv in
  (λ a, Float.div (Float.sub a adv_mean)
          (Float.py_max (Float.Fin (Q2Qc (1 # 100))) adv_std)) <$> adv.

End Vtrace.

(** The state of the backward loop of [vtrace] before the pass for the
    timestep [i - 1], when the clipped ratios are zero and the values
    are finite: the running values are finite, the targets of the
    timesteps from [i] on are the values, the advantages are zero. *)
Definition zero_ratio_invariant (recurrence : Z) (num_trajectories : nat)
    (values_cpu : list Float.t) (i : Z) (l : VtraceLoop) : Prop :=
  length (l_next_values l) = num_trajectories ∧
  length (l_next_vs l) = num_trajectories ∧
  Forall Float.finite (l_next_values l) ∧
  Forall Float.finite (l_next_vs l) ∧
  l_adv l = replicate (length values_cpu) Float.zero ∧
  length (l_vs l) = length values_cpu ∧
  ∀ t : nat, (t < length values_cpu)%nat →
    l_vs l !! t = if decide (i ≤ Z.of_nat t mod recurrence)
                  then values_cpu !! t else Some Float.zero.

(** ** The specification's words

    Definitions that follow the specification, for the claims that
    compare the code with them. *)

(** The maximum of two numbers *)
Definition spec_max (a b : Qc) : Qc := if decide (a ≤ b)%Qc then b else a.

(** "if [kl_old_mean > target_kl] then [kl_coeff] times [1.5]; else if
    [kl_old_mean < target_kl / 2] then [kl_coeff] over [1.5]" *)
Definition spec_kl_update (target_kl kl_old_mean k : Qc) : Qc :=
  if decide (target_kl < kl_old_mean)%Qc then (k * Q2Qc (3 # 2))%Qc
  else if decide (kl_old_mean < target_kl / Q2Qc 2)%Qc then (k / Q2Qc (3 # 2))%Qc
  else k.

(** ** The methods of [LearnerWorker] *)

Section LearnerWorker.

(** The permutation that the [n]-th call of [np.random.permutation]
    returns for an array. *)
Variable np_random_permutation : nat → list Z → list Z.

(** The numerical part of one pass of the minibatch loop of [_train]:
    forward pass, V-trace targets, losses and [optimizer.step()].  From
    the parameters, the optimiser, [kl_coeff], the buffer and the
    minibatch indices it gives the new parameters, the new optimiser
    state and [kl_old_mean], or raises. *)
Variable optimizer_step :
  state_dict → Optimizer → Qc → Buffer → option (list Z) →
  outcome (state_dict * Optimizer * Qc).

(** [self.save_rate_decay.at] of [utils.decay.LinearDecay] *)
Variable save_rate_decay_at : Z → Qc.

(** The parameters of a new [ActorCritic] ([algorithms.appo.model]) *)
Variable ActorCritic : Config → state_dict.

(** [__init__]: a learner for [policy_id] with [queues] policy worker
    queues, in the experiment directory [fs]. *)
Definition new_learner (policy_id : Z) (cfg : Config) (queues : nat)
    (fs : gmap Z dir) : Learner :=
  {| policy_id := policy_id;
     cfg := cfg;
     should_save_model := true;
     load_policy_id := None;
     new_cfg := None;
     terminate := false;
     actor_critic := ∅;
     optimizer := MkOptimizer 0%Qc (0%Qc, 0%Qc) ∅;
     rollout_tensors := ∅;
     traj_buffer_ready := ∅;
     experience_buffer_queue := [];
     with_training := true;
     train_step := 0;
     env_steps := 0;
     last_saved := 0;
     discarded_experience_over_time := [];
     discarded_experience_timer := 0%Qc;
     num_discarded_rollouts := 0;
     kl_coeff := initial_kl_coeff cfg;
     model_saved_event := false;
     policy_worker_queues := replicate queues [];
     np_random_draws := 0;
     fs := fs |}.

Definition _broadcast_weights (discarding_rate : Py.num) (s : Learner) : Learner :=
  let state_dict := actor_critic s in
  let policy_version := train_step s in
  let weight_update : WeightUpdate := (policy_version, state_dict, discarding_rate) in
  set_policy_worker_queues ((λ q, q ++ [weight_update]) <$> policy_worker_queues s) s.

Definition _mark_rollout_buffer_free (r : Rollout) (s : Learner) : outcome Learner :=
  match traj_buffer_ready s !! (r_worker_idx r, r_split_idx r) with
  | None => Raise KeyError
  | Some ready =>
      ready' ← tensor_set ready (r_env_idx r) (r_agent_idx r) (r_traj_buffer_idx r) 1;
      Ok (set_traj_buffer_ready
            (<[(r_worker_idx r, r_split_idx r) := ready']> (traj_buffer_ready s)) s)
  end.

(** [_prepare_train_buffer]: of the buffer the model keeps the fields
    [policy_version] and [rewards]; the advantages that the source
    adds when V-trace is off are not tracked.  With no rollout the
    buffer has no field and the squeeze of ['actions'] raises. *)
Definition _prepare_train_buffer (rollouts : list Rollout) (s : Learner)
    : outcome (Buffer * Learner) :=
  match rollouts with
  | [] => Raise KeyError
  | _ =>
      let trajectories := r_t <$> rollouts in
      let buffer :=
        MkBuffer (concat (t_policy_version <$> trajectories))
                 (concat (t_rewards <$> trajectories)) in
      s ← for_each _mark_rollout_buffer_free rollouts s;
      Ok (buffer, s)
  end.

Definition _process_macro_batch (rollouts : list Rollout) (s : Learner) : outcome Learner :=
  m ← Py.mod_ (macro_batch (cfg s)) (rollout (cfg s));
  Py.assert (m =? 0);;
  m ← Py.mod_ (rollout (cfg s)) (recurrence (cfg s));
  Py.assert (m =? 0);;
  m ← Py.mod_ (macro_batch (cfg s)) (recurrence (cfg s));
  Py.assert (m =? 0);;
  let samples := foldl (λ acc r, acc + r_length r) 0 rollouts in
  let env_steps := foldl (λ acc r, acc + r_env_steps r) 0 rollouts in
  '(buffer, s) ← _prepare_train_buffer rollouts s;
  Ok (set_experience_buffer_queue
        (experience_buffer_queue s ++ [(buffer, samples, env_steps)]) s).

(** The scan at the head of [_process_rollouts]
    <<
      for r in rollouts:
          rollout_min_version = r['t']['policy_version'].min().item()
          if policy_version - rollout_min_version >= self.cfg.max_policy_lag:
              discard_rollouts += 1
              self._mark_rollout_buffer_free(r)
          else:
              break
    >> *)
Fixpoint discard_scan (policy_version : Z) (rollouts : list Rollout)
    (discard_rollouts : Z) (s : Learner) : outcome (Z * Learner) :=
  match rollouts with
  | [] => Ok (discard_rollouts, s)
  | r :: rollouts' =>
      rollout_min_version ← tensor_min (t_policy_version (r_t r));
      if max_policy_lag (cfg s) <=? policy_version - rollout_min_version
      then
        s ← _mark_rollout_buffer_free r s;
        discard_scan policy_version rollouts' (discard_rollouts + 1) s
      else Ok (discard_rollouts, s)
  end.

Definition _process_rollouts (rollouts : list Rollout) (s : Learner)
    : outcome (list Rollout * bool * Learner) :=
  rollouts_in_macro_batch ← Py.floordiv (macro_batch (cfg s)) (rollout (cfg s));
  if Py.len rollouts <? rollouts_in_macro_batch then Ok (rollouts, false, s)
  else
    let policy_version := train_step s in
    '(discard_rollouts, s) ← discard_scan policy_version rollouts 0 s;
    let '(rollouts, s) :=
      if 0 <? discard_rollouts
      then (Py.slice_from discard_rollouts rollouts,
            set_num_discarded_rollouts (num_discarded_rollouts s + discard_rollouts) s)
      else (rollouts, s) in
    if rollouts_in_macro_batch <=? Py.len rollouts then
      let rollouts_to_process := Py.slice_to rollouts_in_macro_batch rollouts in
      let rollouts := Py.slice_from rollouts_in_macro_batch rollouts in
      s ← _process_macro_batch rollouts_to_process s;
      Ok (rollouts, true, s)
    else Ok (rollouts, false, s).

(** [_get_minibatches]; the windows [np.arange(i, i + recurrence)] are
    [seqZ i recurrence]. *)
Definition _get_minibatches (experience_size : Z) (s : Learner)
    : outcome (list (option (list Z)) * Learner) :=
  m ← Py.mod_ (rollout (cfg s)) (recurrence (cfg s));
  Py.assert (m =? 0);;
  m ← Py.mod_ experience_size (batch_size (cfg s));
  Py.assert (m =? 0);;
  if macro_batch (cfg s) =? batch_size (cfg s) then Ok ([None], s)
  else
    indices ← Np.arange 0 experience_size (recurrence (cfg s));
    let indices := np_random_permutation (np_random_draws s) indices in
    let s := set_np_random_draws (S (np_random_draws s)) s in
    let indices := (λ i, seqZ i (recurrence (cfg s))) <$> indices in
    indices ← Np.concatenate indices;
    Py.assert (Py.len indices =? experience_size);;
    num_minibatches ← Py.floordiv experience_size (batch_size (cfg s));
    minibatches ← Np.split indices num_minibatches;
    Ok (fmap (M:=list) Some minibatches, s).

Definition _get_checkpoint_dict (s : Learner) : Checkpoint :=
  {| ck_train_step := train_step s;
     ck_env_steps := env_steps s;
     ck_kl_coeff := kl_coeff s;
     ck_model := actor_critic s;
     ck_optimizer := optimizer s |}.

Definition _save (s : Learner) : outcome Learner :=
  let checkpoint := _get_checkpoint_dict s in
  let d := checkpoint_dir (fs s) (policy_id s) in
  let tmp_filepath := "checkpoint_tmp" in
  let filepath := checkpoint_name (train_step s) (env_steps s) in
  d ← torch_save checkpoint tmp_filepath d;
  d ← os_rename tmp_filepath filepath d;
  d ← remove_old (keep_checkpoints (cfg s)) d;
  Ok (set_fs (<[policy_id s := d]> (fs s)) s).

Definition _maybe_save (s : Learner) : outcome Learner :=
  let save_every := save_rate_decay_at (train_step s) in
  if bool_decide (save_every ≤ Qc_of_Z (train_step s - last_saved s))%Qc
     || should_save_model s
  then
    s ← _save s;
    let s := set_model_saved_event true s in
    let s := set_should_save_model false s in
    Ok (set_last_saved (train_step s) s)
  else Ok s.

Definition _after_optimizer_step (s : Learner) : outcome Learner :=
  _maybe_save (set_train_step (train_step s + 1) s).

(** One pass of the minibatch loop of [_train]. *)
Definition train_minibatch (buffer : Buffer) (indices : option (list Z))
    (s : Learner) : outcome (Qc * Learner) :=
  '(parameters, opt, kl_old_mean) ←
    optimizer_step (actor_critic s) (optimizer s) (kl_coeff s) buffer indices;
  s ← _after_optimizer_step (set_optimizer opt (set_actor_critic parameters s));
  Ok (kl_old_mean, s).

(** [for batch_num in range(len(minibatches))] *)
Fixpoint train_minibatches (buffer : Buffer) (minibatches : list (option (list Z)))
    (kl_old_mean : Qc) (s : Learner) : outcome (Qc * Learner) :=
  match minibatches with
  | [] => Ok (kl_old_mean, s)
  | indices :: minibatches' =>
      '(kl_old_mean, s) ← train_minibatch buffer indices s;
      train_minibatches buffer minibatches' kl_old_mean s
  end.

(** [for epoch in range(self.cfg.ppo_epochs)], [epochs] passes to go *)
Fixpoint train_epochs (epochs : nat) (buffer : Buffer) (experience_size : Z)
    (kl_old_mean : Qc) (s : Learner) : outcome (Qc * Learner) :=
  match epochs with
  | O => Ok (kl_old_mean, s)
  | S epochs' =>
      '(minibatches, s) ← _get_minibatches experience_size s;
      '(kl_old_mean, s) ← train_minibatches buffer minibatches kl_old_mean s;
      train_epochs epochs' buffer experience_size kl_old_mean s
  end.

(** The end of [_train]
    <<
      if kl_old_mean > self.cfg.target_kl:
          self.kl_coeff *= 1.5
      elif kl_old_mean < self.cfg.target_kl / 2:
          self.kl_coeff /= 1.5
      self.kl_coeff = max(self.kl_coeff, 1e-6)
    >> *)
Definition adjust_kl_coeff (kl_old_mean : Qc) (s : Learner) : Learner :=
  let s :=
    if decide (target_kl (cfg s) < kl_old_mean)%Qc
    then set_kl_coeff (kl_coeff s * Q2Qc (3 # 2))%Qc s
    else if decide (kl_old_mean < target_kl (cfg s) / Q2Qc 2)%Qc
    then set_kl_coeff (kl_coeff s / Q2Qc (3 # 2))%Qc s
    else s in
  set_kl_coeff (Py.max (kl_coeff s) (Q2Qc (1 # 1000000))) s.

(** [_train]: the loops, the optimiser steps and the KL adaptation; the
    summaries it returns are left out. *)
Definition _train (buffer : Buffer) (experience_size : Z) (s : Learner)
    : outcome Learner :=
  let kl_old_mean := 0%Qc in
  '(kl_old_mean, s) ←
    train_epochs (Z.to_nat (ppo_epochs (cfg s))) buffer experience_size kl_old_mean s;
  Ok (adjust_kl_coeff kl_old_mean s).

Definition load_checkpoint (checkpoints : list string) (d : dir)
    : outcome (option Checkpoint) :=
  if Py.len checkpoints <=? 0 then Ok None
  else
    latest_checkpoint ← Py.index checkpoints (-1);
    checkpoint_dict ← torch_load d latest_checkpoint;
    Ok (Some checkpoint_dict).

Definition _load_state (checkpoint_dict : Checkpoint) (load_progress : bool)
    (s : Learner) : Learner :=
  let s :=
    if load_progress
    then set_env_steps (ck_env_steps checkpoint_dict)
           (set_train_step (ck_train_step checkpoint_dict) s)
    else s in
  let s := set_kl_coeff (ck_kl_coeff checkpoint_dict) s in
  let s := set_actor_critic (ck_model checkpoint_dict) s in
  set_optimizer (ck_optimizer checkpoint_dict) s.

Definition load_from_checkpoint (policy_id' : Z) (s : Learner) : outcome Learner :=
  let d := checkpoint_dir (fs s) policy_id' in
  let checkpoints := get_checkpoints d in
  checkpoint_dict ← load_checkpoint checkpoints d;
  match checkpoint_dict with
  | None => Ok s
  | Some checkpoint_dict =>
      let load_progress := bool_decide (policy_id' = policy_id s) in
      Ok (_load_state checkpoint_dict load_progress s)
  end.

Definition _update_pbt (s : Learner) : outcome Learner :=
  s ← match load_policy_id s with
      | Some load_policy_id =>
          Py.assert (with_pbt (cfg s));;
          s ← load_from_checkpoint load_policy_id s;
          Ok (set_load_policy_id None s)
      | None => Ok s
      end;
  match new_cfg s with
  | Some update =>
      let s := set_cfg (update (cfg s)) s in
      let s :=
        set_optimizer
          (MkOptimizer (learning_rate (cfg s))
             (adam_beta1 (cfg s), adam_beta2 (cfg s))
             (opt_state (optimizer s))) s in
      Ok (set_new_cfg None s)
  | None => Ok s
  end.

Definition _discarding_rate (s : Learner) : outcome Py.num :=
  if Py.len (discarded_experience_over_time s) <=? 0 then Ok (Py.Int 0)
  else
    first ← Py.index (discarded_experience_over_time s) 0;
    last ← Py.index (discarded_experience_over_time s) (-1);
    let delta_rollouts := last.2 - first.2 in
    let delta_time := (last.1 - first.1)%Qc in
    Py.truediv delta_rollouts delta_time.

(** [_experience_collection_rate_stats] at the time [now] *)
Definition _experience_collection_rate_stats (now : Qc) (s : Learner) : Learner :=
  if decide (1 < now - discarded_experience_timer s)%Qc
  then
    let s := set_discarded_experience_timer now s in
    set_discarded_experience_over_time
      (deque_append 30 (now, num_discarded_rollouts s)
         (discarded_experience_over_time s)) s
  else s.

(** [initialize]: the model, the optimiser, the learner's own latest
    checkpoint and the first broadcast. *)
Definition initialize (s : Learner) : outcome Learner :=
  let s := set_actor_critic (ActorCritic (cfg s)) s in
  let s :=
    set_optimizer
      (MkOptimizer (learning_rate (cfg s)) (adam_beta1 (cfg s), adam_beta2 (cfg s)) ∅) s in
  s ← load_from_checkpoint (policy_id s) s;
  discarding_rate ← _discarding_rate s;
  Ok (_broadcast_weights discarding_rate s).

(** [_process_training_data]; the report it puts on the report queue
    is left out. *)
Definition _process_training_data (data : Buffer * Z * Z) (s : Learner)
    : outcome Learner :=
  let '(buffer, samples, env_steps') := data in
  let s := set_env_steps (env_steps s + env_steps') s in
  let experience_size := Py.len (b_rewards buffer) in
  discarding_rate ← _discarding_rate s;
  if with_training s then
    s ← _update_pbt s;
    s ← _train buffer experience_size s;
    Ok (_broadcast_weights discarding_rate s)
  else Ok s.

Definition _init_rollout_tensors (data : InitTensors) (s : Learner) : outcome Learner :=
  Py.assert (bool_decide (policy_id s = it_policy_id data));;
  s ← for_each
        (λ '(env_idx, agent_idx, rollout_data) s,
           let tensor_dict_key :=
             (it_worker_idx data, it_split_idx data, env_idx, agent_idx,
              it_traj_buffer_idx data) in
           Py.assert (bool_decide (rollout_tensors s !! tensor_dict_key = None));;
           Ok (set_rollout_tensors
                 (<[tensor_dict_key := rollout_data]> (rollout_tensors s)) s))
        (it_tensors data) s;
  Ok (set_traj_buffer_ready
        (<[(it_worker_idx data, it_split_idx data) := it_is_ready_tensor data]>
           (traj_buffer_ready s)) s).

Definition _extract_rollouts (data : TrainData) (s : Learner) : outcome (list Rollout) :=
  rollouts ← mapM_outcome
    (λ '(env_idx, agent_idx, length, env_steps),
       let tensor_dict_key :=
         (td_worker_idx data, td_split_idx data, env_idx, agent_idx,
          td_traj_buffer_idx data) in
       match rollout_tensors s !! tensor_dict_key with
       | None => Raise KeyError
       | Some tensors =>
           Ok {| r_worker_idx := td_worker_idx data;
                 r_split_idx := td_split_idx data;
                 r_env_idx := env_idx;
                 r_agent_idx := agent_idx;
                 r_traj_buffer_idx := td_traj_buffer_idx data;
                 r_length := length;
                 r_env_steps := env_steps;
                 r_t := tensors |}
       end)
    (td_rollouts data);
  if with_training s then Ok rollouts else Ok [].

Definition _process_pbt_task (pbt_task : PbtTask) (s : Learner) : outcome Learner :=
  match pbt_task with
  | SAVE_MODEL policy_id' =>
      Py.assert (bool_decide (policy_id' = policy_id s));;
      Ok (set_should_save_model true s)
  | LOAD_MODEL policy_id' new_policy_id =>
      Py.assert (bool_decide (policy_id' = policy_id s));;
      Ok (set_load_policy_id (Some new_policy_id) s)
  | UPDATE_CFG policy_id' new_cfg =>
      Py.assert (bool_decide (policy_id' = policy_id s));;
      Ok (set_new_cfg (Some new_cfg) s)
  end.

Definition _terminate (s : Learner) : Learner := set_terminate true s.

(** *** The two threads of the learner process

    [_run] on the main thread and [_train_loop] on the training thread
    share the learner object.  A run of the process is a sequence of
    events, each a piece of one of the two loops that runs to its end
    before the next one starts. *)
Inductive event : Type :=
  | MainTask (t : Task)
    (** [_run] takes [t] off the task queue. *)
  | MainPass (now : Qc)
    (** The rest of a pass of the loop of [_run], at the time [now]:
        the wait for room on the experience queue, [_process_rollouts]
        and [_experience_collection_rate_stats]. *)
  | TrainerPass
    (** A pass of the loop of [_train_loop]: a batch is taken off the
        experience queue and trained on. *).

(** The state of the process: the rollouts pending in [_run] and the
    learner object. *)
Definition handle_task (t : Task) (rollouts : list Rollout) (s : Learner)
    : outcome (list Rollout * Learner) :=
  match t with
  | INIT => Ok (rollouts, s)
  | TERMINATE => Ok (rollouts, _terminate s)
  | INIT_TENSORS data => s ← _init_rollout_tensors data s; Ok (rollouts, s)
  | TRAIN data => extracted ← _extract_rollouts data s; Ok (rollouts ++ extracted, s)
  | PBT data => s ← _process_pbt_task data s; Ok (rollouts, s)
  | EMPTY => Ok (rollouts, s)
  end.

Definition step (e : event) (st : list Rollout * Learner)
    : outcome (list Rollout * Learner) :=
  let '(rollouts, s) := st in
  match e with
  | MainTask t => handle_task t rollouts s
  | MainPass now =>
      if 1 <? Py.len (experience_buffer_queue s) then Ok (rollouts, s)
      else
        '(rollouts, work_done, s) ← _process_rollouts rollouts s;
        Ok (rollouts, _experience_collection_rate_stats now s)
  | TrainerPass =>
      if terminate s then Ok (rollouts, s)
      else
        match experience_buffer_queue s with
        | [] => Ok (rollouts, s)
        | data :: queue =>
            s ← _process_training_data data (set_experience_buffer_queue queue s);
            Ok (rollouts, s)
        end
  end.

(** The process from its start: [__init__], [initialize] on the
    training thread, then the events. *)
Definition learner_process (policy_id : Z) (cfg : Config) (queues : nat)
    (fs : gmap Z dir) (events : list event) : outcome (list Rollout * Learner) :=
  s ← initialize (new_learner policy_id cfg queues fs);
  for_each step events ([], s).

(** *** Predicates of the statements below *)

(** What the optimiser loop of [_train] leaves alone. *)
Definition same_kl (s s' : Learner) : Prop :=
  cfg s' = cfg s ∧ kl_coeff s' = kl_coeff s ∧
  policy_id s' = policy_id s ∧
  load_policy_id s' = load_policy_id s ∧
  new_cfg s' = new_cfg s ∧
  policy_worker_queues s' = policy_worker_queues s.

(** The test of the scan in [_process_rollouts]: the minimum policy
    version of the rollout lags [policy_version] by [max_policy_lag]
    or more. *)
Definition stale (c : Config) (policy_version : Z) (r : Rollout) : Prop :=
  ∃ m, tensor_min (t_policy_version (r_t r)) = Ok m ∧
       max_policy_lag c ≤ policy_version - m.

Definition within_lag (c : Config) (policy_version : Z) (r : Rollout) : Prop :=
  ∃ m, tensor_min (t_policy_version (r_t r)) = Ok m ∧
       policy_version - m < max_policy_lag c.

(** The readiness bit of the slot of a rollout, read with the indexing
    of [_mark_rollout_buffer_free]. *)
Definition readiness (s : Learner) (r : Rollout) : outcome Z :=
  match traj_buffer_ready s !! (r_worker_idx r, r_split_idx r) with
  | None => Raise KeyError
  | Some ready => tensor_get ready (r_env_idx r) (r_agent_idx r) (r_traj_buffer_idx r)
  end.

(** A rollout that [_process_rollouts] can handle: its trajectory has
    a policy version, and its slot is in a readiness bitmap that
    [_init_rollout_tensors] has registered. *)
Definition registered (s : Learner) (r : Rollout) : Prop :=
  t_policy_version (r_t r) ≠ [] ∧ ∃ bit, readiness s r = Ok bit.

(** The buffer that [_prepare_train_buffer] makes of a macro-batch *)
Definition buffer_of (rollouts : list Rollout) : Buffer :=
  MkBuffer (concat (t_policy_version <$> (r_t <$> rollouts)))
           (concat (t_rewards <$> (r_t <$> rollouts))).

(** The minimum policy versions do not decrease along the list. *)
Definition versions_ascending (rollouts : list Rollout) : Prop :=
  ∀ (i j : nat) ri rj mi mj,
    (i ≤ j)%nat → rollouts !! i = Some ri → rollouts !! j = Some rj →
    tensor_min (t_policy_version (r_t ri)) = Ok mi →
    tensor_min (t_policy_version (r_t rj)) = Ok mj →
    mi ≤ mj.

(** *** Inputs of the examples *)

(** A configuration with macro-batches of [macro_batch] samples, split
    into minibatches of [batch_size]; rollouts of [rollout] steps. *)
Definition example_cfg (macro_batch rollout recurrence batch_size : Z) : Config :=
  {| macro_batch := macro_batch;
     rollout := rollout;
     recurrence := recurrence;
     batch_size := batch_size;
     max_policy_lag := 5;
     ppo_epochs := 1;
     target_kl := Q2Qc (1 # 100);
     keep_checkpoints := 3;
     initial_kl_coeff := Q2Qc (1 # 5);
     with_pbt := true;
     learning_rate := Q2Qc (1 # 10000);
     adam_beta1 := Q2Qc (9 # 10);
     adam_beta2 := Q2Qc (999 # 1000) |}.

(** A rollout of one step from environment [env_idx], collected with
    the policy version [version]. *)
Definition example_rollout (env_idx version : Z) : Rollout :=
  {| r_worker_idx := 0;
     r_split_idx := 0;
     r_env_idx := env_idx;
     r_agent_idx := 0;
     r_traj_buffer_idx := 0;
     r_length := 1;
     r_env_steps := 1;
     r_t := MkTrajectory [version] [1%Qc] |}.

(** A learner for policy [0] at [train_step = 10], with the readiness
    bitmap of eight environments registered. *)
Definition example_learner (c : Config) : Learner :=
  set_traj_buffer_ready {[ (0, 0) := MkTensor3 (8, 1, 1) ∅ ]}
    (set_train_step 10 (new_learner 0 c 1 ∅)).

(** The permutation that leaves the array as it is, an optimiser step
    that changes nothing and reports a KL divergence of [kl], a save
    rate of 5000 steps, a model without parameters. *)
Definition identity_permutation : nat → list Z → list Z := λ _ l, l.

Definition idle_optimizer_step (kl : Qc)
    : state_dict → Optimizer → Qc → Buffer → option (list Z) →
      outcome (state_dict * Optimizer * Qc) :=
  λ parameters opt _ _ _, Ok (parameters, opt, kl).

Definition constant_save_rate : Z → Qc := λ _, Qc_of_Z 5000.

Definition empty_model : Config → state_dict := λ _, ∅.

(** A minibatch made of windows of [recurrence] consecutive indices,
    each starting at a multiple of [recurrence]. *)
Definition windowed (recurrence : Z) (minibatch : list Z) : Prop :=
  ∃ starts : list Z,
    minibatch = concat ((λ i, seqZ i recurrence) <$> starts) ∧
    Forall (λ i, i mod recurrence = 0) starts.

(** The checkpoint directory of the learner's own policy, and what it is
    after the write and the rename of [_save], before old checkpoints
    are removed. *)
Definition own_dir (s : Learner) : dir := checkpoint_dir (fs s) (policy_id s).

Definition written_dir (s : Learner) : dir :=
  <[checkpoint_name (train_step s) (env_steps s) := File (_get_checkpoint_dict s)]>
    (delete "checkpoint_tmp" (own_dir s)).

(** A save at the given [train_step] and [env_steps], and a sequence of
    such saves. *)
Definition save_at (step : Z * Z) (s : Learner) : outcome Learner :=
  _save (set_env_steps step.2 (set_train_step step.1 s)).

Definition saves (steps : list (Z * Z)) (s : Learner) : outcome Learner :=
  for_each save_at steps s.

(** Every entry of the directory is a file. *)
Definition only_files (d : dir) : Prop :=
  ∀ name e, d !! name = Some e → ∃ ck, e = File ck.

(** The directory holds the checkpoints of the given saves and nothing
    else. *)
Definition holds_saves (d : dir) (steps : list (Z * Z)) : Prop :=
  only_files d ∧
  (size d ≤ length steps)%nat ∧
  ∀ name, is_Some (d !! name) ↔ ∃ step, step ∈ steps ∧ name = checkpoint_name step.1 step.2.

(** The number of minibatches of an epoch *)
Definition minibatch_count (c : Config) (experience_size : Z) : Z :=
  if macro_batch c =? batch_size c then 1 else experience_size / batch_size c.

(** The policy versions of the weight updates put on a queue *)
Definition versions (queue : list WeightUpdate) : list Z :=
  (λ weight_update : WeightUpdate, weight_update.1.1) <$> queue.

(** A change of configuration that keeps at least one epoch. *)
Definition keeps_epochs (update : Config → Config) : Prop :=
  ∀ c, 1 ≤ ppo_epochs c → 1 ≤ ppo_epochs (update c).

(** The events of a run in which no PBT message asks the learner of
    policy [policy_id] to load its own policy or to train for less than
    one epoch. *)
Definition plain_event (policy_id : Z) (e : event) : Prop :=
  match e with
  | MainTask (PBT (LOAD_MODEL _ new_policy_id)) => new_policy_id ≠ policy_id
  | MainTask (PBT (UPDATE_CFG _ update)) => keeps_epochs update
  | _ => True
  end.

(** What holds between the events of such a run. *)
Definition run_invariant (policy_id' : Z) (s : Learner) : Prop :=
  policy_id s = policy_id' ∧
  1 ≤ ppo_epochs (cfg s) ∧
  load_policy_id s ≠ Some policy_id' ∧
  (∀ update, new_cfg s = Some update → keeps_epochs update) ∧
  Forall (λ queue, StronglySorted Z.lt (versions queue) ∧
                   Forall (λ v, v ≤ train_step s) (versions queue))
         (policy_worker_queues s).

(** What the main thread leaves alone, apart from the PBT latches. *)
Definition same_control (s s' : Learner) : Prop :=
  train_step s' = train_step s ∧
  policy_id s' = policy_id s ∧
  cfg s' = cfg s ∧
  load_policy_id s' = load_policy_id s ∧
  new_cfg s' = new_cfg s ∧
  policy_worker_queues s' = policy_worker_queues s.

(** The events of the examples: the registration of the trajectory
    buffers of three environments, and the passage of one macro-batch of
    three rollouts through the two threads. *)
Definition example_registration : event :=
  MainTask (INIT_TENSORS
    {| it_policy_id := 0;
       it_worker_idx := 0;
       it_split_idx := 0;
       it_traj_buffer_idx := 0;
       it_tensors := [(0, 0, MkTrajectory [0] [1%Qc]);
                      (1, 0, MkTrajectory [0] [1%Qc]);
                      (2, 0, MkTrajectory [0] [1%Qc])];
       it_is_ready_tensor := MkTensor3 (8, 1, 1) ∅ |}).

Definition example_batch : list event :=
  [MainTask (TRAIN {| td_worker_idx := 0;
                      td_split_idx := 0;
                      td_traj_buffer_idx := 0;
                      td_rollouts := [(0, 0, 1, 1); (1, 0, 1, 1); (2, 0, 1, 1)] |});
   MainPass 1%Qc;
   TrainerPass].

(** The configuration of the examples, with no epoch. *)
Definition example_cfg_no_epoch : Config :=
  {| macro_batch := 3;
     rollout := 1;
     recurrence := 1;
     batch_size := 3;
     max_policy_lag := 5;
     ppo_epochs := 0;
     target_kl := Q2Qc (1 # 100);
     keep_checkpoints := 3;
     initial_kl_coeff := Q2Qc (1 # 5);
     with_pbt := true;
     learning_rate := Q2Qc (1 # 10000);
     adam_beta1 := Q2Qc (9 # 10);
     adam_beta2 := Q2Qc (999 # 1000) |}.

(** *** The rest of the learner: frames of the two threads *)

(** What [_train] on the training thread leaves alone: everything but
    the model, the optimiser, [train_step], [kl_coeff], the bookkeeping
    of the saves, the count of permutations drawn and the learner's own
    checkpoint directory. *)
Definition training_frame (s s' : Learner) : Prop :=
  policy_id s' = policy_id s ∧ cfg s' = cfg s ∧
  load_policy_id s' = load_policy_id s ∧ new_cfg s' = new_cfg s ∧
  terminate s' = terminate s ∧
  rollout_tensors s' = rollout_tensors s ∧
  traj_buffer_ready s' = traj_buffer_ready s ∧
  experience_buffer_queue s' = experience_buffer_queue s ∧
  with_training s' = with_training s ∧ env_steps s' = env_steps s ∧
  discarded_experience_over_time s' = discarded_experience_over_time s ∧
  discarded_experience_timer s' = discarded_experience_timer s ∧
  num_discarded_rollouts s' = num_discarded_rollouts s ∧
  policy_worker_queues s' = policy_worker_queues s ∧
  ∀ p, p ≠ policy_id s → fs s' !! p = fs s !! p.

(** What the loop of [_run] on the main thread leaves alone: the model,
    the optimiser, the counters of training, [kl_coeff], what has been
    broadcast and the checkpoints. *)
Definition main_frame (s s' : Learner) : Prop :=
  policy_id s' = policy_id s ∧ cfg s' = cfg s ∧
  actor_critic s' = actor_critic s ∧ optimizer s' = optimizer s ∧
  with_training s' = with_training s ∧
  train_step s' = train_step s ∧ env_steps s' = env_steps s ∧
  last_saved s' = last_saved s ∧ kl_coeff s' = kl_coeff s ∧
  model_saved_event s' = model_saved_event s ∧
  policy_worker_queues s' = policy_worker_queues s ∧
  np_random_draws s' = np_random_draws s ∧
  fs s' = fs s.

(** What a pass of [_train_loop] leaves alone, apart from taking its
    batch off the experience queue: what the main thread owns, and the
    number of policy worker queues. *)
Definition trainer_frame (s s' : Learner) : Prop :=
  policy_id s' = policy_id s ∧ terminate s' = terminate s ∧
  rollout_tensors s' = rollout_tensors s ∧
  traj_buffer_ready s' = traj_buffer_ready s ∧
  experience_buffer_queue s' = experience_buffer_queue s ∧
  with_training s' = with_training s ∧
  discarded_experience_over_time s' = discarded_experience_over_time s ∧
  discarded_experience_timer s' = discarded_experience_timer s ∧
  num_discarded_rollouts s' = num_discarded_rollouts s ∧
  length (policy_worker_queues s') = length (policy_worker_queues s).

(** The sum of a count over rollouts, as [_process_macro_batch] adds up
    [samples] and [env_steps]. *)
Definition total (count : Rollout → Z) (rollouts : list Rollout) : Z :=
  foldr Z.add 0 (count <$> rollouts).

(** *** The window of statistics on discarded rollouts *)

(** The samples of a window are in order: taken more than a second
    apart, with counts of discarded rollouts that do not decrease. *)
Definition window_ordered (window : list (Qc * Z)) : Prop :=
  ∀ (i j : nat) a b,
    (i < j)%nat → window !! i = Some a → window !! j = Some b →
    (a.1 + 1 < b.1)%Qc ∧ a.2 ≤ b.2.

(** The window of the learner is in order and holds at most thirty
    samples; the last of them was taken at [discarded_experience_timer],
    and [num_discarded_rollouts] has not fallen below its count. *)
Definition stats_invariant (s : Learner) : Prop :=
  window_ordered (discarded_experience_over_time s) ∧
  (length (discarded_experience_over_time s) ≤ 30)%nat ∧
  ∀ a, last (discarded_experience_over_time s) = Some a →
       a.1 = discarded_experience_timer s ∧ a.2 ≤ num_discarded_rollouts s.

(** *** Minibatches and losses *)


(** [torch.clamp(x, min, max)]: every element is raised to [min], then
    lowered to [max]. *)
Definition torch_clamp (x : list Qc) (lo hi : Qc) : list Qc :=
  (λ v, let v := if decide (v < lo)%Qc then lo else v in
        if decide (hi < v)%Qc then hi else v) <$> x.

(** [torch.max(a, b)] of two tensors, element by element *)
Definition torch_max : list Qc → list Qc → outcome (list Qc) :=
  Torch.zip_broadcast (λ a b, if decide (a < b)%Qc then b else a).

(** [x.pow(2)] *)
Definition torch_pow2 (x : list Qc) : list Qc := (λ v, v * v)%Qc <$> x.

Definition _policy_loss (ratio adv : list Qc) (clip_ratio_low clip_ratio_high : Qc)
    : outcome Qc :=
  let clipped_ratio := torch_clamp ratio clip_ratio_low clip_ratio_high in
  loss_unclipped ← Torch.mul ratio adv;
  loss_clipped ← Torch.mul clipped_ratio adv;
  loss ← Torch.min_ loss_unclipped loss_clipped;
  let loss := (- Torch.mean loss)%Qc in
  Ok loss.

(** [_value_loss]; [value_loss_coeff] is [self.cfg.value_loss_coeff]. *)
Definition _value_loss (value_loss_coeff : Qc) (new_values old_values target : list Qc)
    (clip_value : Qc) : outcome Qc :=
  x ← Torch.sub new_values old_values;
  value_clipped ← Torch.add old_values (torch_clamp x (- clip_value) clip_value);
  x ← Torch.sub new_values target;
  let value_original_loss := torch_pow2 x in
  x ← Torch.sub value_clipped target;
  let value_clipped_loss := torch_pow2 x in
  value_loss ← torch_max value_original_loss value_clipped_loss;
  let value_loss := Torch.mean value_loss in
  let value_loss := (value_loss * value_loss_coeff)%Qc in
  Ok value_loss.

(** The shapes of the state of the backward loop of [vtrace]: one entry
    per sub-trajectory in the running values, one per step of the
    minibatch in the targets and the advantages. *)
Definition vtrace_shapes (num_trajectories batch : nat) (l : VtraceLoop) : Prop :=
  length (l_next_values l) = num_trajectories ∧
  length (l_next_vs l) = num_trajectories ∧
  length (l_vs l) = batch ∧
  length (l_adv l) = batch.

(** *** More inputs of the examples *)

(** The trajectory buffers of three environments of worker [0], split
    [0], and a [TRAIN] task that announces one rollout of each. *)
Definition example_init_tensors : InitTensors :=
  {| it_policy_id := 0;
     it_worker_idx := 0;
     it_split_idx := 0;
     it_traj_buffer_idx := 0;
     it_tensors := [(0, 0, MkTrajectory [0] [1%Qc]);
                    (1, 0, MkTrajectory [0] [1%Qc]);
                    (2, 0, MkTrajectory [0] [1%Qc])];
     it_is_ready_tensor := MkTensor3 (8, 1, 1) ∅ |}.

Definition example_train_data : TrainData :=
  {| td_worker_idx := 0;
     td_split_idx := 0;
     td_traj_buffer_idx := 0;
     td_rollouts := [(0, 0, 1, 1); (1, 0, 1, 1); (2, 0, 1, 1)] |}.

(** The main thread's part of the passage of a macro-batch: the
    rollouts are announced and batched. *)
Definition example_collect : list event :=
  [MainTask (INIT_TENSORS example_init_tensors);
   MainTask (TRAIN example_train_data);
   MainPass 1%Qc].

(** A checkpoint of another policy. *)
Definition example_checkpoint : Checkpoint :=
  MkCheckpoint 80 8000 (Q2Qc (3 # 10)) {[ "w" := [1%Qc] ]}
    (MkOptimizer (Q2Qc (1 # 1000)) (0%Qc, 0%Qc) ∅).

(** A batch of three samples. *)
Definition example_buffer : Buffer := MkBuffer [0; 0; 0] [1%Qc; 1%Qc; 1%Qc].

(** * Properties *)

(** ** Reasoning about outcomes *)

Lemma bind_Ok {A B} (m : outcome A) (f : A → outcome B) (b : B) :
  m ≫= f = Ok b ↔ ∃ a, m = Ok a ∧ f a = Ok b.
Proof.
  destruct m as [a| |]; cbn; split.
  - eauto.
  - by intros (a' & [= ->] & ?).
  - done.
  - by intros (? & ? & ?).
  - done.
  - by intros (? & ? & ?).
Qed.

Lemma ret_bind {A B} (a : A) (f : A → outcome B) : Ok a ≫= f = f a.
Proof. done. Qed.

Lemma assert_Ok (b : bool) (u : unit) : Py.assert b = Ok u ↔ b = true.
Proof. destruct b, u; cbn; split; done. Qed.

(** Splits a hypothesis [x ← m; k = Ok b] into [m = Ok a] and
    [k a = Ok b], and an assertion that passed into its condition. *)
Ltac inv_ok H :=
  lazymatch type of H with
  | mbind _ (Py.assert _) = Ok _ =>
      let u := fresh "u" in
      let Ha := fresh "Hassert" in
      apply bind_Ok in H as (u & Ha & H);
      apply assert_Ok in Ha
  | mbind _ _ = Ok _ =>
      let a := fresh "a" in
      let E := fresh "E" in
      apply bind_Ok in H as (a & E & H)
  end.

Lemma for_each_app {A S} (f : A → S → outcome S) (l1 l2 : list A) (s : S) :
  for_each f (l1 ++ l2) s = (s' ← for_each f l1 s; for_each f l2 s').
Proof.
  revert s; induction l1 as [|x l1 IH]; intros s; cbn; [done|].
  destruct (f x s) as [s'| |]; cbn; auto.
Qed.

(** An invariant kept by every step is kept by the loop. *)
Lemma for_each_invariant {A S} (f : A → S → outcome S) (P : S → Prop) (Q : A → Prop)
    (l : list A) (s s' : S) :
  (∀ x s s', Q x → P s → f x s = Ok s' → P s') →
  Forall Q l → P s → for_each f l s = Ok s' → P s'.
Proof.
  intros Hstep Hl; revert s; induction Hl as [|x l Hx Hl IH]; intros s Hs H; cbn in H.
  - by simplify_eq.
  - inv_ok H. eauto.
Qed.

Lemma mod_Ok (a b : Z) : b ≠ 0 → Py.mod_ a b = Ok (a mod b).
Proof. intros Hb. unfold Py.mod_. by destruct (Z.eqb_spec b 0). Qed.

Lemma floordiv_Ok (a b : Z) : b ≠ 0 → Py.floordiv a b = Ok (a / b).
Proof. intros Hb. unfold Py.floordiv. by destruct (Z.eqb_spec b 0). Qed.

(** ** The discarding rate ([C10]) *)

Lemma index_singleton {A} (x : A) (i : Z) :
  i = 0 ∨ i = -1 → Py.index [x] i = Ok x.
Proof. by intros [-> | ->]. Qed.

Lemma truediv_not_int (a : Z) (b : Qc) (z : Z) : Py.truediv a b ≠ Ok (Py.Int z).
Proof. unfold Py.truediv. by case_decide. Qed.

(** [C10] [_discarding_rate] returns the integer [0] only for an empty
    window; with one sample in the window the time difference is [0]
    and the division raises [ZeroDivisionError], as it does after the
    first sample that [_experience_collection_rate_stats] records. *)
Theorem discarding_rate_single_sample (s : Learner) :
  (_discarding_rate s = Ok (Py.Int 0) ↔ discarded_experience_over_time s = []) ∧
  (∀ sample, discarded_experience_over_time s = [sample] →
     _discarding_rate s = Raise ZeroDivisionError) ∧
  (∀ now, discarded_experience_over_time s = [] →
     (1 < now - discarded_experience_timer s)%Qc →
     discarded_experience_over_time (_experience_collection_rate_stats now s)
       = [(now, num_discarded_rollouts s)] ∧
     _discarding_rate (_experience_collection_rate_stats now s)
       = Raise ZeroDivisionError).
Proof.
  assert (Hone : ∀ s' sample, discarded_experience_over_time s' = [sample] →
            _discarding_rate s' = Raise ZeroDivisionError).
  { intros s' [t n] Hw. unfold _discarding_rate. rewrite Hw.
    change (Py.len [(t, n)] <=? 0) with false. cbv iota.
    rewrite (index_singleton (t, n) 0), (index_singleton (t, n) (-1)) by auto.
    cbn. unfold Py.truediv. rewrite decide_True; [done|]. ring. }
  split; [|split].
  - unfold _discarding_rate.
    destruct (discarded_experience_over_time s) as [|x w]; [done|].
    split; [|done]. intros H.
    change (Py.len (x :: w) <=? 0) with false in H.
    destruct (Py.index (x :: w) 0) as [a| |]; [|done..].
    destruct (Py.index (x :: w) (-1)) as [b| |]; [|done..].
    cbn in H. by apply truediv_not_int in H.
  - apply Hone.
  - intros now Hw Hnow.
    assert (discarded_experience_over_time (_experience_collection_rate_stats now s)
            = [(now, num_discarded_rollouts s)]) as Hw'.
    { unfold _experience_collection_rate_stats. rewrite decide_True by done.
      cbn. by rewrite Hw. }
    split; [done|]. by apply (Hone _ _ Hw').
Qed.

(** ** The KL coefficient ([C4]) *)

Lemma same_kl_refl s : same_kl s s.
Proof. done. Qed.

Lemma same_kl_trans s1 s2 s3 : same_kl s1 s2 → same_kl s2 s3 → same_kl s1 s3.
Proof. intros (?&?&?&?&?&?) (?&?&?&?&?&?). split_and!; congruence. Qed.

Lemma save_same_kl s s' : _save s = Ok s' → same_kl s s'.
Proof. unfold _save. intros H. repeat inv_ok H. by simplify_eq. Qed.

Lemma maybe_save_same_kl s s' : _maybe_save s = Ok s' → same_kl s s'.
Proof.
  unfold _maybe_save. intros H.
  destruct (_ || _); [|by simplify_eq].
  inv_ok H. simplify_eq. by apply save_same_kl in E.
Qed.

Lemma after_optimizer_step_same_kl s s' :
  _after_optimizer_step s = Ok s' → same_kl s s'.
Proof. intros H. by apply maybe_save_same_kl in H. Qed.

Lemma get_minibatches_same_kl n s mbs s' :
  _get_minibatches n s = Ok (mbs, s') → same_kl s s'.
Proof.
  unfold _get_minibatches. intros H.
  repeat inv_ok H. destruct (macro_batch (cfg s) =? batch_size (cfg s)).
  - by simplify_eq.
  - repeat inv_ok H. by simplify_eq.
Qed.

Lemma train_minibatch_same_kl buffer indices s kl s' :
  train_minibatch buffer indices s = Ok (kl, s') → same_kl s s'.
Proof.
  unfold train_minibatch. intros H.
  inv_ok H. destruct a as [[parameters opt] kl']. inv_ok H. simplify_eq.
  by apply after_optimizer_step_same_kl in E0.
Qed.

Lemma train_minibatches_same_kl buffer mbs kl0 s kl s' :
  train_minibatches buffer mbs kl0 s = Ok (kl, s') → same_kl s s'.
Proof.
  revert kl0 s; induction mbs as [|i mbs IH]; intros kl0 s H; cbn in H.
  - by simplify_eq.
  - inv_ok H. destruct a as [kl1 s1].
    eapply same_kl_trans; [by eapply train_minibatch_same_kl|by eapply IH].
Qed.

Lemma train_epochs_same_kl epochs buffer n kl0 s kl s' :
  train_epochs epochs buffer n kl0 s = Ok (kl, s') → same_kl s s'.
Proof.
  revert kl0 s; induction epochs as [|e IH]; intros kl0 s H; cbn in H.
  - by simplify_eq.
  - inv_ok H. destruct a as [mbs s1]. inv_ok H. destruct a as [kl1 s2].
    eapply same_kl_trans; [by eapply get_minibatches_same_kl|].
    eapply same_kl_trans; [by eapply train_minibatches_same_kl|by eapply IH].
Qed.

Lemma py_max_lower (a b : Qc) : (b ≤ Py.max a b)%Qc.
Proof.
  unfold Py.max. case_decide; [done|]. by apply Qcnot_lt_le.
Qed.

Lemma py_max_spec (a b : Qc) : Py.max a b = spec_max b a.
Proof.
  unfold Py.max, spec_max. repeat case_decide; try done.
  - by destruct (Qclt_not_le a b).
  - by destruct H0; apply Qcnot_lt_le.
Qed.

(** [C4] When [_train] returns, [kl_coeff] is [max(1e-6, f(k))] for
    its value [k] on entry and the [kl_old_mean] that the last
    minibatch left ([0] when there was none), with [f] as the
    specification gives it; so it is at least [1e-6]. *)
Theorem train_kl_coeff (buffer : Buffer) (experience_size : Z) (s s' : Learner) :
  _train buffer experience_size s = Ok s' →
  ∃ kl_old_mean s1,
    train_epochs (Z.to_nat (ppo_epochs (cfg s))) buffer experience_size 0%Qc s
      = Ok (kl_old_mean, s1) ∧
    kl_coeff s'
      = spec_max (Q2Qc (1 # 1000000))
          (spec_kl_update (target_kl (cfg s)) kl_old_mean (kl_coeff s)) ∧
    (Q2Qc (1 # 1000000) ≤ kl_coeff s')%Qc.
Proof.
  unfold _train. intros H. inv_ok H. destruct a as [kl_old_mean s1].
  simplify_eq. exists kl_old_mean, s1. split; [done|].
  apply train_epochs_same_kl in E as (Hcfg & Hkl & _).
  unfold adjust_kl_coeff. rewrite Hcfg.
  assert (∀ s2, kl_coeff (set_kl_coeff (Py.max (kl_coeff s2) (Q2Qc (1 # 1000000))) s2)
                = Py.max (kl_coeff s2) (Q2Qc (1 # 1000000))) as Hset by done.
  rewrite Hset. split; [|apply py_max_lower].
  rewrite py_max_spec. f_equal. unfold spec_kl_update.
  repeat case_decide; cbn; by rewrite ?Hkl.
Qed.

(** ** Loading a checkpoint ([C7]) *)

Lemma index_last {A} (l : list A) :
  Py.index l (-1) = match last l with Some x => Ok x | None => Raise IndexError end.
Proof.
  unfold Py.index, Py.len. rewrite last_lookup.
  change (-1 <? 0) with true. cbv iota.
  destruct l as [|x l]; [done|].
  replace (-1 + Z.of_nat (length (x :: l))) with (Z.of_nat (length l))
    by (cbn [length]; lia).
  rewrite Nat2Z.id. cbn [length Nat.pred].
  destruct (Z.leb_spec 0 (Z.of_nat (length l))); [|lia].
  destruct (Z.ltb_spec (Z.of_nat (length l)) (Z.of_nat (S (length l)))); [|lia].
  cbn. by destruct ((x :: l) !! length l).
Qed.

Lemma load_checkpoint_latest (d : dir) (checkpoints : list string) (name : string)
    (ck : Checkpoint) :
  last checkpoints = Some name → d !! name = Some (File ck) →
  load_checkpoint checkpoints d = Ok (Some ck).
Proof.
  intros Hlast Hfile. unfold load_checkpoint.
  destruct checkpoints as [|c cs]; [done|].
  change (Py.len (c :: cs) <=? 0) with (Z.pos (Pos.of_succ_nat (length cs)) <=? 0).
  destruct (Z.leb_spec (Z.pos (Pos.of_succ_nat (length cs))) 0); [lia|].
  rewrite index_last, Hlast. cbn. unfold torch_load. by rewrite Hfile.
Qed.

(** [C7] A load from the latest checkpoint [ck] of policy
    [policy_id'] replaces the parameters, the optimiser state and
    [kl_coeff] by those of [ck].  When [policy_id'] is not the
    learner's own policy, [train_step] and [env_steps] stay as they
    are; when it is, they are taken from [ck] too. *)
Theorem load_from_checkpoint_progress (policy_id' : Z) (s : Learner)
    (name : string) (ck : Checkpoint) :
  last (get_checkpoints (checkpoint_dir (fs s) policy_id')) = Some name →
  checkpoint_dir (fs s) policy_id' !! name = Some (File ck) →
  ∃ s', load_from_checkpoint policy_id' s = Ok s' ∧
    actor_critic s' = ck_model ck ∧
    optimizer s' = ck_optimizer ck ∧
    kl_coeff s' = ck_kl_coeff ck ∧
    (policy_id' ≠ policy_id s →
       train_step s' = train_step s ∧ env_steps s' = env_steps s) ∧
    (policy_id' = policy_id s →
       train_step s' = ck_train_step ck ∧ env_steps s' = ck_env_steps ck).
Proof.
  intros Hlast Hfile. unfold load_from_checkpoint.
  rewrite (load_checkpoint_latest _ _ _ _ Hlast Hfile). cbn.
  eexists; split; [done|]. unfold _load_state.
  case_bool_decide; cbn; repeat split; done.
Qed.

(** ** Discarding stale rollouts ([C1], [C2]) *)

Lemma tensor_set_get (t t' : Tensor3) (i j k v : Z) :
  tensor_set t i j k v = Ok t' →
  tensor_get t' i j k = Ok v ∧
  ∀ i0 j0 k0, tensor_get t i0 j0 k0 = Ok v → tensor_get t' i0 j0 k0 = Ok v.
Proof.
  unfold tensor_set, tensor_get. destruct (shape t) as [[d0 d1] d2] eqn:Hshape.
  intros H. repeat inv_ok H. simplify_eq. cbn. split.
  - rewrite E, E0, E1. cbn. by rewrite lookup_insert_eq.
  - intros i0 j0 k0 H. repeat inv_ok H. rewrite E2, E3, E4. cbn.
    destruct (decide ((a, a0, a1) = (a2, a3, a4))) as [->|Hne].
    + by rewrite lookup_insert_eq.
    + by rewrite lookup_insert_ne.
Qed.

(** [_mark_rollout_buffer_free] writes [traj_buffer_ready] only. *)
Lemma mark_free_frame (r : Rollout) (s s' : Learner) :
  _mark_rollout_buffer_free r s = Ok s' →
  s' = set_traj_buffer_ready (traj_buffer_ready s') s.
Proof.
  unfold _mark_rollout_buffer_free. intros H.
  destruct (traj_buffer_ready s !! _); [|done].
  inv_ok H. simplify_eq. by destruct s.
Qed.

Lemma mark_free_ready (r : Rollout) (s s' : Learner) :
  _mark_rollout_buffer_free r s = Ok s' →
  readiness s' r = Ok 1 ∧
  ∀ r0, readiness s r0 = Ok 1 → readiness s' r0 = Ok 1.
Proof.
  unfold _mark_rollout_buffer_free, readiness. intros H.
  destruct (traj_buffer_ready s !! (r_worker_idx r, r_split_idx r))
    as [ready|] eqn:Hready; [|done].
  inv_ok H. simplify_eq. cbn. apply tensor_set_get in E as [Hget Hkeep]. split.
  - by rewrite lookup_insert_eq.
  - intros r0 H0.
    destruct (decide ((r_worker_idx r, r_split_idx r) = (r_worker_idx r0, r_split_idx r0)))
      as [Heq|Hne].
    + rewrite <- Heq in *. rewrite lookup_insert_eq. rewrite Hready in H0. auto.
    + by rewrite lookup_insert_ne.
Qed.

Lemma mark_all_frame (rollouts : list Rollout) (s s' : Learner) :
  for_each _mark_rollout_buffer_free rollouts s = Ok s' →
  s' = set_traj_buffer_ready (traj_buffer_ready s') s.
Proof.
  revert s; induction rollouts as [|r rollouts IH]; intros s H; cbn in H.
  - simplify_eq. by destruct s'.
  - inv_ok H. apply IH in H. apply mark_free_frame in E.
    rewrite H, E. by destruct s.
Qed.

Lemma mark_all_ready (rollouts : list Rollout) (s s' : Learner) :
  for_each _mark_rollout_buffer_free rollouts s = Ok s' →
  Forall (λ r, readiness s' r = Ok 1) rollouts ∧
  ∀ r0, readiness s r0 = Ok 1 → readiness s' r0 = Ok 1.
Proof.
  revert s; induction rollouts as [|r rollouts IH]; intros s H; cbn in H.
  - simplify_eq. by split.
  - inv_ok H. apply IH in H as [Hall Hkeep].
    apply mark_free_ready in E as [Hr Hkeep0]. split; [|by auto].
    constructor; auto.
Qed.

(** The scan discards a prefix of stale rollouts and stops at the
    first rollout within the lag. *)
Lemma discard_scan_prefix (policy_version : Z) (rollouts : list Rollout)
    (n0 n : Z) (s s' : Learner) :
  discard_scan policy_version rollouts n0 s = Ok (n, s') →
  ∃ k : nat,
    n = n0 + Z.of_nat k ∧ (k ≤ length rollouts)%nat ∧
    Forall (stale (cfg s) policy_version) (take k rollouts) ∧
    (∀ r, rollouts !! k = Some r → within_lag (cfg s) policy_version r) ∧
    for_each _mark_rollout_buffer_free (take k rollouts) s = Ok s'.
Proof.
  revert n0 s; induction rollouts as [|r rollouts IH]; intros n0 s H; cbn in H.
  - simplify_eq. exists 0%nat. split_and!; [lia|done..].
  - inv_ok H.
    destruct (Z.leb_spec (max_policy_lag (cfg s)) (policy_version - a)) as [Hlag|Hlag].
    + inv_ok H. pose proof (mark_free_frame _ _ _ E0) as Hframe.
      apply IH in H as (k & -> & Hk & Hstale & Hnext & Hmark).
      replace (cfg a0) with (cfg s) in * by (by rewrite Hframe).
      exists (S k). cbn. rewrite E0. split_and!; [lia|lia| |done..].
      constructor; [by exists a|done].
    + simplify_eq. exists 0%nat. cbn. split_and!; [lia|lia|done| |done].
      intros r0 [= <-]. by exists a.
Qed.

Lemma slice_from_drop {A} (k : nat) (l : list A) :
  (k ≤ length l)%nat → Py.slice_from (Z.of_nat k) l = drop k l.
Proof.
  intros Hk. unfold Py.slice_from, Py.slice_bound, Py.len.
  destruct (Z.ltb_spec (Z.of_nat k) 0); [lia|]. f_equal. lia.
Qed.

Lemma process_macro_batch_inv (rollouts : list Rollout) (s s' : Learner) :
  _process_macro_batch rollouts s = Ok s' →
  ∃ s1 samples env_steps,
    for_each _mark_rollout_buffer_free rollouts s = Ok s1 ∧
    s' = set_experience_buffer_queue
           (experience_buffer_queue s1 ++ [(buffer_of rollouts, samples, env_steps)]) s1.
Proof.
  unfold _process_macro_batch, _prepare_train_buffer. intros H. repeat inv_ok H.
  destruct a2 as [buffer s1]. destruct rollouts as [|r rollouts]; [done|].
  inv_ok E2. simplify_eq. eauto.
Qed.

(** What a call of [_process_rollouts] that returns has done, by the
    number [k] of rollouts it discarded. *)
Lemma process_rollouts_inv (rollouts rest : list Rollout) (work_done : bool)
    (s s' : Learner) :
  _process_rollouts rollouts s = Ok (rest, work_done, s') →
  ∃ n, Py.floordiv (macro_batch (cfg s)) (rollout (cfg s)) = Ok n ∧
    ((Py.len rollouts < n ∧ rest = rollouts ∧ work_done = false ∧ s' = s) ∨
     (n ≤ Py.len rollouts ∧
      ∃ (k : nat) (s1 s2 : Learner),
        (k ≤ length rollouts)%nat ∧
        Forall (stale (cfg s) (train_step s)) (take k rollouts) ∧
        (∀ r, rollouts !! k = Some r → within_lag (cfg s) (train_step s) r) ∧
        for_each _mark_rollout_buffer_free (take k rollouts) s = Ok s1 ∧
        s2 = set_num_discarded_rollouts (num_discarded_rollouts s + Z.of_nat k) s1 ∧
        ((n ≤ Py.len (drop k rollouts) ∧ work_done = true ∧
          rest = Py.slice_from n (drop k rollouts) ∧
          _process_macro_batch (Py.slice_to n (drop k rollouts)) s2 = Ok s') ∨
         (Py.len (drop k rollouts) < n ∧ work_done = false ∧
          rest = drop k rollouts ∧ s' = s2)))).
Proof.
  unfold _process_rollouts. intros H. inv_ok H. rename a into n.
  exists n. split; [done|].
  destruct (Z.ltb_spec (Py.len rollouts) n) as [Hlen|Hlen].
  { left. by simplify_eq. }
  right. split; [done|]. inv_ok H. destruct a as [discard s1].
  apply discard_scan_prefix in E0 as (k & Hd & Hk & Hstale & Hnext & Hmark).
  rewrite Z.add_0_l in Hd. subst discard. exists k, s1.
  pose proof (mark_all_frame _ _ _ Hmark) as Hframe.
  assert (num_discarded_rollouts s1 = num_discarded_rollouts s) as Hnum
    by (by rewrite Hframe).
  assert (∃ s2, s2 = set_num_discarded_rollouts
                       (num_discarded_rollouts s + Z.of_nat k) s1 ∧
            (if 0 <? Z.of_nat k
             then (Py.slice_from (Z.of_nat k) rollouts,
                   set_num_discarded_rollouts
                     (num_discarded_rollouts s1 + Z.of_nat k) s1)
             else (rollouts, s1)) = (drop k rollouts, s2)) as (s2 & Hs2 & Hif).
  { eexists; split; [done|].
    destruct (Z.ltb_spec 0 (Z.of_nat k)).
    - by rewrite slice_from_drop, Hnum.
    - assert (k = 0%nat) as -> by lia. cbn. rewrite Z.add_0_r, <- Hnum.
      by destruct s1. }
  rewrite Hif in H. exists s2. split_and!; [done..|].
  destruct (Z.leb_spec n (Py.len (drop k rollouts))).
  - left. inv_ok H. by simplify_eq.
  - right. by simplify_eq.
Qed.

Lemma readiness_ext (s s' : Learner) (r : Rollout) :
  traj_buffer_ready s' = traj_buffer_ready s → readiness s' r = readiness s r.
Proof. unfold readiness. by intros ->. Qed.

(** *** [_process_rollouts] returns on registered rollouts *)

Lemma tensor_set_total (t : Tensor3) (i j k v bit : Z) :
  tensor_get t i j k = Ok bit →
  ∃ t', tensor_set t i j k v = Ok t' ∧ shape t' = shape t.
Proof.
  unfold tensor_set, tensor_get. destruct (shape t) as [[d0 d1] d2] eqn:Hshape.
  intros H. repeat inv_ok H. rewrite E, E0, E1. cbn. eauto.
Qed.

Lemma tensor_get_shape (t t' : Tensor3) (i j k bit : Z) :
  shape t' = shape t → tensor_get t i j k = Ok bit →
  ∃ bit', tensor_get t' i j k = Ok bit'.
Proof.
  unfold tensor_get. intros ->. destruct (shape t) as [[d0 d1] d2].
  intros H. repeat inv_ok H. rewrite E, E0, E1. cbn. eauto.
Qed.

Lemma mark_free_registered (r : Rollout) (s : Learner) :
  registered s r →
  ∃ s', _mark_rollout_buffer_free r s = Ok s' ∧
        ∀ r0, registered s r0 → registered s' r0.
Proof.
  intros [_ [bit Hbit]]. unfold _mark_rollout_buffer_free. unfold readiness in Hbit.
  destruct (traj_buffer_ready s !! (r_worker_idx r, r_split_idx r))
    as [ready|] eqn:Hready; [|done].
  destruct (tensor_set_total ready _ _ _ 1 _ Hbit) as (ready' & -> & Hshape).
  rewrite ret_bind. eexists; split; [done|].
  intros r0 [Hne [bit0 Hbit0]]. split; [done|]. unfold readiness in *. cbn.
  destruct (decide ((r_worker_idx r, r_split_idx r) = (r_worker_idx r0, r_split_idx r0)))
    as [Heq|Hneq].
  - rewrite <- Heq in *. rewrite lookup_insert_eq. rewrite Hready in Hbit0.
    by apply (tensor_get_shape ready ready' _ _ _ bit0).
  - rewrite lookup_insert_ne by done. eauto.
Qed.

Lemma mark_all_registered (rollouts : list Rollout) (s : Learner) :
  Forall (registered s) rollouts →
  ∃ s', for_each _mark_rollout_buffer_free rollouts s = Ok s' ∧
        ∀ r0, registered s r0 → registered s' r0.
Proof.
  revert s; induction rollouts as [|r rollouts IH]; intros s Hall; cbn.
  - eauto.
  - apply Forall_cons in Hall as [Hr Hall].
    destruct (mark_free_registered r s Hr) as (s1 & -> & Hkeep). rewrite ret_bind.
    destruct (IH s1) as (s' & -> & Hkeep').
    { eapply Forall_impl; [exact Hall|]. auto. }
    eauto.
Qed.

Lemma tensor_min_total (x : list Z) : x ≠ [] → ∃ m, tensor_min x = Ok m.
Proof. destruct x; [done|]. cbn. eauto. Qed.

Lemma discard_scan_total (policy_version : Z) (rollouts : list Rollout)
    (n0 : Z) (s : Learner) :
  Forall (registered s) rollouts →
  ∃ n s', discard_scan policy_version rollouts n0 s = Ok (n, s').
Proof.
  revert n0 s; induction rollouts as [|r rollouts IH]; intros n0 s Hall; cbn.
  - eauto.
  - apply Forall_cons in Hall as [Hr Hall].
    destruct (tensor_min_total _ (proj1 Hr)) as [m ->]. rewrite ret_bind.
    destruct (max_policy_lag (cfg s) <=? policy_version - m); [|eauto].
    destruct (mark_free_registered r s Hr) as (s1 & -> & Hkeep). rewrite ret_bind.
    apply IH. eapply Forall_impl; [exact Hall|]. auto.
Qed.

Lemma process_macro_batch_total (rollouts : list Rollout) (s : Learner) :
  rollout (cfg s) ≠ 0 → recurrence (cfg s) ≠ 0 →
  macro_batch (cfg s) mod rollout (cfg s) = 0 →
  rollout (cfg s) mod recurrence (cfg s) = 0 →
  macro_batch (cfg s) mod recurrence (cfg s) = 0 →
  rollouts ≠ [] → Forall (registered s) rollouts →
  ∃ s', _process_macro_batch rollouts s = Ok s'.
Proof.
  intros Hr Hrec H1 H2 H3 Hne Hall. unfold _process_macro_batch, _prepare_train_buffer.
  rewrite !mod_Ok by done. rewrite H1, H2, H3. cbn.
  destruct (mark_all_registered _ s Hall) as (s1 & Hs1 & _).
  destruct rollouts as [|r rollouts]; [done|].
  rewrite Hs1. cbn. eauto.
Qed.

Lemma slice_to_nonempty {A} (n : Z) (l : list A) :
  0 < n → n ≤ Py.len l → Py.slice_to n l ≠ [].
Proof.
  intros Hn Hlen Hnil. apply (f_equal length) in Hnil.
  unfold Py.slice_to, Py.slice_bound, Py.len in *. rewrite length_take in Hnil.
  destruct (Z.ltb_spec n 0); cbn in Hnil; lia.
Qed.

Lemma process_rollouts_total (rollouts : list Rollout) (s : Learner) (n : Z) :
  Py.floordiv (macro_batch (cfg s)) (rollout (cfg s)) = Ok n →
  0 < n → recurrence (cfg s) ≠ 0 →
  macro_batch (cfg s) mod rollout (cfg s) = 0 →
  rollout (cfg s) mod recurrence (cfg s) = 0 →
  macro_batch (cfg s) mod recurrence (cfg s) = 0 →
  Forall (registered s) rollouts →
  ∃ rest work_done s', _process_rollouts rollouts s = Ok (rest, work_done, s').
Proof.
  intros Hn Hpos Hrec H1 H2 H3 Hall.
  assert (rollout (cfg s) ≠ 0) as Hr.
  { unfold Py.floordiv in Hn. by destruct (Z.eqb_spec (rollout (cfg s)) 0). }
  unfold _process_rollouts. rewrite Hn, ret_bind.
  destruct (Py.len rollouts <? n); [eauto|].
  destruct (discard_scan_total (train_step s) rollouts 0 s Hall) as (d & s1 & Hscan).
  rewrite Hscan, ret_bind.
  destruct (discard_scan_prefix _ _ _ _ _ _ Hscan) as (k & _ & _ & _ & _ & Hmark).
  pose proof (mark_all_frame _ _ _ Hmark) as Hframe.
  destruct (mark_all_registered _ s (Forall_take _ k _ Hall)) as (s1' & Hmark' & Hkeep).
  rewrite Hmark in Hmark'. simplify_eq.
  assert (cfg s1' = cfg s) as Hcfg by (by rewrite Hframe).
  assert (∀ l s2, traj_buffer_ready s2 = traj_buffer_ready s1' → cfg s2 = cfg s →
            (∀ r, r ∈ l → r ∈ rollouts) →
            ∃ rest work_done s',
              (if n <=? Py.len l
               then s3 ← _process_macro_batch (Py.slice_to n l) s2;
                    Ok (Py.slice_from n l, true, s3)
               else Ok (l, false, s2)) = Ok (rest, work_done, s')) as Hrest.
  { intros l s2 Hready Hcfg2 Hsub.
    destruct (Z.leb_spec n (Py.len l)) as [Hlen|Hlen]; [|eauto].
    destruct (process_macro_batch_total (Py.slice_to n l) s2) as [s3 ->];
      rewrite ?Hcfg2; try done.
    - by apply slice_to_nonempty.
    - apply Forall_forall. intros r Hin.
      assert (r ∈ rollouts) as Hin'.
      { apply Hsub. unfold Py.slice_to in Hin. by apply elem_of_take in Hin as (? & ?%list_elem_of_lookup_2 & _). }
      rewrite Forall_forall in Hall. destruct (Hkeep r (Hall r Hin')) as [Hne [bit Hbit]].
      split; [done|]. exists bit. by rewrite (readiness_ext s1').
    - rewrite ret_bind. eauto. }
  destruct (0 <? d).
  - apply Hrest; [done|done|].
    intros r Hin. unfold Py.slice_from in Hin.
    apply list_elem_of_lookup in Hin as [i Hi]. rewrite lookup_drop in Hi.
    by apply list_elem_of_lookup_2 in Hi.
  - by apply Hrest.
Qed.

(** [C2] With at least [rollouts_in_macro_batch] rollouts pending, a
    call of [_process_rollouts] that returns has discarded exactly the
    longest prefix of stale rollouts: they are the first [k], the
    rollout after them is within the lag, their readiness bits are [1],
    [num_discarded_rollouts] has grown by [k], and what follows them
    is pending or in the macro-batch.  With fewer pending, the call
    returns the list and the learner as they were.  The call does
    return when the sizes of the configuration pass the assertions of
    [_process_macro_batch] and the pending rollouts are registered. *)
Theorem process_rollouts_discards (rollouts : list Rollout) (s : Learner) (n : Z) :
  Py.floordiv (macro_batch (cfg s)) (rollout (cfg s)) = Ok n →
  (Py.len rollouts < n → _process_rollouts rollouts s = Ok (rollouts, false, s)) ∧
  (0 < n → recurrence (cfg s) ≠ 0 →
   macro_batch (cfg s) mod rollout (cfg s) = 0 →
   rollout (cfg s) mod recurrence (cfg s) = 0 →
   macro_batch (cfg s) mod recurrence (cfg s) = 0 →
   Forall (registered s) rollouts →
   ∃ rest work_done s', _process_rollouts rollouts s = Ok (rest, work_done, s')) ∧
  (n ≤ Py.len rollouts →
   ∀ rest work_done s', _process_rollouts rollouts s = Ok (rest, work_done, s') →
   ∃ k : nat,
     (k ≤ length rollouts)%nat ∧
     Forall (stale (cfg s) (train_step s)) (take k rollouts) ∧
     (∀ r, rollouts !! k = Some r → within_lag (cfg s) (train_step s) r) ∧
     Forall (λ r, readiness s' r = Ok 1) (take k rollouts) ∧
     num_discarded_rollouts s' = num_discarded_rollouts s + Z.of_nat k ∧
     (if work_done
      then rest = Py.slice_from n (drop k rollouts) ∧
           ∃ samples env_steps,
             experience_buffer_queue s'
             = experience_buffer_queue s
                 ++ [(buffer_of (Py.slice_to n (drop k rollouts)), samples, env_steps)]
      else rest = drop k rollouts ∧
           experience_buffer_queue s' = experience_buffer_queue s)).
Proof.
  intros Hn. split; [|split].
  - intros Hlen. unfold _process_rollouts. rewrite Hn. cbn.
    by destruct (Z.ltb_spec (Py.len rollouts) n); [|lia].
  - by apply process_rollouts_total.
  - intros Hlen rest work_done s' H.
    apply process_rollouts_inv in H as (n' & Hn' & H).
    rewrite Hn in Hn'. simplify_eq.
    destruct H as [(? & _)|(_ & k & s1 & s2 & Hk & Hstale & Hnext & Hmark & Hs2 & H)];
      [lia|].
    exists k. split_and!; [done..| | |].
    all: pose proof (mark_all_frame _ _ _ Hmark) as Hframe1.
    all: pose proof (mark_all_ready _ _ _ Hmark) as [Hready1 _].
    all: destruct H as [(Hlen' & -> & -> & Hbatch)|(Hlen' & -> & -> & ->)].
    all: try (apply process_macro_batch_inv in Hbatch
                as (s3 & samples & env_steps & Hmark3 & ->);
              pose proof (mark_all_frame _ _ _ Hmark3) as Hframe3;
              pose proof (mark_all_ready _ _ _ Hmark3) as [_ Hkeep3]).
    + eapply Forall_impl; [exact Hready1|]. intros r Hr. cbn in Hr.
      rewrite (readiness_ext s3); [|done]. apply Hkeep3.
      by rewrite (readiness_ext s1); [|rewrite Hs2].
    + eapply Forall_impl; [exact Hready1|]. intros r Hr. cbn in Hr.
      by rewrite (readiness_ext s1); [|rewrite Hs2].
    + cbn. rewrite Hframe3. cbn. by rewrite Hs2.
    + by rewrite Hs2.
    + split; [done|]. exists samples, env_steps. cbn. rewrite Hframe3. cbn.
      rewrite Hs2. cbn. by rewrite Hframe1.
    + split; [done|]. rewrite Hs2. cbn. by rewrite Hframe1.
Qed.

(** [C1] (as amended) When [_process_rollouts] forms a macro-batch,
    the first rollout of the batch is within the lag, and every
    rollout of the batch is when the minimum policy versions do not
    decrease along the pending list.  (A stale rollout that sits
    behind a rollout within the lag is not looked at.)  The batch is
    the part of the pending list between the rollouts that were
    discarded and the rollouts that are returned. *)
Theorem macro_batch_within_lag (rollouts rest : list Rollout) (s s' : Learner) :
  _process_rollouts rollouts s = Ok (rest, true, s') →
  ∃ batch samples env_steps,
    experience_buffer_queue s'
      = experience_buffer_queue s ++ [(buffer_of batch, samples, env_steps)] ∧
    (∀ r, head batch = Some r → within_lag (cfg s) (train_step s) r) ∧
    (versions_ascending rollouts →
     ∀ r m, r ∈ batch → tensor_min (t_policy_version (r_t r)) = Ok m →
            train_step s - m < max_policy_lag (cfg s)) ∧
    ∃ discarded, rollouts = discarded ++ batch ++ rest.
Proof.
  intros H. apply process_rollouts_inv in H as (n & Hn & H).
  destruct H as [(_ & _ & [=] & _)
                |(Hlen & k & s1 & s2 & Hk & Hstale & Hnext & Hmark & Hs2 & H)].
  destruct H as [(Hlen' & _ & -> & Hbatch)|(_ & [=] & _)].
  apply process_macro_batch_inv in Hbatch as (s3 & samples & env_steps & Hmark3 & ->).
  pose proof (mark_all_frame _ _ _ Hmark) as Hframe1.
  pose proof (mark_all_frame _ _ _ Hmark3) as Hframe3.
  exists (Py.slice_to n (drop k rollouts)), samples, env_steps.
  assert (∀ r, head (Py.slice_to n (drop k rollouts)) = Some r →
               rollouts !! k = Some r) as Hhead.
  { intros r. unfold Py.slice_to. rewrite !head_lookup.
    intros Hr%lookup_take_Some. destruct Hr as [Hr _].
    by rewrite lookup_drop, Nat.add_0_r in Hr. }
  split_and!.
  - cbn. rewrite Hframe3. cbn. rewrite Hs2. cbn. by rewrite Hframe1.
  - intros r Hr. auto.
  - intros Hasc r m Hin Hm.
    unfold Py.slice_to in Hin. apply elem_of_take in Hin as (j & Hj & _).
    rewrite lookup_drop in Hj.
    destruct (rollouts !! k) as [rk|] eqn:Hrk.
    + destruct (Hnext rk eq_refl) as (mk & Hmk & Hlag).
      assert (mk ≤ m); [|lia].
      eapply (Hasc k (k + j)%nat); [lia|done..].
    + apply lookup_ge_None in Hrk. apply lookup_lt_Some in Hj. lia.
  - exists (take k rollouts). rewrite <- (take_drop k rollouts) at 1. f_equal.
    symmetry. apply take_drop.
Qed.

(** ** Minibatch indices ([C3]) *)

Lemma concat_Permutation {A} (l1 l2 : list (list A)) :
  l1 ≡ₚ l2 → concat l1 ≡ₚ concat l2.
Proof.
  induction 1 as [|x l1 l2 _ IH|x y l|l1 l2 l3 _ IH1 _ IH2]; cbn.
  - done.
  - by rewrite IH.
  - rewrite !(assoc_L (++)). f_equiv. apply Permutation_app_comm.
  - by etrans.
Qed.

Lemma arange_multiples (n step : Z) :
  0 < step → 0 ≤ n → n mod step = 0 →
  Np.arange 0 n step = Ok ((λ k : nat, Z.of_nat k * step) <$> seq 0 (Z.to_nat (n / step))).
Proof.
  intros Hstep Hn Hmod. unfold Np.arange.
  destruct (Z.eqb_spec step 0); [lia|].
  replace (- ((0 - n) / step)) with (n / step).
  - done.
  - change (0 - n) with (- n). rewrite Z_div_zero_opp_full by done. lia.
Qed.

Lemma concat_windows (r : Z) (m : nat) :
  0 ≤ r →
  concat ((λ i, seqZ i r) <$> ((λ k : nat, Z.of_nat k * r) <$> seq 0 m))
  = seqZ 0 (Z.of_nat m * r).
Proof.
  intros Hr. induction m as [|m IH]; [done|].
  rewrite seq_S, !fmap_app, concat_app, IH. cbn. rewrite app_nil_r.
  replace (Z.of_nat (S m) * r) with (Z.of_nat m * r + r) by lia.
  rewrite seqZ_app by lia. done.
Qed.

Lemma length_concat_windows (r : Z) (starts : list Z) :
  length (concat ((λ i, seqZ i r) <$> starts)) = (length starts * Z.to_nat r)%nat.
Proof.
  induction starts as [|i starts IH]; [done|].
  cbn. rewrite length_app, length_seqZ, IH. lia.
Qed.

Lemma take_concat_windows (r : Z) (q : nat) (starts : list Z) :
  take (q * Z.to_nat r) (concat ((λ i, seqZ i r) <$> starts))
  = concat ((λ i, seqZ i r) <$> take q starts).
Proof.
  revert starts; induction q as [|q IH]; intros [|i starts]; cbn; try done.
  - by rewrite take_nil.
  - rewrite take_app_add'; [by rewrite IH|]. by rewrite length_seqZ.
Qed.

Lemma drop_concat_windows (r : Z) (q : nat) (starts : list Z) :
  drop (q * Z.to_nat r) (concat ((λ i, seqZ i r) <$> starts))
  = concat ((λ i, seqZ i r) <$> drop q starts).
Proof.
  revert starts; induction q as [|q IH]; intros [|i starts]; cbn; try done.
  - by rewrite drop_nil.
  - rewrite drop_app_add'; [by rewrite IH|]. by rewrite length_seqZ.
Qed.

Lemma sections_windows (r : Z) (q k : nat) (starts : list Z) :
  Np.sections (q * Z.to_nat r) k (concat ((λ i, seqZ i r) <$> starts))
  = (λ ss, concat ((λ i, seqZ i r) <$> ss)) <$> Np.sections q k starts.
Proof.
  revert starts; induction k as [|k IH]; intros starts; cbn; [done|].
  by rewrite take_concat_windows, drop_concat_windows, IH.
Qed.

Lemma concat_sections {A} (n k : nat) (l : list A) :
  (length l ≤ k * n)%nat → concat (Np.sections n k l) = l.
Proof.
  revert l; induction k as [|k IH]; intros l Hlen; cbn.
  - destruct l; [done|cbn in Hlen; lia].
  - rewrite IH; [apply take_drop|]. rewrite length_drop. lia.
Qed.

Lemma length_sections {A} (n k : nat) (l : list A) :
  length (Np.sections n k l) = k.
Proof. revert l; induction k as [|k IH]; intros l; cbn; [done|]. by rewrite IH. Qed.

Lemma sections_lengths {A} (n k : nat) (l : list A) :
  (k * n ≤ length l)%nat → Forall (λ x, length x = n) (Np.sections n k l).
Proof.
  revert l; induction k as [|k IH]; intros l Hlen; cbn; constructor.
  - rewrite length_take. lia.
  - apply IH. rewrite length_drop. lia.
Qed.

Lemma sections_sublists {A} (P : A → Prop) (n k : nat) (l : list A) :
  Forall P l → Forall (Forall P) (Np.sections n k l).
Proof.
  revert l; induction k as [|k IH]; intros l Hl; cbn; constructor.
  - by apply Forall_take.
  - apply IH. by apply Forall_drop.
Qed.

Lemma split_sections {A} (ary : list A) (k : Z) :
  0 < k → Py.len ary mod k = 0 →
  Np.split ary k = Ok (Np.sections (Z.to_nat (Py.len ary / k)) (Z.to_nat k) ary).
Proof.
  intros Hk Hmod. unfold Np.split, Py.mod_.
  destruct (Z.eqb_spec k 0); [lia|]. cbn. rewrite Hmod. cbn.
  by destruct (Z.leb_spec k 0); [lia|].
Qed.

Lemma split_inv {A} (ary : list A) (k : Z) (l : list (list A)) :
  Np.split ary k = Ok l → 0 < k ∧ length l = Z.to_nat k.
Proof.
  unfold Np.split. intros H. inv_ok H.
  destruct (negb (a =? 0)); [done|].
  destruct (Z.leb_spec k 0); [done|]. simplify_eq.
  by rewrite length_sections.
Qed.

(** With positive sizes that divide as [_get_minibatches] and the
    minibatch loop need, the call returns a partition of the indices
    into minibatches of whole windows. *)
Lemma get_minibatches_returns (experience_size : Z) (s : Learner) :
  (∀ l, np_random_permutation (np_random_draws s) l ≡ₚ l) →
  macro_batch (cfg s) ≠ batch_size (cfg s) →
  0 < experience_size → 0 < recurrence (cfg s) → 0 < batch_size (cfg s) →
  rollout (cfg s) mod recurrence (cfg s) = 0 →
  experience_size mod batch_size (cfg s) = 0 →
  experience_size mod recurrence (cfg s) = 0 →
  batch_size (cfg s) mod recurrence (cfg s) = 0 →
  ∃ minibatches s',
    _get_minibatches experience_size s = Ok (Some <$> minibatches, s') ∧
    concat minibatches ≡ₚ seqZ 0 experience_size ∧
    Z.of_nat (length minibatches) = experience_size / batch_size (cfg s) ∧
    Forall (λ minibatch, Z.of_nat (length minibatch) = batch_size (cfg s)) minibatches ∧
    Forall (windowed (recurrence (cfg s))) minibatches.
Proof.
  intros Hperm Hne Hsize Hrec Hbatch Hrollout Hdiv_batch Hdiv_rec Hbatch_rec.
  set (r := recurrence (cfg s)) in *. set (b := batch_size (cfg s)) in *.
  set (m := Z.to_nat (experience_size / r)).
  set (starts0 := (λ k : nat, Z.of_nat k * r) <$> seq 0 m).
  set (starts := np_random_permutation (np_random_draws s) starts0).
  set (indices := concat ((λ i, seqZ i r) <$> starts)).
  set (k := experience_size / b).
  assert (experience_size = Z.of_nat m * r) as Hm.
  { unfold m. rewrite Z2Nat.id by (apply Z.div_pos; lia).
    rewrite Z.mul_comm. by apply Z_div_exact_full_2; [lia|]. }
  assert (experience_size = b * k) as Hk by (by apply Z_div_exact_full_2; [lia|]).
  assert (b = r * (b / r)) as Hq by (by apply Z_div_exact_full_2; [lia|]).
  assert (0 < k) as Hkpos by nia.
  assert (0 < b / r) as Hqpos by nia.
  assert (length starts = m) as Hlen_starts.
  { unfold starts. rewrite (Permutation_length (Hperm _)).
    unfold starts0. by rewrite length_fmap, length_seq. }
  assert (Py.len indices = experience_size) as Hlen.
  { unfold Py.len, indices. rewrite length_concat_windows, Hlen_starts. lia. }
  assert (Forall (λ i, i mod r = 0) starts) as Hstarts.
  { unfold starts. rewrite (Hperm _). unfold starts0.
    apply Forall_fmap, Forall_forall. intros i _. cbn. by apply Z_mod_mult. }
  exists (Np.sections (Z.to_nat b) (Z.to_nat k) indices),
         (set_np_random_draws (S (np_random_draws s)) s).
  split_and!.
  - unfold _get_minibatches. fold r b.
    rewrite !mod_Ok, Hrollout, Hdiv_batch by lia. cbn.
    destruct (Z.eqb_spec (macro_batch (cfg s)) b); [done|].
    rewrite arange_multiples by lia. cbn. fold m starts0 starts r b indices.
    assert (Np.concatenate ((λ i, seqZ i r) <$> starts) = Ok indices) as ->.
    { destruct starts; [cbn in Hlen_starts; lia|done]. }
    cbn. rewrite Hlen, Z.eqb_refl. cbn. rewrite floordiv_Ok by lia. cbn. fold k.
    rewrite split_sections; [|done|].
    + rewrite Hlen. cbn. do 3 f_equal. rewrite Hk at 1.
      by rewrite Z.div_mul by lia.
    + rewrite Hlen, Hk. apply Z_mod_mult.
  - rewrite concat_sections by (unfold Py.len in Hlen; nia).
    unfold indices. rewrite (concat_Permutation _ ((λ i, seqZ i r) <$> starts0)).
    + unfold starts0. rewrite concat_windows by lia. by rewrite <- Hm.
    + apply fmap_Permutation, Hperm.
  - rewrite length_sections. lia.
  - eapply Forall_impl; [apply sections_lengths; unfold Py.len in Hlen; nia|].
    intros minibatch Hmb. cbn in Hmb. lia.
  - replace (Z.to_nat b) with (Z.to_nat (b / r) * Z.to_nat r)%nat by nia.
    unfold indices. rewrite sections_windows. apply Forall_fmap.
    eapply Forall_impl; [apply (sections_sublists _ _ _ _ Hstarts)|].
    intros ss Hss. by exists ss.
Qed.

(** A call that makes indices and returns was given positive sizes. *)
Lemma get_minibatches_sizes (experience_size : Z) (s s' : Learner)
    (result : list (option (list Z))) :
  (∀ l, np_random_permutation (np_random_draws s) l ≡ₚ l) →
  macro_batch (cfg s) ≠ batch_size (cfg s) →
  _get_minibatches experience_size s = Ok (result, s') →
  0 < experience_size ∧ 0 < recurrence (cfg s) ∧ 0 < batch_size (cfg s) ∧
  rollout (cfg s) mod recurrence (cfg s) = 0.
Proof.
  intros Hperm Hne H. unfold _get_minibatches in H.
  inv_ok H. inv_ok H. inv_ok H. inv_ok H.
  destruct (Z.eqb_spec (macro_batch (cfg s)) (batch_size (cfg s))); [done|].
  inv_ok H. rename a1 into starts0.
  change (cfg (set_np_random_draws (S (np_random_draws s)) s)) with (cfg s) in H.
  set (r := recurrence (cfg s)) in *. set (b := batch_size (cfg s)) in *.
  set (starts := np_random_permutation (np_random_draws s) starts0) in H.
  inv_ok H. rename a1 into indices. inv_ok H. inv_ok H. rename a1 into k.
  inv_ok H. apply split_inv in E4 as [Hk _].
  unfold Py.mod_ in E, E0. unfold Py.floordiv in E3.
  destruct (Z.eqb_spec r 0) as [|Hr]; [done|].
  destruct (Z.eqb_spec b 0) as [|Hb]; [done|]. simplify_eq.
  apply Z.eqb_eq in Hassert, Hassert0, Hassert1.
  assert (starts ≠ [] ∧ indices = concat ((λ i, seqZ i r) <$> starts)) as [Hstarts ->].
  { clearbody starts. destruct starts as [|i starts]; [done|].
    cbn in E2. by simplify_eq. }
  unfold Py.len in Hassert1. rewrite length_concat_windows in Hassert1.
  assert (0 < length starts)%nat as Hlen by (destruct starts; [done|cbn; lia]).
  assert (0 < r) as Hrpos.
  { destruct (Z.lt_ge_cases 0 r) as [|Hle]; [done|]. exfalso.
    assert (experience_size = 0) as Hzero by lia.
    assert (starts0 = []) as Hnil.
    { unfold Np.arange in E1. destruct (r =? 0); [done|].
      rewrite Hzero, Z.sub_diag, Z.div_0_l in E1 by done. by injection E1 as <-. }
    apply Hstarts. apply Permutation_nil_r. unfold starts. rewrite Hnil.
    apply Hperm. }
  assert (0 < experience_size) as Hsize by nia.
  split_and!; [done..| |done].
  destruct (Z.lt_ge_cases 0 b) as [|Hle]; [done|]. exfalso.
  assert (b < 0) as Hneg by lia.
  pose proof (Z.div_mod experience_size b Hb) as Hdiv.
  pose proof (Z.mod_neg_bound experience_size b Hneg) as Hmod. nia.
Qed.

(** [C3] (as amended) With [macro_batch != batch_size], and with
    [experience_size] a multiple of [batch_size] and of [recurrence] and
    [batch_size] a multiple of [recurrence], what [_get_minibatches]
    returns is [experience_size / batch_size] minibatches of
    [batch_size] indices each, whose concatenation is a permutation of
    [0, experience_size), each made of windows of [recurrence]
    consecutive indices that start at multiples of [recurrence].  The
    call returns when the sizes are positive and [rollout] is a multiple
    of [recurrence]. *)
Theorem get_minibatches_partition (experience_size : Z) (s : Learner) :
  (∀ l, np_random_permutation (np_random_draws s) l ≡ₚ l) →
  macro_batch (cfg s) ≠ batch_size (cfg s) →
  experience_size mod batch_size (cfg s) = 0 →
  experience_size mod recurrence (cfg s) = 0 →
  batch_size (cfg s) mod recurrence (cfg s) = 0 →
  (∀ result s', _get_minibatches experience_size s = Ok (result, s') →
     ∃ minibatches,
       result = Some <$> minibatches ∧
       concat minibatches ≡ₚ seqZ 0 experience_size ∧
       Z.of_nat (length minibatches) = experience_size / batch_size (cfg s) ∧
       Forall (λ minibatch, Z.of_nat (length minibatch) = batch_size (cfg s))
              minibatches ∧
       Forall (windowed (recurrence (cfg s))) minibatches) ∧
  (0 < experience_size → 0 < recurrence (cfg s) → 0 < batch_size (cfg s) →
   rollout (cfg s) mod recurrence (cfg s) = 0 →
   ∃ result s', _get_minibatches experience_size s = Ok (result, s')).
Proof.
  intros Hperm Hne Hdiv_batch Hdiv_rec Hbatch_rec. split.
  - intros result s' H.
    destruct (get_minibatches_sizes _ _ _ _ Hperm Hne H)
      as (Hsize & Hrec & Hbatch & Hrollout).
    destruct (get_minibatches_returns experience_size s)
      as (minibatches & s'' & H' & Hprops); [done..|].
    rewrite H in H'. simplify_eq. by exists minibatches.
  - intros Hsize Hrec Hbatch Hrollout.
    destruct (get_minibatches_returns experience_size s)
      as (minibatches & s' & H & _); [done..|].
    eauto.
Qed.

(** ** Checkpoint names *)

Lemma digit_code (d : Z) :
  0 ≤ d < 10 → Ascii.N_of_ascii (Fmt.digit d) = Z.to_N (48 + d).
Proof.
  intros Hd. unfold Fmt.digit. apply Ascii.N_ascii_embedding. lia.
Qed.

Lemma digit_compare (a b : Z) :
  0 ≤ a < 10 → 0 ≤ b < 10 →
  Ascii.compare (Fmt.digit a) (Fmt.digit b) = (a ?= b).
Proof.
  intros Ha Hb. unfold Ascii.compare. rewrite !digit_code by done.
  rewrite Z2N.inj_compare by lia. apply Z.add_compare_mono_l.
Qed.

Lemma ascii_compare_refl (c : Ascii.ascii) : Ascii.compare c c = Eq.
Proof. unfold Ascii.compare. apply N.compare_refl. Qed.

Lemma compare_app (p a b : string) :
  String.compare (p +:+ a) (p +:+ b) = String.compare a b.
Proof.
  induction p as [|c p IH]; [done|].
  simpl. by rewrite ascii_compare_refl.
Qed.

(** Numbers written with the same number of digits compare as their
    digit strings do. *)
Lemma digits_fixed_lt (w : nat) (a b : Z) (x y : string) :
  a mod 10 ^ Z.of_nat w < b mod 10 ^ Z.of_nat w →
  String.compare (Fmt.digits_fixed w a +:+ x) (Fmt.digits_fixed w b +:+ y) = Lt.
Proof.
  induction w as [|w IH]; intros Hlt.
  - change (10 ^ Z.of_nat 0) with 1 in Hlt. rewrite !Z.mod_1_r in Hlt. lia.
  - simpl String.compare.
    set (B := 10 ^ Z.of_nat w) in *.
    assert (0 < B) as HB by (apply Z.pow_pos_nonneg; lia).
    replace (10 ^ Z.of_nat (S w)) with (B * 10) in Hlt
      by (rewrite Nat2Z.inj_succ, Z.pow_succ_r by lia; unfold B; lia).
    rewrite !Z.rem_mul_r in Hlt by lia.
    pose proof (Z.mod_pos_bound a B HB). pose proof (Z.mod_pos_bound b B HB).
    pose proof (Z.mod_pos_bound (a / B) 10 ltac:(lia)).
    pose proof (Z.mod_pos_bound (b / B) 10 ltac:(lia)).
    rewrite digit_compare by done.
    destruct (Z.compare_spec (a / B mod 10) (b / B mod 10)) as [Heq|Hd|Hd].
    + apply IH. nia.
    + done.
    + nia.
Qed.

Lemma num_digits_fuel_le (fuel : nat) (n : Z) (k : nat) :
  (1 ≤ k)%nat → n < 10 ^ Z.of_nat k → (Fmt.num_digits_fuel fuel n ≤ k)%nat.
Proof.
  revert n k; induction fuel as [|fuel IH]; intros n k Hk Hn; cbn; [done|].
  destruct (Z.ltb_spec n 10); [done|].
  destruct k as [|k]; [lia|].
  assert (1 ≤ k)%nat.
  { destruct k; [|lia]. change (10 ^ Z.of_nat 1) with 10 in Hn. lia. }
  apply le_n_S, IH; [done|].
  rewrite Nat2Z.inj_succ, Z.pow_succ_r in Hn by lia.
  apply Z.div_lt_upper_bound; lia.
Qed.

Lemma format_09d_digits (n : Z) :
  0 ≤ n < 10 ^ 9 → Fmt.format_09d n = Fmt.digits_fixed 9 n.
Proof.
  intros Hn. unfold Fmt.format_09d.
  destruct (Z.ltb_spec n 0); [lia|].
  rewrite Nat.max_l; [done|]. unfold Fmt.num_digits.
  apply num_digits_fuel_le; [lia|]. change (Z.of_nat 9) with 9. lia.
Qed.

(** Below a billion steps the names of checkpoints are ordered as their
    [train_step]s are. *)
Lemma checkpoint_name_lt (train_step1 env_steps1 train_step2 env_steps2 : Z) :
  0 ≤ train_step1 → train_step1 < train_step2 → train_step2 < 10 ^ 9 →
  String.compare (checkpoint_name train_step1 env_steps1)
                 (checkpoint_name train_step2 env_steps2) = Lt.
Proof.
  intros H0 Hlt H9. unfold checkpoint_name.
  rewrite compare_app, !format_09d_digits by lia.
  apply digits_fixed_lt. change (Z.of_nat 9) with 9.
  rewrite !Z.mod_small by lia. done.
Qed.

Lemma digit_not_t (d : Z) : Fmt.digit (d mod 10) ≠ "t"%char.
Proof.
  pose proof (Z.mod_pos_bound d 10 ltac:(lia)) as Hd.
  intros H%(f_equal Ascii.N_of_ascii). rewrite digit_code in H by done.
  change (Ascii.N_of_ascii "t") with 116%N in H. lia.
Qed.

Lemma checkpoint_name_not_tmp (train_step env_steps : Z) :
  checkpoint_name train_step env_steps ≠ "checkpoint_tmp".
Proof.
  unfold checkpoint_name. change "checkpoint_tmp" with ("checkpoint_" +:+ "tmp").
  intros H%(inj (String.append "checkpoint_")). revert H.
  unfold Fmt.format_09d. destruct (train_step <? 0); [done|].
  destruct (Nat.max 9 (Fmt.num_digits train_step)) as [|w] eqn:Hw; [lia|].
  cbn. intros [= H _]. by apply digit_not_t in H.
Qed.

(** ** The checkpoint directory ([C5], [C6]) *)

Lemma elem_of_get_checkpoints (d : dir) (name : string) :
  name ∈ get_checkpoints d ↔ glob_checkpoint name ∧ is_Some (d !! name).
Proof.
  unfold get_checkpoints. rewrite merge_sort_Permutation, list_elem_of_filter.
  f_equiv. rewrite list_elem_of_fmap. split.
  - intros ([n e] & -> & He%elem_of_map_to_list). by exists e.
  - intros [e He]. exists (name, e). by rewrite elem_of_map_to_list.
Qed.

Lemma NoDup_get_checkpoints (d : dir) : NoDup (get_checkpoints d).
Proof.
  unfold get_checkpoints. rewrite merge_sort_Permutation.
  apply NoDup_filter, NoDup_fst_map_to_list.
Qed.

Lemma sorted_get_checkpoints (d : dir) : StronglySorted String.le (get_checkpoints d).
Proof. apply StronglySorted_merge_sort; apply _. Qed.

Lemma length_get_checkpoints (d : dir) : (length (get_checkpoints d) ≤ size d)%nat.
Proof.
  unfold get_checkpoints. rewrite merge_sort_Permutation.
  etrans; [apply length_filter|]. by rewrite length_fmap, length_map_to_list.
Qed.

(** Removing the first checkpoint leaves the rest of the list. *)
Lemma get_checkpoints_delete (d : dir) (oldest : string) (rest : list string) :
  get_checkpoints d = oldest :: rest →
  get_checkpoints (delete oldest d) = rest.
Proof.
  intros Hd.
  pose proof (NoDup_get_checkpoints d) as Hnodup.
  pose proof (sorted_get_checkpoints d) as Hsorted.
  rewrite Hd in Hnodup, Hsorted.
  apply NoDup_cons in Hnodup as [Hfresh Hnodup].
  apply StronglySorted_cons in Hsorted as [_ Hsorted].
  apply (StronglySorted_unique String.le); [apply sorted_get_checkpoints|done|].
  apply NoDup_Permutation; [apply NoDup_get_checkpoints|done|].
  intros name. rewrite elem_of_get_checkpoints.
  destruct (decide (name = oldest)) as [->|Hne].
  - rewrite lookup_delete_eq. split; [by intros [_ [? ?]]|done].
  - rewrite lookup_delete_ne by done. rewrite <- elem_of_get_checkpoints, Hd.
    rewrite elem_of_cons. split; [by intros [?|?]|auto].
Qed.

(** The loop of [_save] removes a prefix of the sorted list of
    checkpoints and nothing else. *)
Lemma remove_old_fuel_Ok (fuel : nat) (keep : Z) (d d' : dir) :
  remove_old_fuel fuel keep d = Some (Ok d') →
  Py.len (get_checkpoints d') ≤ keep ∧
  ∃ removed,
    get_checkpoints d = removed ++ get_checkpoints d' ∧
    ∀ name, d' !! name = if decide (name ∈ removed) then None else d !! name.
Proof.
  revert d; induction fuel as [|fuel IH]; intros d H; cbn in H.
  all: destruct (Z.ltb_spec keep (Py.len (get_checkpoints d))) as [Hlen|Hlen];
    [|simplify_eq; split; [done|]; exists []; split; [done|];
      by intros name; rewrite decide_False by apply not_elem_of_nil].
  - done.
  - destruct (get_checkpoints d) as [|oldest rest] eqn:Hd; [done|].
    change (Py.index (oldest :: rest) 0) with (@Ok string oldest) in H. cbn in H.
    destruct (isfile d oldest); [|done].
    pose proof (get_checkpoints_delete _ _ _ Hd) as Hrest.
    apply IH in H as (Hkeep & removed & Hsplit & Hlookup).
    split; [done|]. exists (oldest :: removed). split.
    + cbn. by rewrite <- Hsplit, Hrest.
    + intros name. rewrite Hlookup.
      destruct (decide (name = oldest)) as [->|Hne].
      * rewrite lookup_delete_eq, (decide_True _ _ (list_elem_of_here _ _)).
        by case_decide.
      * rewrite lookup_delete_ne by done.
        destruct (decide (name ∈ removed)).
        -- by rewrite decide_True by (by right).
        -- by rewrite decide_False by (by intros [?|?]%elem_of_cons).
Qed.

(** One pass per checkpoint and a last test are enough. *)
Lemma remove_old_fuel_enough (fuel : nat) (keep : Z) (d : dir) :
  (length (get_checkpoints d) < fuel)%nat →
  is_Some (remove_old_fuel fuel keep d).
Proof.
  revert d; induction fuel as [|fuel IH]; intros d Hfuel; [lia|]. cbn.
  destruct (keep <? Py.len (get_checkpoints d)); [|done].
  destruct (get_checkpoints d) as [|oldest rest] eqn:Hd; [done|].
  change (Py.index (oldest :: rest) 0) with (@Ok string oldest). cbn.
  destruct (isfile d oldest); [|done].
  apply IH. rewrite (get_checkpoints_delete _ _ _ Hd). cbn in Hfuel. lia.
Qed.

Lemma remove_old_Ok (keep : Z) (d d' : dir) :
  remove_old keep d = Ok d' →
  Py.len (get_checkpoints d') ≤ keep ∧
  ∃ removed,
    get_checkpoints d = removed ++ get_checkpoints d' ∧
    ∀ name, d' !! name = if decide (name ∈ removed) then None else d !! name.
Proof.
  unfold remove_old. intros H.
  destruct (remove_old_fuel _ keep d) as [o|] eqn:Hfuel; [|done].
  cbn in H. subst o. by eapply remove_old_fuel_Ok.
Qed.

(** Nothing is removed from a directory within the limit. *)
Lemma remove_old_within (keep : Z) (d : dir) :
  Py.len (get_checkpoints d) ≤ keep → remove_old keep d = Ok d.
Proof.
  intros Hlen. unfold remove_old. cbn.
  by destruct (Z.ltb_spec keep (Py.len (get_checkpoints d))); [lia|].
Qed.

Lemma only_files_delete (d : dir) (name : string) :
  only_files d → only_files (delete name d).
Proof. intros Hd n e [_ He]%lookup_delete_Some. eauto. Qed.

Lemma only_files_insert (d : dir) (name : string) (ck : Checkpoint) :
  only_files d → only_files (<[name := File ck]> d).
Proof.
  intros Hd n e [[_ <-]|[_ He]]%lookup_insert_Some; eauto.
Qed.

(** The loop ends when every entry is a file and the limit is not
    negative. *)
Lemma remove_old_fuel_total (fuel : nat) (keep : Z) (d : dir) :
  0 ≤ keep → only_files d → (length (get_checkpoints d) < fuel)%nat →
  ∃ d', remove_old_fuel fuel keep d = Some (Ok d').
Proof.
  intros Hkeep. revert d; induction fuel as [|fuel IH]; intros d Hfiles Hfuel; [lia|].
  cbn. destruct (Z.ltb_spec keep (Py.len (get_checkpoints d))) as [Hlen|Hlen]; [|eauto].
  destruct (get_checkpoints d) as [|oldest rest] eqn:Hd.
  { unfold Py.len in Hlen. cbn in Hlen. lia. }
  change (Py.index (oldest :: rest) 0) with (@Ok string oldest). cbn.
  assert (oldest ∈ get_checkpoints d) as [_ [e He]]%elem_of_get_checkpoints
    by (rewrite Hd; left).
  unfold isfile. rewrite He. destruct (Hfiles _ _ He) as [ck ->].
  apply IH; [by apply only_files_delete|].
  rewrite (get_checkpoints_delete _ _ _ Hd). cbn in Hfuel. lia.
Qed.

Lemma remove_old_total (keep : Z) (d : dir) :
  0 ≤ keep → only_files d → ∃ d', remove_old keep d = Ok d'.
Proof.
  intros Hkeep Hfiles. unfold remove_old.
  destruct (remove_old_fuel_total (S (length (get_checkpoints d))) keep d)
    as [d' ->]; [done|done|lia|]. by exists d'.
Qed.

(** What [_save] does before the loop: the new checkpoint is written
    under its name. *)
Lemma save_inv (s s' : Learner) :
  _save s = Ok s' →
  remove_old (keep_checkpoints (cfg s)) (written_dir s) = Ok (own_dir s') ∧
  s' = set_fs (<[policy_id s := own_dir s']> (fs s)) s.
Proof.
  unfold _save, torch_save, os_rename. fold (own_dir s). intros H.
  inv_ok H. inv_ok H. inv_ok H. simplify_eq.
  assert (a = <["checkpoint_tmp" := File (_get_checkpoint_dict s)]> (own_dir s)) as ->.
  { destruct (own_dir s !! "checkpoint_tmp") as [[?|]|]; by simplify_eq. }
  rewrite lookup_insert_eq in E0.
  assert (a0 = written_dir s) as ->.
  { unfold written_dir. rewrite <- (delete_insert_eq (own_dir s) "checkpoint_tmp"
                                      (File (_get_checkpoint_dict s))).
    destruct (_ !! checkpoint_name _ _) as [[?|]|]; by simplify_eq. }
  assert (own_dir (set_fs (<[policy_id s := a1]> (fs s)) s) = a1) as ->; [|done].
  unfold own_dir, checkpoint_dir. cbn. by rewrite lookup_insert_eq.
Qed.

Lemma save_within (s : Learner) :
  only_files (own_dir s) →
  Py.len (get_checkpoints (written_dir s)) ≤ keep_checkpoints (cfg s) →
  _save s = Ok (set_fs (<[policy_id s := written_dir s]> (fs s)) s).
Proof.
  intros Hfiles Hlen. unfold _save, torch_save, os_rename. fold (own_dir s).
  assert ((match own_dir s !! "checkpoint_tmp" with
           | Some Directory => Raise OSError
           | _ => Ok (<["checkpoint_tmp" := File (_get_checkpoint_dict s)]> (own_dir s))
           end) = Ok (<["checkpoint_tmp" := File (_get_checkpoint_dict s)]> (own_dir s)))
    as ->.
  { destruct (own_dir s !! "checkpoint_tmp") as [e|] eqn:He; [|done].
    by destruct (Hfiles _ _ He) as [ck ->]. }
  rewrite ret_bind, lookup_insert_eq.
  set (d1 := <["checkpoint_tmp" := _]> (own_dir s)).
  assert (only_files d1) as Hfiles1 by (by apply only_files_insert).
  assert ((match d1 !! checkpoint_name (train_step s) (env_steps s) with
           | Some Directory => Raise OSError
           | _ => Ok (<[checkpoint_name (train_step s) (env_steps s)
                        := File (_get_checkpoint_dict s)]> (delete "checkpoint_tmp" d1))
           end) = Ok (written_dir s)) as ->.
  { unfold written_dir, d1. rewrite delete_insert_eq.
    destruct (_ !! checkpoint_name _ _) as [e|] eqn:He; [|done].
    by destruct (Hfiles1 _ _ He) as [ck ->]. }
  rewrite ret_bind, remove_old_within by done. by rewrite ret_bind.
Qed.

Lemma saves_snoc (steps : list (Z * Z)) (step : Z * Z) (s : Learner) :
  saves (steps ++ [step]) s = (s' ← saves steps s; save_at step s').
Proof.
  unfold saves. rewrite for_each_app. destruct (for_each save_at steps s); cbn; [|done..].
  by destruct (save_at step a).
Qed.

(** While the limit is not reached, each save adds its checkpoint and
    removes none. *)
Lemma saves_within (steps : list (Z * Z)) (s : Learner) :
  own_dir s = ∅ → Py.len steps ≤ keep_checkpoints (cfg s) →
  ∃ s', saves steps s = Ok s' ∧
        policy_id s' = policy_id s ∧ cfg s' = cfg s ∧
        holds_saves (own_dir s') steps.
Proof.
  intros Hempty. induction steps as [|step steps IH] using rev_ind; intros Hlen.
  { exists s. split_and!; try done. rewrite Hempty. split_and!.
    - by intros name e H.
    - done.
    - intros name. rewrite lookup_empty. split; [by intros [? ?]|].
      intros (step & Hstep & _). by apply not_elem_of_nil in Hstep. }
  unfold Py.len in *. rewrite length_app in Hlen. cbn in Hlen.
  destruct IH as (s1 & Hsaves & Hpid & Hcfg & Hfiles & Hsize & Hnames); [lia|].
  set (s2 := set_env_steps step.2 (set_train_step step.1 s1)).
  assert (own_dir s2 = own_dir s1) as Hown by done.
  assert (own_dir s1 !! "checkpoint_tmp" = None) as Htmp.
  { apply eq_None_not_Some. intros (step' & _ & Hname)%Hnames.
    by eapply checkpoint_name_not_tmp. }
  assert (written_dir s2
          = <[checkpoint_name step.1 step.2 := File (_get_checkpoint_dict s2)]> (own_dir s1))
    as Hwritten.
  { unfold written_dir. rewrite Hown, delete_id by done. done. }
  assert (size (written_dir s2) ≤ S (length steps))%nat as Hsize2.
  { rewrite Hwritten.
    destruct (own_dir s1 !! checkpoint_name step.1 step.2) as [e|] eqn:He.
    - rewrite map_size_insert_Some by done. lia.
    - rewrite map_size_insert_None by done. lia. }
  exists (set_fs (<[policy_id s2 := written_dir s2]> (fs s2)) s2).
  split_and!.
  - rewrite saves_snoc, Hsaves, ret_bind. unfold save_at. fold s2.
    apply save_within; [by rewrite Hown|].
    replace (cfg s2) with (cfg s) by done.
    pose proof (length_get_checkpoints (written_dir s2)). unfold Py.len. lia.
  - done.
  - done.
  - assert (own_dir (set_fs (<[policy_id s2 := written_dir s2]> (fs s2)) s2)
            = written_dir s2) as ->.
    { unfold own_dir, checkpoint_dir. cbn. by rewrite lookup_insert_eq. }
    split_and!.
    + rewrite Hwritten. by apply only_files_insert.
    + rewrite length_app. cbn. lia.
    + intros name. rewrite Hwritten. setoid_rewrite elem_of_app.
      setoid_rewrite list_elem_of_singleton.
      destruct (decide (name = checkpoint_name step.1 step.2)) as [->|Hne].
      * rewrite lookup_insert_eq. split; [|done]. intros _. exists step. auto.
      * rewrite lookup_insert_ne by done. rewrite Hnames.
        split; intros (step' & Hstep' & Hname); exists step'.
        -- auto.
        -- destruct Hstep' as [?| ->]; done.
Qed.

Lemma string_le_lt (x y : string) : String.le x y → x ≠ y → String.compare x y = Lt.
Proof.
  unfold String.le, String.leb. intros Hle Hne.
  destruct (String.compare x y) eqn:Hcmp; [|done..].
  by apply String.compare_eq_iff in Hcmp.
Qed.

(** [C5] After a call of [_save] that returns, at most
    [keep_checkpoints] entries of the policy's directory match
    [checkpoint_*]; what the call removed is a prefix of the sorted list
    of these entries, each name of it below every name that stays, and
    the other entries are as the write and the rename left them.  Among
    checkpoints that [_save] has named at train steps below a billion
    the removed ones are the oldest: none has a greater train step than
    one that stays.  And the first [keep_checkpoints - 1] saves into an
    empty directory all return and leave the checkpoint of every one of
    them in place. *)
Theorem save_rotation (s s' : Learner) :
  _save s = Ok s' →
  Py.len (get_checkpoints (own_dir s')) ≤ keep_checkpoints (cfg s) ∧
  (∃ removed,
     get_checkpoints (written_dir s) = removed ++ get_checkpoints (own_dir s') ∧
     (∀ name, own_dir s' !! name
              = if decide (name ∈ removed) then None else written_dir s !! name) ∧
     (∀ x y, x ∈ removed → y ∈ get_checkpoints (own_dir s') →
             String.compare x y = Lt) ∧
     (∀ train_step1 env_steps1 train_step2 env_steps2,
        checkpoint_name train_step1 env_steps1 ∈ removed →
        checkpoint_name train_step2 env_steps2 ∈ get_checkpoints (own_dir s') →
        0 ≤ train_step1 < 10 ^ 9 → 0 ≤ train_step2 < 10 ^ 9 →
        train_step1 ≤ train_step2)) ∧
  (∀ (steps : list (Z * Z)) (s0 : Learner),
     own_dir s0 = ∅ → Py.len steps ≤ keep_checkpoints (cfg s0) - 1 →
     ∃ sn, saves steps s0 = Ok sn ∧
           ∀ name, is_Some (own_dir sn !! name)
                   ↔ ∃ step, step ∈ steps ∧ name = checkpoint_name step.1 step.2).
Proof.
  intros H. apply save_inv in H as [H _].
  apply remove_old_Ok in H as (Hlen & removed & Hsplit & Hlookup).
  assert (∀ x y, x ∈ removed → y ∈ get_checkpoints (own_dir s') →
                 String.compare x y = Lt) as Hbelow.
  { intros x y Hx Hy.
    pose proof (sorted_get_checkpoints (written_dir s)) as Hsorted.
    pose proof (NoDup_get_checkpoints (written_dir s)) as Hnodup.
    rewrite Hsplit in Hsorted, Hnodup. apply string_le_lt.
    - by eapply StronglySorted_app_1_elem_of.
    - apply NoDup_app in Hnodup as (_ & Hdisjoint & _). intros ->.
      by eapply Hdisjoint. }
  split_and!; [done| |].
  - exists removed. split_and!; [done..|].
    intros train_step1 env_steps1 train_step2 env_steps2 Hremoved Hkept Hrange1 Hrange2.
    destruct (Z.le_gt_cases train_step1 train_step2) as [Hle|Hgt]; [done|].
    pose proof (Hbelow _ _ Hremoved Hkept) as Hcmp.
    pose proof (checkpoint_name_lt train_step2 env_steps2 train_step1 env_steps1
                  ltac:(lia) Hgt ltac:(lia)) as Hcmp'.
    rewrite String.compare_antisym, Hcmp' in Hcmp. discriminate Hcmp.
  - intros steps s0 Hempty Hsteps.
    destruct (saves_within steps s0) as (sn & Hsaves & _ & _ & _ & _ & Hnames);
      [done|lia|]. by exists sn.
Qed.

Lemma load_checkpoint_inv (d : dir) (checkpoints : list string) (ck : Checkpoint) :
  load_checkpoint checkpoints d = Ok (Some ck) →
  ∃ name, last checkpoints = Some name ∧ d !! name = Some (File ck).
Proof.
  unfold load_checkpoint. destruct (Py.len checkpoints <=? 0); [done|].
  intros H. inv_ok H. inv_ok H. simplify_eq. rename a into name.
  rewrite index_last in E. destruct (last checkpoints) as [name'|]; [|done].
  simplify_eq. exists name. split; [done|].
  unfold torch_load in E0. by destruct (d !! name) as [[?|]|]; simplify_eq.
Qed.

(** The last element of a sorted list is its greatest. *)
Lemma sorted_last_greatest (l : list string) (greatest x : string) :
  StronglySorted String.le l → last l = Some greatest → x ∈ l → String.le x greatest.
Proof.
  intros Hsorted Hlast Hx.
  destruct l as [|y l _] using rev_ind; [done|].
  rewrite last_snoc in Hlast. simplify_eq.
  apply elem_of_app in Hx as [Hx|Hx%list_elem_of_singleton].
  - eapply StronglySorted_app_1_elem_of; [done..|]. by apply list_elem_of_singleton.
  - by subst.
Qed.

(** [C6] (as amended) [get_checkpoints] lists the entries that match
    [checkpoint_*] in the order of their names as strings, and
    [load_checkpoint] loads the last of them.  When these entries have
    the names that [_save] gives, with train steps from [0] up to, and
    not including, a billion, the last is one with the greatest train
    step. *)
Theorem latest_checkpoint_selected (d : dir) :
  (StronglySorted String.le (get_checkpoints d) ∧
   ∀ name, name ∈ get_checkpoints d ↔ glob_checkpoint name ∧ is_Some (d !! name)) ∧
  (∀ ck, load_checkpoint (get_checkpoints d) d = Ok (Some ck) →
         ∃ name, last (get_checkpoints d) = Some name ∧ d !! name = Some (File ck)) ∧
  ((∀ name, name ∈ get_checkpoints d →
            ∃ train_step env_steps,
              name = checkpoint_name train_step env_steps ∧ 0 ≤ train_step < 10 ^ 9) →
   ∀ name, last (get_checkpoints d) = Some name →
     ∃ train_step env_steps,
       name = checkpoint_name train_step env_steps ∧
       ∀ train_step' env_steps',
         0 ≤ train_step' < 10 ^ 9 →
         checkpoint_name train_step' env_steps' ∈ get_checkpoints d →
         train_step' ≤ train_step).
Proof.
  split; [|split].
  - split; [apply sorted_get_checkpoints|apply elem_of_get_checkpoints].
  - intros ck. apply load_checkpoint_inv.
  - intros Hnames name Hlast.
    assert (name ∈ get_checkpoints d) as Hin.
    { rewrite last_lookup in Hlast. by eapply list_elem_of_lookup_2. }
    destruct (Hnames _ Hin) as (ts & es & -> & Hts). exists ts, es. split; [done|].
    intros ts' es' Hts' Hin'.
    pose proof (sorted_last_greatest _ _ _ (sorted_get_checkpoints d) Hlast Hin') as Hle.
    destruct (Z.le_gt_cases ts' ts) as [|Hgt]; [done|]. exfalso.
    pose proof (checkpoint_name_lt ts es ts' es' ltac:(lia) ltac:(lia) ltac:(lia)) as Hlt.
    unfold String.le, String.leb in Hle.
    rewrite String.compare_antisym, Hlt in Hle. done.
Qed.

(** ** The train step and the broadcasts ([C9]) *)

Lemma save_train_step (s s' : Learner) :
  _save s = Ok s' → train_step s' = train_step s.
Proof. intros [_ ->]%save_inv. done. Qed.

Lemma maybe_save_train_step (s s' : Learner) :
  _maybe_save s = Ok s' → train_step s' = train_step s.
Proof.
  unfold _maybe_save. intros H.
  destruct (_ || _); [|by simplify_eq].
  inv_ok H. simplify_eq. cbn. by apply save_train_step.
Qed.

Lemma after_optimizer_step_train_step (s s' : Learner) :
  _after_optimizer_step s = Ok s' → train_step s' = train_step s + 1.
Proof. intros H%maybe_save_train_step. by rewrite H. Qed.

Lemma get_minibatches_count (n : Z) (s s' : Learner) (minibatches : list (option (list Z))) :
  _get_minibatches n s = Ok (minibatches, s') →
  train_step s' = train_step s ∧
  Z.of_nat (length minibatches) = minibatch_count (cfg s) n ∧
  1 ≤ minibatch_count (cfg s) n.
Proof.
  unfold _get_minibatches, minibatch_count. intros H. repeat inv_ok H.
  destruct (macro_batch (cfg s) =? batch_size (cfg s)); [by simplify_eq|].
  repeat inv_ok H. simplify_eq. cbn in *.
  apply split_inv in E4 as [Hk Hlen].
  unfold Py.floordiv in E3. destruct (batch_size (cfg s) =? 0); [done|].
  simplify_eq. rewrite length_fmap, Hlen. lia.
Qed.

Lemma train_minibatch_train_step (buffer : Buffer) (indices : option (list Z))
    (s s' : Learner) (kl : Qc) :
  train_minibatch buffer indices s = Ok (kl, s') → train_step s' = train_step s + 1.
Proof.
  unfold train_minibatch. intros H.
  inv_ok H. destruct a as [[parameters opt] kl']. inv_ok H. simplify_eq.
  by apply after_optimizer_step_train_step in E0.
Qed.

Lemma train_minibatches_train_step (buffer : Buffer)
    (minibatches : list (option (list Z))) (kl0 kl : Qc) (s s' : Learner) :
  train_minibatches buffer minibatches kl0 s = Ok (kl, s') →
  train_step s' = train_step s + Z.of_nat (length minibatches).
Proof.
  revert kl0 s; induction minibatches as [|i mbs IH]; intros kl0 s H; cbn in H.
  - simplify_eq. cbn. lia.
  - inv_ok H. destruct a as [kl1 s1].
    apply train_minibatch_train_step in E. apply IH in H. cbn [length]. lia.
Qed.

Lemma train_epochs_train_step (epochs : nat) (buffer : Buffer) (n : Z)
    (kl0 kl : Qc) (s s' : Learner) :
  train_epochs epochs buffer n kl0 s = Ok (kl, s') →
  train_step s' = train_step s + Z.of_nat epochs * minibatch_count (cfg s) n ∧
  ((0 < epochs)%nat → 1 ≤ minibatch_count (cfg s) n).
Proof.
  revert kl0 s; induction epochs as [|e IH]; intros kl0 s H; cbn in H.
  - simplify_eq. split; cbn; lia.
  - inv_ok H. destruct a as [mbs s1]. inv_ok H. destruct a as [kl1 s2].
    pose proof (get_minibatches_same_kl _ _ _ _ E) as (Hcfg1 & _).
    pose proof (train_minibatches_same_kl _ _ _ _ _ _ E0) as (Hcfg2 & _).
    apply get_minibatches_count in E as (Hstep1 & Hcount & Hpos).
    apply train_minibatches_train_step in E0.
    apply IH in H as [Hstep _]. rewrite Hcfg2, Hcfg1 in Hstep.
    split; [lia|done].
Qed.

(** [_train] adds the number of its optimiser steps to [train_step]. *)
Lemma train_train_step (buffer : Buffer) (n : Z) (s s' : Learner) :
  _train buffer n s = Ok s' →
  train_step s'
    = train_step s + Z.of_nat (Z.to_nat (ppo_epochs (cfg s))) * minibatch_count (cfg s) n ∧
  (1 ≤ ppo_epochs (cfg s) → 1 ≤ minibatch_count (cfg s) n) ∧
  policy_id s' = policy_id s ∧ cfg s' = cfg s ∧
  load_policy_id s' = load_policy_id s ∧ new_cfg s' = new_cfg s ∧
  policy_worker_queues s' = policy_worker_queues s.
Proof.
  unfold _train. intros H. inv_ok H. destruct a as [kl s1]. simplify_eq.
  pose proof (train_epochs_same_kl _ _ _ _ _ _ _ E) as (Hcfg & _ & Hpid & Hload & Hnew & Hq).
  apply train_epochs_train_step in E as [Hstep Hpos].
  assert (∀ s2, adjust_kl_coeff kl s2 = set_kl_coeff (kl_coeff (adjust_kl_coeff kl s2)) s2)
    as Hadjust.
  { intros s2. unfold adjust_kl_coeff. repeat case_decide; by destruct s2. }
  rewrite Hadjust. cbn. split_and!; try done. intros Hepochs. apply Hpos. lia.
Qed.

Lemma load_from_checkpoint_frame (policy_id' : Z) (s s' : Learner) :
  load_from_checkpoint policy_id' s = Ok s' →
  (policy_id' ≠ policy_id s → train_step s' = train_step s) ∧
  policy_id s' = policy_id s ∧ cfg s' = cfg s ∧
  load_policy_id s' = load_policy_id s ∧ new_cfg s' = new_cfg s ∧
  policy_worker_queues s' = policy_worker_queues s.
Proof.
  unfold load_from_checkpoint. intros H. inv_ok H.
  destruct a as [ck|]; [|by simplify_eq].
  simplify_eq. unfold _load_state. case_bool_decide; cbn; split_and!; done.
Qed.

Lemma update_pbt_plain (s s' : Learner) :
  load_policy_id s ≠ Some (policy_id s) →
  _update_pbt s = Ok s' →
  train_step s' = train_step s ∧ policy_id s' = policy_id s ∧
  policy_worker_queues s' = policy_worker_queues s ∧
  load_policy_id s' = None ∧ new_cfg s' = None ∧
  (cfg s' = cfg s ∨ ∃ update, new_cfg s = Some update ∧ cfg s' = update (cfg s)).
Proof.
  intros Hother. unfold _update_pbt. intros H. inv_ok H.
  assert (train_step a = train_step s ∧ policy_id a = policy_id s ∧
          cfg a = cfg s ∧ load_policy_id a = None ∧ new_cfg a = new_cfg s ∧
          policy_worker_queues a = policy_worker_queues s)
    as (Hstep & Hpid & Hcfg & Hload & Hnew & Hq).
  { destruct (load_policy_id s) as [pid|] eqn:Hpid; [|by simplify_eq].
    inv_ok E. inv_ok E. simplify_eq.
    apply load_from_checkpoint_frame in E0 as (Hstep & ? & ? & ? & ? & ?).
    cbn. split_and!; try done. apply Hstep. congruence. }
  destruct (new_cfg a) as [update|] eqn:Hupdate; simplify_eq; cbn.
  - split_and!; try done. right. exists update. by rewrite Hcfg.
  - split_and!; try done. by left.
Qed.

Lemma same_control_refl (s : Learner) : same_control s s.
Proof. by repeat split. Qed.

Lemma same_control_trans (s1 s2 s3 : Learner) :
  same_control s1 s2 → same_control s2 s3 → same_control s1 s3.
Proof. intros (?&?&?&?&?&?) (?&?&?&?&?&?). split_and!; congruence. Qed.

Lemma run_invariant_same_control (policy_id' : Z) (s s' : Learner) :
  run_invariant policy_id' s → same_control s s' → run_invariant policy_id' s'.
Proof.
  intros (Hpid & Hepochs & Hload & Hnew & Hq) (Hstep' & Hpid' & Hcfg' & Hload' & Hnew' & Hq').
  unfold run_invariant. rewrite Hstep', Hpid', Hcfg', Hload', Hnew', Hq'. done.
Qed.

Lemma mark_all_same_control (rollouts : list Rollout) (s s' : Learner) :
  for_each _mark_rollout_buffer_free rollouts s = Ok s' → same_control s s'.
Proof. intros H%mark_all_frame. rewrite H. by repeat split. Qed.

Lemma process_rollouts_same_control (rollouts rest : list Rollout) (work_done : bool)
    (s s' : Learner) :
  _process_rollouts rollouts s = Ok (rest, work_done, s') → same_control s s'.
Proof.
  intros H. apply process_rollouts_inv in H as (n & _ & H).
  destruct H as [(_ & _ & _ & ->)|(_ & k & s1 & s2 & _ & _ & _ & Hmark & Hs2 & H)].
  { apply same_control_refl. }
  apply mark_all_same_control in Hmark.
  assert (same_control s s2) as Hs2'.
  { eapply same_control_trans; [exact Hmark|]. rewrite Hs2. by repeat split. }
  destruct H as [(_ & _ & _ & Hbatch)|(_ & _ & _ & ->)]; [|done].
  apply process_macro_batch_inv in Hbatch as (s3 & samples & env_steps & Hmark3 & ->).
  apply mark_all_same_control in Hmark3.
  eapply same_control_trans; [exact Hs2'|].
  eapply same_control_trans; [exact Hmark3|]. by repeat split.
Qed.

Lemma init_rollout_tensors_same_control (data : InitTensors) (s s' : Learner) :
  _init_rollout_tensors data s = Ok s' → same_control s s'.
Proof.
  unfold _init_rollout_tensors. intros H. inv_ok H. inv_ok H. simplify_eq.
  eapply same_control_trans; [|by repeat split].
  revert E. apply (for_each_invariant _ (same_control s) (λ _, True)).
  - intros [[env_idx agent_idx] rollout_data] s1 s2 _ Hs1 H. inv_ok H. simplify_eq.
    eapply same_control_trans; [exact Hs1|]. by repeat split.
  - by apply Forall_true.
  - apply same_control_refl.
Qed.

Lemma handle_task_plain (policy_id' : Z) (t : Task) (rollouts rollouts' : list Rollout)
    (s s' : Learner) :
  run_invariant policy_id' s → plain_event policy_id' (MainTask t) →
  handle_task t rollouts s = Ok (rollouts', s') →
  run_invariant policy_id' s' ∧ train_step s' = train_step s.
Proof.
  intros Hinv Hplain H. pose proof Hinv as (Hpid & Hepochs & Hload & Hnew & Hq).
  destruct t as [| |data|data|task|]; cbn in H.
  - by simplify_eq.
  - simplify_eq. split; [|done].
    eapply run_invariant_same_control; [done|]. by repeat split.
  - inv_ok H. simplify_eq. apply init_rollout_tensors_same_control in E.
    split; [by eapply run_invariant_same_control|]. by destruct E.
  - inv_ok H. by simplify_eq.
  - inv_ok H. simplify_eq. unfold _process_pbt_task in E.
    destruct task as [pid|pid new_policy_id|pid update]; inv_ok E; simplify_eq.
    + split; [|done]. eapply run_invariant_same_control; [done|]. by repeat split.
    + split; [|done]. cbn in Hplain. unfold run_invariant. cbn.
      split_and!; try done. congruence.
    + split; [|done]. cbn in Hplain. unfold run_invariant. cbn.
      split_and!; try done. by intros ? [= <-].
  - by simplify_eq.
Qed.

Lemma broadcast_queues (discarding_rate : Py.num) (s : Learner) :
  policy_worker_queues (_broadcast_weights discarding_rate s)
  = (λ q, q ++ [(train_step s, actor_critic s, discarding_rate)]) <$> policy_worker_queues s.
Proof. done. Qed.

(** A broadcast at a train step above those of the queues keeps their
    versions increasing. *)
Lemma broadcast_sorted (discarding_rate : Py.num) (bound : Z) (s : Learner) :
  bound < train_step s →
  Forall (λ queue, StronglySorted Z.lt (versions queue) ∧
                   Forall (λ v, v ≤ bound) (versions queue))
         (policy_worker_queues s) →
  Forall (λ queue, StronglySorted Z.lt (versions queue) ∧
                   Forall (λ v, v ≤ train_step s) (versions queue))
         (policy_worker_queues (_broadcast_weights discarding_rate s)).
Proof.
  intros Hbound Hq. rewrite broadcast_queues. apply Forall_fmap.
  eapply Forall_impl; [exact Hq|]. intros q [Hsorted Hle]. cbn.
  unfold versions in *. rewrite fmap_app. cbn. split.
  - apply StronglySorted_app_2; [|done|repeat constructor].
    intros v1 v2 Hv1 ->%list_elem_of_singleton.
    rewrite Forall_forall in Hle. specialize (Hle _ Hv1). lia.
  - apply Forall_app. split; [|by repeat constructor].
    eapply Forall_impl; [exact Hle|]. intros v Hv. cbn in Hv. lia.
Qed.

Lemma process_training_data_plain (policy_id' : Z) (data : Buffer * Z * Z)
    (s s' : Learner) :
  run_invariant policy_id' (set_experience_buffer_queue [] s) →
  _process_training_data data s = Ok s' →
  run_invariant policy_id' s' ∧ train_step s ≤ train_step s' ∧
  (with_training s = true → train_step s < train_step s').
Proof.
  intros (Hpid & Hepochs & Hload & Hnew & Hq) H. cbn in Hpid, Hepochs, Hload, Hnew, Hq.
  unfold _process_training_data in H. destruct data as [[buffer samples] env_steps'].
  inv_ok H. rename a into discarding_rate.
  replace (with_training (set_env_steps (env_steps s + env_steps') s))
    with (with_training s) in H by done.
  destruct (with_training s) eqn:Hwith.
  2:{ injection H as <-. split; [|split; [cbn; lia|done]]. by repeat split. }
  inv_ok H. inv_ok H. simplify_eq. rename a into s1, a0 into s2.
  apply update_pbt_plain in E0
    as (Hstep1 & Hpid1 & Hq1 & Hload1 & Hnew1 & Hcfg1); [|cbn; congruence].
  apply train_train_step in E1
    as (Hstep2 & Hcount & Hpid2 & Hcfg2 & Hload2 & Hnew2 & Hq2).
  cbn in Hstep1, Hpid1, Hq1, Hcfg1.
  assert (1 ≤ ppo_epochs (cfg s1)) as Hepochs1.
  { destruct Hcfg1 as [->|(update & Hupdate & ->)]; [done|]. by eapply Hnew. }
  assert (train_step s < train_step s2) as Hlt.
  { specialize (Hcount Hepochs1). rewrite Hstep2, Hstep1.
    assert (0 < Z.of_nat (Z.to_nat (ppo_epochs (cfg s1)))) by lia. nia. }
  split; [|split; [cbn; lia|done]].
  unfold run_invariant. split_and!; cbn.
  - congruence.
  - by rewrite Hcfg2.
  - by rewrite Hload2, Hload1.
  - intros update. by rewrite Hnew2, Hnew1.
  - apply (broadcast_sorted _ (train_step s)); [done|]. by rewrite Hq2, Hq1.
Qed.

Lemma step_plain (policy_id' : Z) (e : event) (rollouts rollouts' : list Rollout)
    (s s' : Learner) :
  run_invariant policy_id' s → plain_event policy_id' e →
  step e (rollouts, s) = Ok (rollouts', s') →
  run_invariant policy_id' s' ∧ train_step s ≤ train_step s' ∧
  (train_step s' = train_step s ∨ e = TrainerPass).
Proof.
  intros Hinv Hplain H. destruct e as [t|now|]; cbn in H.
  - apply (handle_task_plain policy_id') in H as [? Hstep]; [|done..].
    split_and!; [done|lia|by left].
  - destruct (1 <? Py.len (experience_buffer_queue s)); [simplify_eq; auto with lia|].
    inv_ok H. destruct a as [[rest work_done] s1]. simplify_eq.
    apply process_rollouts_same_control in E.
    assert (same_control s (_experience_collection_rate_stats now s1)) as Hsame.
    { eapply same_control_trans; [exact E|].
      unfold _experience_collection_rate_stats. case_decide; by repeat split. }
    split_and!; [by eapply run_invariant_same_control| |left]; destruct Hsame; lia.
  - destruct (terminate s); [simplify_eq; auto with lia|].
    destruct (experience_buffer_queue s) as [|data queue]; [simplify_eq; auto with lia|].
    inv_ok H. simplify_eq.
    apply (process_training_data_plain policy_id') in E as (? & Hle & _).
    + cbn in Hle. auto.
    + eapply run_invariant_same_control; [done|]. by repeat split.
Qed.

Lemma run_plain (policy_id' : Z) (events : list event) (rollouts rollouts' : list Rollout)
    (s s' : Learner) :
  run_invariant policy_id' s → Forall (plain_event policy_id') events →
  for_each step events (rollouts, s) = Ok (rollouts', s') →
  run_invariant policy_id' s' ∧ train_step s ≤ train_step s'.
Proof.
  intros Hinv Hevents. revert rollouts s Hinv.
  induction Hevents as [|e events He Hevents IH]; intros rollouts s Hinv H; cbn in H.
  - simplify_eq. split; [done|lia].
  - inv_ok H. destruct a as [rollouts1 s1].
    apply (step_plain policy_id') in E as (Hinv1 & Hle1 & _); [|done..].
    apply IH in H as [? ?]; [|done]. split; [done|lia].
Qed.

Lemma initialize_invariant (policy_id' : Z) (c : Config) (queues : nat)
    (fs : gmap Z dir) (s : Learner) :
  1 ≤ ppo_epochs c →
  initialize (new_learner policy_id' c queues fs) = Ok s →
  run_invariant policy_id' s.
Proof.
  intros Hepochs. unfold initialize. intros H. inv_ok H. inv_ok H. simplify_eq.
  apply load_from_checkpoint_frame in E as (_ & Hpid & Hcfg & Hload & Hnew & Hq).
  cbn in Hpid, Hcfg, Hload, Hnew, Hq.
  split_and!; cbn; try done.
  - by rewrite Hcfg.
  - by rewrite Hload.
  - intros update. by rewrite Hnew.
  - rewrite Hq. apply Forall_fmap, Forall_forall. intros q ->%elem_of_replicate_inv.
    cbn. split; repeat constructor. lia.
Qed.

(** The main thread does not write [train_step]. *)
Lemma main_thread_train_step (e : event) (rollouts rollouts' : list Rollout)
    (s s' : Learner) :
  e ≠ TrainerPass → step e (rollouts, s) = Ok (rollouts', s') →
  train_step s' = train_step s.
Proof.
  intros He H. destruct e as [t|now|]; [| |done]; cbn in H.
  - destruct t as [| |data|data|task|]; cbn in H.
    + by simplify_eq.
    + by simplify_eq.
    + inv_ok H. simplify_eq. by apply init_rollout_tensors_same_control in E as [? _].
    + inv_ok H. by simplify_eq.
    + inv_ok H. simplify_eq. unfold _process_pbt_task in E.
      destruct task; inv_ok E; by simplify_eq.
    + by simplify_eq.
  - destruct (1 <? Py.len (experience_buffer_queue s)); [by simplify_eq|].
    inv_ok H. destruct a as [[rest work_done] s1]. simplify_eq.
    apply process_rollouts_same_control in E as [<- _].
    unfold _experience_collection_rate_stats. by case_decide.
Qed.

(** [C9] (as amended) In a run in which [ppo_epochs] stays at least [1]
    and no [LOAD_MODEL] message names the learner's own policy, the
    policy versions put on each policy worker queue increase strictly
    from one broadcast to the next and [train_step] never decreases.
    The main thread leaves [train_step] alone, [_after_optimizer_step]
    adds [1] to it, and [_train] adds the number of its optimiser
    steps. *)
Theorem broadcast_versions_increase (policy_id' : Z) (c : Config) (queues : nat)
    (fs : gmap Z dir) (events : list event) (rollouts : list Rollout) (s : Learner) :
  1 ≤ ppo_epochs c →
  Forall (plain_event policy_id') events →
  learner_process policy_id' c queues fs events = Ok (rollouts, s) →
  Forall (λ queue, StronglySorted Z.lt (versions queue)) (policy_worker_queues s) ∧
  (∀ events1 events2 rollouts1 s1,
     events = events1 ++ events2 →
     learner_process policy_id' c queues fs events1 = Ok (rollouts1, s1) →
     train_step s1 ≤ train_step s) ∧
  (∀ e rollouts1 s1 rollouts2 s2,
     e ≠ TrainerPass → step e (rollouts1, s1) = Ok (rollouts2, s2) →
     train_step s2 = train_step s1) ∧
  (∀ s1 s2, _after_optimizer_step s1 = Ok s2 → train_step s2 = train_step s1 + 1) ∧
  (∀ buffer n s1 s2,
     _train buffer n s1 = Ok s2 →
     train_step s2
       = train_step s1
         + Z.of_nat (Z.to_nat (ppo_epochs (cfg s1))) * minibatch_count (cfg s1) n).
Proof.
  intros Hepochs Hevents H. unfold learner_process in H. inv_ok H. rename a into s0.
  pose proof (initialize_invariant _ _ _ _ _ Hepochs E) as Hinv0.
  split_and!.
  - apply (run_plain policy_id') in H as [(_ & _ & _ & _ & Hq) _]; [|done..].
    eapply Forall_impl; [exact Hq|]. by intros q [? _].
  - intros events1 events2 rollouts1 s1 -> H1.
    unfold learner_process in H1. rewrite E, ret_bind in H1.
    rewrite for_each_app, H1, ret_bind in H.
    apply Forall_app in Hevents as [Hevents1 Hevents2].
    apply (run_plain policy_id') in H1 as [Hinv1 _]; [|done..].
    by apply (run_plain policy_id') in H as [_ ?].
  - intros e rollouts1 s1 rollouts2 s2. apply main_thread_train_step.
  - apply after_optimizer_step_train_step.
  - intros buffer n s1 s2 H2. by apply train_train_step in H2 as [? _].
Qed.

(** * The rest of the learner *)

(** ** What each thread leaves alone *)

Lemma training_frame_refl (s : Learner) : training_frame s s.
Proof. by repeat split. Qed.

Lemma training_frame_trans (s1 s2 s3 : Learner) :
  training_frame s1 s2 → training_frame s2 s3 → training_frame s1 s3.
Proof.
  intros (Hpid1&?&?&?&?&?&?&?&?&?&?&?&?&?&Hfs1) (?&?&?&?&?&?&?&?&?&?&?&?&?&?&Hfs2).
  split_and!; try congruence.
  intros p Hp. rewrite Hfs2, Hfs1; [done..|congruence].
Qed.

Lemma save_training_frame (s s' : Learner) : _save s = Ok s' → training_frame s s'.
Proof.
  intros H. apply save_inv in H as [_ ->]. split_and!; try done.
  intros p Hp. cbn. by rewrite lookup_insert_ne.
Qed.

Lemma maybe_save_training_frame (s s' : Learner) :
  _maybe_save s = Ok s' → training_frame s s'.
Proof.
  unfold _maybe_save. intros H.
  destruct (_ || _); [|simplify_eq; apply training_frame_refl].
  inv_ok H. simplify_eq. apply save_training_frame in E.
  eapply training_frame_trans; [exact E|]. by repeat split.
Qed.

Lemma after_optimizer_step_training_frame (s s' : Learner) :
  _after_optimizer_step s = Ok s' → training_frame s s'.
Proof.
  intros H. apply maybe_save_training_frame in H.
  eapply training_frame_trans; [|exact H]. by repeat split.
Qed.

Lemma get_minibatches_training_frame (n : Z) (s s' : Learner)
    (minibatches : list (option (list Z))) :
  _get_minibatches n s = Ok (minibatches, s') → training_frame s s'.
Proof.
  unfold _get_minibatches. intros H.
  repeat inv_ok H. destruct (macro_batch (cfg s) =? batch_size (cfg s)).
  - simplify_eq. apply training_frame_refl.
  - repeat inv_ok H. simplify_eq. by repeat split.
Qed.

Lemma train_minibatch_training_frame (buffer : Buffer) (indices : option (list Z))
    (s s' : Learner) (kl : Qc) :
  train_minibatch buffer indices s = Ok (kl, s') → training_frame s s'.
Proof.
  unfold train_minibatch. intros H.
  inv_ok H. destruct a as [[parameters opt] kl']. inv_ok H. simplify_eq.
  apply after_optimizer_step_training_frame in E0.
  eapply training_frame_trans; [|exact E0]. by repeat split.
Qed.

Lemma train_minibatches_training_frame (buffer : Buffer)
    (minibatches : list (option (list Z))) (kl0 kl : Qc) (s s' : Learner) :
  train_minibatches buffer minibatches kl0 s = Ok (kl, s') → training_frame s s'.
Proof.
  revert kl0 s; induction minibatches as [|i mbs IH]; intros kl0 s H; cbn in H.
  - simplify_eq. apply training_frame_refl.
  - inv_ok H. destruct a as [kl1 s1].
    eapply training_frame_trans; [by eapply train_minibatch_training_frame|by eapply IH].
Qed.

Lemma train_epochs_training_frame (epochs : nat) (buffer : Buffer) (n : Z)
    (kl0 kl : Qc) (s s' : Learner) :
  train_epochs epochs buffer n kl0 s = Ok (kl, s') → training_frame s s'.
Proof.
  revert kl0 s; induction epochs as [|e IH]; intros kl0 s H; cbn in H.
  - simplify_eq. apply training_frame_refl.
  - inv_ok H. destruct a as [mbs s1]. inv_ok H. destruct a as [kl1 s2].
    eapply training_frame_trans; [by eapply get_minibatches_training_frame|].
    eapply training_frame_trans; [by eapply train_minibatches_training_frame|by eapply IH].
Qed.

Lemma train_training_frame (buffer : Buffer) (experience_size : Z) (s s' : Learner) :
  _train buffer experience_size s = Ok s' → training_frame s s'.
Proof.
  unfold _train. intros H. inv_ok H. destruct a as [kl s1]. simplify_eq.
  apply train_epochs_training_frame in E.
  eapply training_frame_trans; [exact E|].
  unfold adjust_kl_coeff. repeat case_decide; by repeat split.
Qed.

Lemma main_frame_refl (s : Learner) : main_frame s s.
Proof. by repeat split. Qed.

Lemma main_frame_trans (s1 s2 s3 : Learner) :
  main_frame s1 s2 → main_frame s2 s3 → main_frame s1 s3.
Proof.
  intros (?&?&?&?&?&?&?&?&?&?&?&?&?) (?&?&?&?&?&?&?&?&?&?&?&?&?).
  split_and!; congruence.
Qed.

Lemma mark_all_main_frame (rollouts : list Rollout) (s s' : Learner) :
  for_each _mark_rollout_buffer_free rollouts s = Ok s' → main_frame s s'.
Proof. intros H%mark_all_frame. rewrite H. by repeat split. Qed.

Lemma process_rollouts_main_frame (rollouts rest : list Rollout) (work_done : bool)
    (s s' : Learner) :
  _process_rollouts rollouts s = Ok (rest, work_done, s') → main_frame s s'.
Proof.
  intros H. apply process_rollouts_inv in H as (n & _ & H).
  destruct H as [(_ & _ & _ & ->)|(_ & k & s1 & s2 & _ & _ & _ & Hmark & Hs2 & H)].
  { apply main_frame_refl. }
  apply mark_all_main_frame in Hmark.
  assert (main_frame s s2) as Hs2'.
  { eapply main_frame_trans; [exact Hmark|]. rewrite Hs2. by repeat split. }
  destruct H as [(_ & _ & _ & Hbatch)|(_ & _ & _ & ->)]; [|done].
  apply process_macro_batch_inv in Hbatch as (s3 & samples & env_steps & Hmark3 & ->).
  apply mark_all_main_frame in Hmark3.
  eapply main_frame_trans; [exact Hs2'|].
  eapply main_frame_trans; [exact Hmark3|]. by repeat split.
Qed.

Lemma init_rollout_tensors_main_frame (data : InitTensors) (s s' : Learner) :
  _init_rollout_tensors data s = Ok s' → main_frame s s'.
Proof.
  unfold _init_rollout_tensors. intros H. inv_ok H. inv_ok H. simplify_eq.
  eapply main_frame_trans; [|by repeat split].
  revert E. apply (for_each_invariant _ (main_frame s) (λ _, True)).
  - intros [[env_idx agent_idx] rollout_data] s1 s2 _ Hs1 H. inv_ok H. simplify_eq.
    eapply main_frame_trans; [exact Hs1|]. by repeat split.
  - by apply Forall_true.
  - apply main_frame_refl.
Qed.

Lemma step_main_frame (e : event) (rollouts rollouts' : list Rollout)
    (s s' : Learner) :
  e ≠ TrainerPass → step e (rollouts, s) = Ok (rollouts', s') → main_frame s s'.
Proof.
  intros He H. destruct e as [t|now|]; [| |done]; cbn in H.
  - destruct t as [| |data|data|task|]; cbn in H.
    + simplify_eq. apply main_frame_refl.
    + simplify_eq. by repeat split.
    + inv_ok H. simplify_eq. by apply init_rollout_tensors_main_frame in E.
    + inv_ok H. simplify_eq. apply main_frame_refl.
    + inv_ok H. simplify_eq. unfold _process_pbt_task in E.
      destruct task as [pid|pid new_policy_id|pid update]; inv_ok E; simplify_eq;
        by repeat split.
    + simplify_eq. apply main_frame_refl.
  - destruct (1 <? Py.len (experience_buffer_queue s)).
    { simplify_eq. apply main_frame_refl. }
    inv_ok H. destruct a as [[rest work_done] s1]. simplify_eq.
    apply process_rollouts_main_frame in E.
    eapply main_frame_trans; [exact E|].
    unfold _experience_collection_rate_stats. case_decide; by repeat split.
Qed.

Lemma trainer_frame_refl (s : Learner) : trainer_frame s s.
Proof. by repeat split. Qed.

Lemma trainer_frame_trans (s1 s2 s3 : Learner) :
  trainer_frame s1 s2 → trainer_frame s2 s3 → trainer_frame s1 s3.
Proof.
  intros (?&?&?&?&?&?&?&?&?&?) (?&?&?&?&?&?&?&?&?&?). split_and!; congruence.
Qed.

Lemma training_frame_trainer_frame (s s' : Learner) :
  training_frame s s' → trainer_frame s s'.
Proof.
  intros (?&?&?&?&?&?&?&?&?&?&?&?&?&Hq&?). split_and!; try done. by rewrite Hq.
Qed.

Lemma load_from_checkpoint_trainer_frame (policy_id' : Z) (s s' : Learner) :
  load_from_checkpoint policy_id' s = Ok s' → trainer_frame s s'.
Proof.
  unfold load_from_checkpoint. intros H. inv_ok H.
  destruct a as [ck|]; simplify_eq; [|apply trainer_frame_refl].
  unfold _load_state. case_bool_decide; by repeat split.
Qed.

Lemma update_pbt_trainer_frame (s s' : Learner) :
  _update_pbt s = Ok s' → trainer_frame s s'.
Proof.
  unfold _update_pbt. intros H. inv_ok H.
  assert (trainer_frame s a) as Ha.
  { destruct (load_policy_id s) as [pid|]; [|simplify_eq; apply trainer_frame_refl].
    inv_ok E. inv_ok E. simplify_eq. apply load_from_checkpoint_trainer_frame in E0.
    eapply trainer_frame_trans; [exact E0|]. by repeat split. }
  eapply trainer_frame_trans; [exact Ha|].
  destruct (new_cfg a); simplify_eq; by repeat split.
Qed.

Lemma broadcast_trainer_frame (discarding_rate : Py.num) (s : Learner) :
  trainer_frame s (_broadcast_weights discarding_rate s).
Proof.
  unfold _broadcast_weights. split_and!; try done. cbn. by rewrite length_fmap.
Qed.

Lemma process_training_data_trainer_frame (data : Buffer * Z * Z) (s s' : Learner) :
  _process_training_data data s = Ok s' → trainer_frame s s'.
Proof.
  unfold _process_training_data. destruct data as [[buffer samples] env_steps'].
  intros H. inv_ok H. rename a into discarding_rate.
  replace (with_training (set_env_steps (env_steps s + env_steps') s))
    with (with_training s) in H by done.
  destruct (with_training s); [|simplify_eq; by repeat split].
  inv_ok H. inv_ok H. simplify_eq. rename a into s1, a0 into s2.
  apply update_pbt_trainer_frame in E0.
  apply train_training_frame, training_frame_trainer_frame in E1.
  eapply trainer_frame_trans; [|apply broadcast_trainer_frame].
  eapply trainer_frame_trans; [|exact E1].
  eapply trainer_frame_trans; [|exact E0]. by repeat split.
Qed.

(** A run of events from a state keeps what every event keeps. *)
Lemma run_keeps (P : Learner → Prop) (events : list event)
    (rollouts rollouts' : list Rollout) (s s' : Learner) :
  (∀ e r1 s1 r2 s2, e ∈ events → P s1 → step e (r1, s1) = Ok (r2, s2) → P s2) →
  P s → for_each step events (rollouts, s) = Ok (rollouts', s') → P s'.
Proof.
  intros Hstep Hs H.
  apply (for_each_invariant step (λ st, P st.2) (λ e, e ∈ events) events
           (rollouts, s) (rollouts', s')); [|by apply Forall_forall|done..].
  intros e [r1 s1] [r2 s2] He H1 H2. by eapply Hstep.
Qed.

(** The main thread never writes what training owns: whatever tasks it
    takes off the task queue and whatever rollouts it discards or
    batches, the model, the optimiser, [train_step], [env_steps],
    [kl_coeff], the policy worker queues and the checkpoints stay as
    they are. *)
Theorem main_thread_frame (events : list event) (rollouts rollouts' : list Rollout)
    (s s' : Learner) :
  Forall (λ e, e ≠ TrainerPass) events →
  for_each step events (rollouts, s) = Ok (rollouts', s') → main_frame s s'.
Proof.
  intros Hmain. apply (run_keeps (main_frame s)); [|apply main_frame_refl].
  intros e r1 s1 r2 s2 He Hs1 H. rewrite Forall_forall in Hmain.
  eapply main_frame_trans; [exact Hs1|]. eapply step_main_frame; [by apply Hmain|done].
Qed.

Lemma trainer_pass_inv (rollouts rollouts' : list Rollout) (s s' : Learner) :
  step TrainerPass (rollouts, s) = Ok (rollouts', s') →
  rollouts' = rollouts ∧
  (s' = s ∨
   terminate s = false ∧
   ∃ data queue,
     experience_buffer_queue s = data :: queue ∧
     _process_training_data data (set_experience_buffer_queue queue s) = Ok s').
Proof.
  intros H. cbn in H. destruct (terminate s); [by simplify_eq; auto|].
  destruct (experience_buffer_queue s) as [|data queue] eqn:Hqueue;
    [by simplify_eq; auto|].
  inv_ok H. simplify_eq. split; [done|]. right. split; [done|]. by exists data, queue.
Qed.

Lemma training_thread_frame_queue (rollouts rollouts' : list Rollout) (s s' : Learner) :
  step TrainerPass (rollouts, s) = Ok (rollouts', s') →
  (length (experience_buffer_queue s') ≤ length (experience_buffer_queue s))%nat.
Proof.
  intros H. apply trainer_pass_inv in H as [_ [->|(_ & data & queue & Hq & H)]]; [done|].
  apply process_training_data_trainer_frame in H as (_ & _ & _ & _ & Hq' & _).
  rewrite Hq', Hq. cbn. lia.
Qed.

(** A pass of the training thread never writes what the main thread
    owns: it takes at most one batch off the head of the experience
    queue and leaves the pending rollouts, the trajectory buffers and
    their readiness bitmaps, the statistics of discarded rollouts,
    [terminate] and [with_training] as they were, and adds or drops no
    policy worker queue. *)
Theorem training_thread_frame (rollouts rollouts' : list Rollout) (s s' : Learner) :
  step TrainerPass (rollouts, s) = Ok (rollouts', s') →
  rollouts' = rollouts ∧
  (experience_buffer_queue s' = experience_buffer_queue s ∨
   ∃ data, experience_buffer_queue s = data :: experience_buffer_queue s') ∧
  trainer_frame (set_experience_buffer_queue (experience_buffer_queue s') s) s'.
Proof.
  intros H. cbn in H. destruct (terminate s).
  { simplify_eq. split_and!; [done|by left|by destruct s']. }
  destruct (experience_buffer_queue s) as [|data queue] eqn:Hqueue.
  { simplify_eq. split_and!; [done|by left|]. rewrite Hqueue. by destruct s'. }
  inv_ok H. simplify_eq. apply process_training_data_trainer_frame in E.
  pose proof E as (_ & _ & _ & _ & Hq & _). cbn in Hq.
  split_and!; [done|right; exists data; by rewrite Hq|]. by rewrite Hq.
Qed.

(** ** Invariants of a run *)

Lemma initialize_trainer_frame (s s' : Learner) :
  initialize s = Ok s' → trainer_frame s s'.
Proof.
  unfold initialize. intros H. inv_ok H. inv_ok H. simplify_eq.
  apply load_from_checkpoint_trainer_frame in E.
  eapply trainer_frame_trans; [|apply broadcast_trainer_frame].
  eapply trainer_frame_trans; [|exact E]. by repeat split.
Qed.

Lemma handle_task_queue (t : Task) (rollouts rollouts' : list Rollout) (s s' : Learner) :
  handle_task t rollouts s = Ok (rollouts', s') →
  experience_buffer_queue s' = experience_buffer_queue s.
Proof.
  intros H. destruct t as [| |data|data|task|]; cbn in H.
  - by simplify_eq.
  - by simplify_eq.
  - inv_ok H. simplify_eq. unfold _init_rollout_tensors in E. inv_ok E. inv_ok E.
    simplify_eq. cbn. revert E0.
    apply (for_each_invariant _
             (λ s1, experience_buffer_queue s1 = experience_buffer_queue s) (λ _, True)).
    + intros [[env_idx agent_idx] rollout_data] s1 s2 _ Hs1 H. inv_ok H. by simplify_eq.
    + by apply Forall_true.
    + done.
  - inv_ok H. by simplify_eq.
  - inv_ok H. simplify_eq. unfold _process_pbt_task in E.
    by destruct task as [pid|pid new_policy_id|pid update]; inv_ok E; simplify_eq.
  - by simplify_eq.
Qed.

Lemma process_rollouts_queue (rollouts rest : list Rollout) (work_done : bool)
    (s s' : Learner) :
  _process_rollouts rollouts s = Ok (rest, work_done, s') →
  experience_buffer_queue s' = experience_buffer_queue s ∨
  ∃ batch, experience_buffer_queue s' = experience_buffer_queue s ++ [batch].
Proof.
  intros H. apply process_rollouts_inv in H as (n & _ & H).
  destruct H as [(_ & _ & _ & ->)|(_ & k & s1 & s2 & _ & _ & _ & Hmark & Hs2 & H)];
    [by left|].
  apply mark_all_frame in Hmark.
  assert (experience_buffer_queue s2 = experience_buffer_queue s) as Hq2.
  { rewrite Hs2. cbn. by rewrite Hmark. }
  destruct H as [(_ & _ & _ & Hbatch)|(_ & _ & _ & ->)]; [|by left].
  apply process_macro_batch_inv in Hbatch as (s3 & samples & env_steps & Hmark3 & ->).
  apply mark_all_frame in Hmark3. right. eexists. cbn. by rewrite Hmark3, <- Hq2.
Qed.

(** The experience queue never holds more than two batches: the main
    thread forms a macro-batch only while at most one is waiting, and
    each call of [_process_rollouts] forms at most one. *)
Theorem experience_queue_bounded (policy_id' : Z) (c : Config) (queues : nat)
    (fs0 : gmap Z dir) (events : list event) (rollouts : list Rollout) (s : Learner) :
  learner_process policy_id' c queues fs0 events = Ok (rollouts, s) →
  Py.len (experience_buffer_queue s) ≤ 2.
Proof.
  unfold learner_process. intros H. inv_ok H. rename a into s0.
  apply initialize_trainer_frame in E as (_ & _ & _ & _ & Hq0 & _). cbn in Hq0.
  revert H. apply (run_keeps (λ s1, Py.len (experience_buffer_queue s1) ≤ 2));
    [|by rewrite Hq0].
  intros e r1 s1 r2 s2 _ Hs1 H. destruct e as [t|now|]; cbn in H.
  - apply handle_task_queue in H. by rewrite H.
  - destruct (Z.ltb_spec 1 (Py.len (experience_buffer_queue s1))) as [|Hroom].
    { by simplify_eq. }
    inv_ok H. destruct a as [[rest work_done] s3]. simplify_eq.
    assert (experience_buffer_queue (_experience_collection_rate_stats now s3)
            = experience_buffer_queue s3) as ->.
    { unfold _experience_collection_rate_stats. by case_decide. }
    apply process_rollouts_queue in E as [->|[batch ->]]; [done|].
    unfold Py.len in *. rewrite length_app. cbn. lia.
  - apply training_thread_frame_queue in H. unfold Py.len in *. lia.
Qed.

Lemma trainer_pass_or_not (e : event) : e = TrainerPass ∨ e ≠ TrainerPass.
Proof. destruct e; auto. Qed.

Lemma load_from_checkpoint_fs (policy_id' : Z) (s s' : Learner) :
  load_from_checkpoint policy_id' s = Ok s' →
  fs s' = fs s ∧ policy_worker_queues s' = policy_worker_queues s.
Proof.
  unfold load_from_checkpoint. intros H. inv_ok H.
  destruct a as [ck|]; simplify_eq; [|done].
  unfold _load_state. by case_bool_decide.
Qed.

Lemma update_pbt_fs (s s' : Learner) :
  _update_pbt s = Ok s' →
  fs s' = fs s ∧ policy_worker_queues s' = policy_worker_queues s.
Proof.
  unfold _update_pbt. intros H. inv_ok H.
  assert (fs a = fs s ∧ policy_worker_queues a = policy_worker_queues s) as [Hfs Hq].
  { destruct (load_policy_id s) as [pid|]; [|by simplify_eq].
    inv_ok E. inv_ok E. simplify_eq. by apply load_from_checkpoint_fs in E0. }
  destruct (new_cfg a); by simplify_eq.
Qed.

(** What a batch does to the checkpoints and to the policy worker
    queues: only the learner's own directory is written, and with
    training on every queue gets the same update appended. *)
Lemma process_training_data_effects (data : Buffer * Z * Z) (s s' : Learner) :
  _process_training_data data s = Ok s' →
  (∀ p, p ≠ policy_id s → fs s' !! p = fs s !! p) ∧
  (policy_worker_queues s' = policy_worker_queues s ∨
   ∃ update, policy_worker_queues s'
             = (λ q, q ++ [update]) <$> policy_worker_queues s).
Proof.
  unfold _process_training_data. destruct data as [[buffer samples] env_steps'].
  intros H. inv_ok H. rename a into discarding_rate.
  replace (with_training (set_env_steps (env_steps s + env_steps') s))
    with (with_training s) in H by done.
  destruct (with_training s); [|simplify_eq; split; [done|by left]].
  inv_ok H. inv_ok H. simplify_eq. rename a into s1, a0 into s2.
  pose proof (update_pbt_trainer_frame _ _ E0) as (Hpid1 & _).
  apply update_pbt_fs in E0 as [Hfs1 Hq1].
  apply train_training_frame in E1 as (_&_&_&_&_&_&_&_&_&_&_&_&_&Hq2&Hfs2).
  cbn in Hpid1, Hfs1, Hq1. split.
  - intros p Hp. cbn. rewrite Hfs2, Hfs1; [done|congruence].
  - right. eexists. rewrite broadcast_queues, Hq2, Hq1. done.
Qed.

(** A learner writes no checkpoint directory but its own: whatever the
    run, the directories of the other policies are as they were when
    the process started, also when PBT makes it load from them. *)
Theorem foreign_checkpoints_untouched (policy_id' : Z) (c : Config) (queues : nat)
    (fs0 : gmap Z dir) (events : list event) (rollouts : list Rollout) (s : Learner) :
  learner_process policy_id' c queues fs0 events = Ok (rollouts, s) →
  policy_id s = policy_id' ∧ ∀ p, p ≠ policy_id' → fs s !! p = fs0 !! p.
Proof.
  unfold learner_process. intros H. inv_ok H. rename a into s0.
  assert (policy_id s0 = policy_id' ∧ fs s0 = fs0) as [Hpid0 Hfs0].
  { pose proof (initialize_trainer_frame _ _ E) as (Hpid & _).
    unfold initialize in E. inv_ok E. inv_ok E. simplify_eq.
    apply load_from_checkpoint_fs in E0 as [Hfs _]. done. }
  revert H.
  apply (run_keeps (λ s1, policy_id s1 = policy_id' ∧
                          ∀ p, p ≠ policy_id' → fs s1 !! p = fs0 !! p));
    [|by rewrite Hfs0].
  intros e r1 s1 r2 s2 _ [Hpid1 Hfs1] H.
  destruct (trainer_pass_or_not e) as [->|Hmain].
  - apply trainer_pass_inv in H as [_ [->|(_ & data & queue & _ & H)]]; [done|].
    pose proof (process_training_data_trainer_frame _ _ _ H) as (Hpid & _).
    apply process_training_data_effects in H as [Hfs _].
    cbn in Hpid, Hfs. split; [congruence|].
    intros p Hp. rewrite Hfs, Hfs1; [done..|congruence].
  - apply step_main_frame in H as (Hpid&_&_&_&_&_&_&_&_&_&_&_&Hfs); [|done].
    rewrite Hfs. split; [congruence|done].
Qed.

(** Every policy worker gets the same weight updates: at every point of
    a run the policy worker queues all hold the same sequence, and
    there are as many queues as the learner was made with. *)
Theorem policy_worker_queues_agree (policy_id' : Z) (c : Config) (queues : nat)
    (fs0 : gmap Z dir) (events : list event) (rollouts : list Rollout) (s : Learner) :
  learner_process policy_id' c queues fs0 events = Ok (rollouts, s) →
  ∃ updates, policy_worker_queues s = replicate queues updates.
Proof.
  unfold learner_process. intros H. inv_ok H. rename a into s0.
  assert (∃ updates, policy_worker_queues s0 = replicate queues updates) as H0.
  { unfold initialize in E. inv_ok E. inv_ok E. simplify_eq.
    apply load_from_checkpoint_fs in E0 as [_ Hq]. cbn in Hq.
    eexists. rewrite broadcast_queues, Hq. apply fmap_replicate. }
  revert H.
  apply (run_keeps (λ s1, ∃ updates, policy_worker_queues s1 = replicate queues updates));
    [|done].
  intros e r1 s1 r2 s2 _ [updates Hq1] H.
  destruct (trainer_pass_or_not e) as [->|Hmain].
  - apply trainer_pass_inv in H as [_ [->|(_ & data & queue & _ & H)]]; [by eauto|].
    apply process_training_data_effects in H as [_ [Hq|[update Hq]]]; cbn in Hq.
    + exists updates. by rewrite Hq.
    + eexists. rewrite Hq, Hq1. apply fmap_replicate.
  - apply step_main_frame in H as (_&_&_&_&_&_&_&_&_&_&Hq&_); [|done].
    exists updates. by rewrite Hq.
Qed.

Lemma init_rollout_tensors_terminate (data : InitTensors) (s s' : Learner) :
  _init_rollout_tensors data s = Ok s' → terminate s' = terminate s.
Proof.
  unfold _init_rollout_tensors. intros H. inv_ok H. inv_ok H. simplify_eq. cbn.
  revert E. apply (for_each_invariant _ (λ s1, terminate s1 = terminate s) (λ _, True)).
  - intros [[env_idx agent_idx] rollout_data] s1 s2 _ Hs1 H. inv_ok H. by simplify_eq.
  - by apply Forall_true.
  - done.
Qed.

Lemma process_rollouts_terminate (rollouts rest : list Rollout) (work_done : bool)
    (s s' : Learner) :
  _process_rollouts rollouts s = Ok (rest, work_done, s') → terminate s' = terminate s.
Proof.
  intros H. apply process_rollouts_inv in H as (n & _ & H).
  destruct H as [(_ & _ & _ & ->)|(_ & k & s1 & s2 & _ & _ & _ & Hmark & Hs2 & H)];
    [done|].
  apply mark_all_frame in Hmark.
  assert (terminate s2 = terminate s) as Ht2 by (rewrite Hs2; cbn; by rewrite Hmark).
  destruct H as [(_ & _ & _ & Hbatch)|(_ & _ & _ & ->)]; [|done].
  apply process_macro_batch_inv in Hbatch as (s3 & samples & env_steps & Hmark3 & ->).
  apply mark_all_frame in Hmark3. cbn. by rewrite Hmark3.
Qed.

(** What a step does to [terminate]: the task [TERMINATE] sets it and
    nothing else writes it, on either thread. *)
Lemma step_terminate (e : event) (r1 r2 : list Rollout) (s1 s2 : Learner) :
  step e (r1, s1) = Ok (r2, s2) →
  (e = MainTask TERMINATE ∧ terminate s2 = true) ∨
  (e ≠ MainTask TERMINATE ∧ terminate s2 = terminate s1).
Proof.
  intros H. destruct e as [t|now|].
  - cbn in H. destruct t as [| |data|data|task|]; cbn in H.
    + right. by simplify_eq.
    + left. by simplify_eq.
    + right. inv_ok H. simplify_eq.
      apply init_rollout_tensors_terminate in E. done.
    + right. inv_ok H. by simplify_eq.
    + right. inv_ok H. simplify_eq. unfold _process_pbt_task in E.
      by destruct task as [pid|pid new_policy_id|pid update]; inv_ok E; simplify_eq.
    + right. by simplify_eq.
  - right. split; [done|]. cbn in H.
    destruct (1 <? Py.len (experience_buffer_queue s1)); [by simplify_eq|].
    inv_ok H. destruct a as [[rest work_done] s3]. simplify_eq.
    apply process_rollouts_terminate in E.
    unfold _experience_collection_rate_stats. case_decide; cbn; congruence.
  - right. split; [done|].
    apply trainer_pass_inv in H as [_ [->|(_ & data & queue & _ & H)]]; [done|].
    by apply process_training_data_trainer_frame in H as (_ & -> & _).
Qed.

(** [terminate] is set by the task [TERMINATE] and by nothing else, and
    it is never cleared: after any run it is set exactly when it was
    set before or a [TERMINATE] was taken off the task queue, whatever
    tasks, passes and batches came before or after. *)
Theorem terminate_set_by_task (events : list event) (rollouts rollouts' : list Rollout)
    (s s' : Learner) :
  for_each step events (rollouts, s) = Ok (rollouts', s') →
  terminate s' = true ↔ terminate s = true ∨ MainTask TERMINATE ∈ events.
Proof.
  revert rollouts s. induction events as [|e events IH]; intros rollouts s H.
  - cbn in H. simplify_eq. split; [by left|]. intros [?|Hin]; [done|].
    by apply elem_of_nil in Hin.
  - cbn in H. inv_ok H. destruct a as [r1 s1].
    apply IH in H. rewrite H, elem_of_cons.
    apply step_terminate in E as [[-> Hset]|[Hother Hsame]].
    + split; [by right; left|by left].
    + rewrite Hsame. split.
      * intros [?|?]; [by left|by right; right].
      * intros [?|[?|?]]; [by left|done|by right].
Qed.

(** ** Rollouts: from the task queue to the experience queue *)

Lemma foldl_total (count : Rollout → Z) (rollouts : list Rollout) (acc : Z) :
  foldl (λ acc r, acc + count r) acc rollouts = acc + total count rollouts.
Proof.
  revert acc; induction rollouts as [|r rollouts IH]; intros acc; cbn.
  - unfold total. cbn. lia.
  - rewrite IH. unfold total. cbn. lia.
Qed.

Lemma process_macro_batch_sums (rollouts : list Rollout) (s s' : Learner) :
  _process_macro_batch rollouts s = Ok s' →
  ∃ s1,
    for_each _mark_rollout_buffer_free rollouts s = Ok s1 ∧
    s' = set_experience_buffer_queue
           (experience_buffer_queue s1
              ++ [(buffer_of rollouts, total r_length rollouts, total r_env_steps rollouts)])
           s1.
Proof.
  unfold _process_macro_batch, _prepare_train_buffer. intros H. repeat inv_ok H.
  destruct a2 as [buffer s1]. destruct rollouts as [|r rollouts]; [done|].
  inv_ok E2. simplify_eq. exists s1. split; [done|].
  by rewrite !foldl_total, !Z.add_0_l.
Qed.

Lemma slice_to_from {A} (n : Z) (l : list A) : Py.slice_to n l ++ Py.slice_from n l = l.
Proof. apply take_drop. Qed.

Lemma length_slice_to {A} (n : Z) (l : list A) :
  0 ≤ n → n ≤ Py.len l → Py.len (Py.slice_to n l) = n.
Proof.
  intros Hn Hlen. unfold Py.slice_to, Py.slice_bound, Py.len in *.
  rewrite length_take. destruct (Z.ltb_spec n 0); lia.
Qed.

(** [_process_rollouts] loses and duplicates no rollout: the pending
    list is, in order, the rollouts it discarded, the macro-batch it
    formed and the list it returns.  The macro-batch has
    [rollouts_in_macro_batch] rollouts, its slots are released
    (readiness [1]) like those of the discarded ones, and it is queued
    with the sums of their lengths and environment steps. *)
Theorem process_rollouts_partition (rollouts rest : list Rollout) (work_done : bool)
    (s s' : Learner) (n : Z) :
  Py.floordiv (macro_batch (cfg s)) (rollout (cfg s)) = Ok n →
  _process_rollouts rollouts s = Ok (rest, work_done, s') →
  ∃ discarded batch,
    rollouts = discarded ++ batch ++ rest ∧
    num_discarded_rollouts s' = num_discarded_rollouts s + Py.len discarded ∧
    Forall (λ r, readiness s' r = Ok 1) (discarded ++ batch) ∧
    if work_done
    then (0 ≤ n → Py.len batch = n) ∧
         experience_buffer_queue s'
         = experience_buffer_queue s
             ++ [(buffer_of batch, total r_length batch, total r_env_steps batch)]
    else batch = [] ∧ (0 ≤ n → Py.len rest < n) ∧
         experience_buffer_queue s' = experience_buffer_queue s.
Proof.
  intros Hn H. apply process_rollouts_inv in H as (n' & Hn' & H).
  rewrite Hn in Hn'. simplify_eq.
  destruct H as [(Hlen & -> & -> & ->)
                |(Hlen & k & s1 & s2 & Hk & _ & _ & Hmark & Hs2 & H)].
  { exists [], []. split; [done|]. split; [unfold Py.len; cbn; lia|].
    split; [done|]. split; [done|]. split; [|done]. intros _. lia. }
  pose proof (mark_all_frame _ _ _ Hmark) as Hframe1.
  pose proof (mark_all_ready _ _ _ Hmark) as [Hready1 _].
  assert (Py.len (take k rollouts) = Z.of_nat k) as Hlen_k.
  { unfold Py.len. rewrite length_take. lia. }
  destruct H as [(Hlen' & -> & -> & Hbatch)|(Hlen' & -> & -> & ->)].
  - apply process_macro_batch_sums in Hbatch as (s3 & Hmark3 & ->).
    pose proof (mark_all_frame _ _ _ Hmark3) as Hframe3.
    pose proof (mark_all_ready _ _ _ Hmark3) as [Hready3 Hkeep3].
    exists (take k rollouts), (Py.slice_to n' (drop k rollouts)). split_and!.
    + by rewrite slice_to_from, take_drop.
    + cbn. rewrite Hframe3. cbn. rewrite Hs2. cbn. by rewrite Hlen_k.
    + apply Forall_app. split.
      * eapply Forall_impl; [exact Hready1|]. intros r Hr. cbn in Hr.
        rewrite (readiness_ext s3); [|done]. apply Hkeep3.
        by rewrite (readiness_ext s1); [|rewrite Hs2].
      * eapply Forall_impl; [exact Hready3|]. intros r Hr. cbn in Hr.
        by rewrite (readiness_ext s3).
    + intros Hpos. by apply length_slice_to.
    + cbn. rewrite Hframe3. cbn. rewrite Hs2. cbn. by rewrite Hframe1.
  - exists (take k rollouts), []. split_and!.
    + cbn. by rewrite take_drop.
    + rewrite Hs2. cbn. by rewrite Hlen_k.
    + rewrite app_nil_r. eapply Forall_impl; [exact Hready1|]. intros r Hr. cbn in Hr.
      by rewrite (readiness_ext s1); [|rewrite Hs2].
    + done.
    + done.
    + rewrite Hs2. cbn. by rewrite Hframe1.
Qed.

(** ** Trajectory buffers: registration and extraction *)

Lemma init_rollout_tensors_lookup (data : InitTensors) (s s' : Learner) :
  _init_rollout_tensors data s = Ok s' →
  policy_id s = it_policy_id data ∧
  (∀ key t, rollout_tensors s !! key = Some t → rollout_tensors s' !! key = Some t) ∧
  (∀ env_idx agent_idx t,
     (env_idx, agent_idx, t) ∈ it_tensors data →
     rollout_tensors s !! (it_worker_idx data, it_split_idx data, env_idx, agent_idx,
                           it_traj_buffer_idx data) = None ∧
     rollout_tensors s' !! (it_worker_idx data, it_split_idx data, env_idx, agent_idx,
                            it_traj_buffer_idx data) = Some t) ∧
  traj_buffer_ready s'
    = <[(it_worker_idx data, it_split_idx data) := it_is_ready_tensor data]>
        (traj_buffer_ready s) ∧
  with_training s' = with_training s.
Proof.
  unfold _init_rollout_tensors. intros H. inv_ok H. inv_ok H. simplify_eq. cbn.
  apply bool_decide_eq_true in Hassert. split; [done|]. clear Hassert.
  revert E. generalize (it_tensors data) as tensors. intros tensors. revert s.
  induction tensors as [|[[env_idx agent_idx] t] tensors IH]; intros s H; cbn in H.
  - simplify_eq. split_and!; try done. by intros ? ? ? ?%elem_of_nil.
  - inv_ok H. inv_ok E. simplify_eq. apply bool_decide_eq_true in Hassert.
    apply IH in H as (Hkeep & Hnew & Hready & Hwith). cbn in Hkeep, Hnew, Hready, Hwith.
    split_and!; [|intros env_idx' agent_idx' t' Hin|done|done].
    + intros key t0 Hkey. apply Hkeep.
      rewrite lookup_insert_ne; [done|]. intros <-. congruence.
    + apply elem_of_cons in Hin as [[= -> -> ->]|Hin].
      * split; [done|]. apply Hkeep. by rewrite lookup_insert_eq.
      * destruct (Hnew _ _ _ Hin) as [Hfree Hin']. split; [|done].
        clear IH Hkeep Hnew.
        destruct (decide ((it_worker_idx data, it_split_idx data, env_idx, agent_idx,
                           it_traj_buffer_idx data)
                          = (it_worker_idx data, it_split_idx data, env_idx', agent_idx',
                             it_traj_buffer_idx data))) as [Heq|Hne].
        -- rewrite <- Heq in Hfree. by rewrite lookup_insert_eq in Hfree.
        -- by rewrite lookup_insert_ne in Hfree.
Qed.

(** Registration and extraction agree: after [_init_rollout_tensors] has
    registered the trajectory buffers of a worker and split, a [TRAIN]
    task that announces rollouts of these buffers is extracted into one
    descriptor per announcement, in order, each with the announced
    length and environment steps, the indices of the buffer and the
    tensors that were registered for its environment and agent. *)
Theorem extract_registered_rollouts (data : InitTensors) (td : TrainData)
    (s s' : Learner) :
  _init_rollout_tensors data s = Ok s' →
  with_training s = true →
  td_worker_idx td = it_worker_idx data →
  td_split_idx td = it_split_idx data →
  td_traj_buffer_idx td = it_traj_buffer_idx data →
  Forall (λ a, ∃ t, (a.1.1.1, a.1.1.2, t) ∈ it_tensors data) (td_rollouts td) →
  ∃ rollouts,
    _extract_rollouts td s' = Ok rollouts ∧
    Forall2 (λ a r,
               r = MkRollout (it_worker_idx data) (it_split_idx data) a.1.1.1 a.1.1.2
                     (it_traj_buffer_idx data) a.1.2 a.2 (r_t r) ∧
               (a.1.1.1, a.1.1.2, r_t r) ∈ it_tensors data)
            (td_rollouts td) rollouts ∧
    traj_buffer_ready s' !! (it_worker_idx data, it_split_idx data)
      = Some (it_is_ready_tensor data).
Proof.
  intros H Hwith Hw Hs Hb Hall.
  apply init_rollout_tensors_lookup in H as (_ & _ & Hnew & Hready & Hwith').
  unfold _extract_rollouts. rewrite Hwith', Hwith, Hw, Hs, Hb.
  assert (∃ rollouts,
            mapM_outcome
              (λ '(env_idx, agent_idx, length, env_steps),
                 match rollout_tensors s' !! (it_worker_idx data, it_split_idx data,
                                              env_idx, agent_idx, it_traj_buffer_idx data)
                 with
                 | Some tensors =>
                     Ok {| r_worker_idx := it_worker_idx data;
                           r_split_idx := it_split_idx data;
                           r_env_idx := env_idx;
                           r_agent_idx := agent_idx;
                           r_traj_buffer_idx := it_traj_buffer_idx data;
                           r_length := length;
                           r_env_steps := env_steps;
                           r_t := tensors |}
                 | None => Raise KeyError
                 end) (td_rollouts td) = Ok rollouts ∧
            Forall2 (λ a r,
                       r = MkRollout (it_worker_idx data) (it_split_idx data) a.1.1.1
                             a.1.1.2 (it_traj_buffer_idx data) a.1.2 a.2 (r_t r) ∧
                       (a.1.1.1, a.1.1.2, r_t r) ∈ it_tensors data)
                    (td_rollouts td) rollouts) as (rollouts & -> & Hrollouts).
  { induction Hall as [|[[[env_idx agent_idx] length] env_steps] announced [t Ht] _ IH];
      cbn.
    - exists []. split; [done|constructor].
    - cbn in Ht. destruct (Hnew _ _ _ Ht) as [_ ->]. rewrite ret_bind.
      destruct IH as (rollouts & -> & Hrollouts). rewrite ret_bind.
      eexists. split; [done|]. constructor; [|done]. by cbn. }
  rewrite ret_bind. exists rollouts. split_and!; [done..|].
  rewrite Hready. by rewrite lookup_insert_eq.
Qed.

(** Trajectory buffers are registered once: a second [INIT_TENSORS] for
    buffers that are registered already fails the assertion of
    [_init_rollout_tensors]. *)
Theorem init_rollout_tensors_twice (data : InitTensors) (s s' : Learner) :
  _init_rollout_tensors data s = Ok s' →
  it_tensors data ≠ [] →
  _init_rollout_tensors data s' = Raise AssertionError.
Proof.
  intros H Hne.
  pose proof (init_rollout_tensors_main_frame _ _ _ H) as (Hpid & _).
  apply init_rollout_tensors_lookup in H as (Hpolicy & _ & Hnew & _).
  unfold _init_rollout_tensors. rewrite Hpid, bool_decide_eq_true_2 by done.
  cbn [Py.assert]. rewrite ret_bind.
  destruct (it_tensors data) as [|[[env_idx agent_idx] t] tensors]; [done|].
  destruct (Hnew env_idx agent_idx t) as [_ Hin]; [by left|].
  cbn. rewrite bool_decide_eq_false_2; [done|]. by rewrite Hin.
Qed.

(** A [TRAIN] task that announces a rollout of a trajectory buffer that
    was never registered raises [KeyError], with training on or off. *)
Theorem extract_unregistered_rollout (td : TrainData) (s : Learner) :
  Exists (λ a, rollout_tensors s !! (td_worker_idx td, td_split_idx td, a.1.1.1, a.1.1.2,
                                     td_traj_buffer_idx td) = None)
         (td_rollouts td) →
  _extract_rollouts td s = Raise KeyError.
Proof.
  intros Hex. unfold _extract_rollouts.
  assert (mapM_outcome
            (λ '(env_idx, agent_idx, length, env_steps),
               match rollout_tensors s !! (td_worker_idx td, td_split_idx td,
                                           env_idx, agent_idx, td_traj_buffer_idx td)
               with
               | Some tensors =>
                   Ok {| r_worker_idx := td_worker_idx td;
                         r_split_idx := td_split_idx td;
                         r_env_idx := env_idx;
                         r_agent_idx := agent_idx;
                         r_traj_buffer_idx := td_traj_buffer_idx td;
                         r_length := length;
                         r_env_steps := env_steps;
                         r_t := tensors |}
               | None => Raise KeyError
               end) (td_rollouts td) = Raise KeyError) as ->; [|done].
  induction (td_rollouts td) as [|[[[env_idx agent_idx] length] env_steps] announced IH].
  - by apply Exists_nil in Hex.
  - cbn. destruct (rollout_tensors s !! _) as [t|] eqn:Hkey; [|done].
    rewrite ret_bind. apply Exists_cons in Hex as [Hhead|Htail].
    + cbn in Hhead. congruence.
    + by rewrite IH.
Qed.

(** ** Checkpoints: what a save leaves, and loading it back *)

Lemma glob_checkpoint_name (train_step env_steps : Z) :
  glob_checkpoint (checkpoint_name train_step env_steps).
Proof.
  unfold glob_checkpoint, checkpoint_name. simpl.
  by destruct ("" +:+ _).
Qed.

Lemma glob_checkpoint_tmp : glob_checkpoint "checkpoint_tmp".
Proof. reflexivity. Qed.

(** The loop of [_save] stops as soon as the limit is met: it leaves
    [keep] entries, or all of them when there were fewer. *)
Lemma remove_old_fuel_length (fuel : nat) (keep : Z) (d d' : dir) :
  0 ≤ keep → remove_old_fuel fuel keep d = Some (Ok d') →
  Py.len (get_checkpoints d') = Z.min keep (Py.len (get_checkpoints d)).
Proof.
  intros Hkeep. revert d; induction fuel as [|fuel IH]; intros d H; cbn in H.
  all: destruct (Z.ltb_spec keep (Py.len (get_checkpoints d))) as [Hlen|Hlen];
    [|simplify_eq; lia].
  - done.
  - destruct (get_checkpoints d) as [|oldest rest] eqn:Hd; [done|].
    change (Py.index (oldest :: rest) 0) with (@Ok string oldest) in H. cbn in H.
    destruct (isfile d oldest); [|done].
    pose proof (get_checkpoints_delete _ _ _ Hd) as Hrest.
    apply IH in H. rewrite H, Hrest. unfold Py.len in *. cbn [length] in *. lia.
Qed.

Lemma remove_old_length (keep : Z) (d d' : dir) :
  0 ≤ keep → remove_old keep d = Ok d' →
  Py.len (get_checkpoints d') = Z.min keep (Py.len (get_checkpoints d)).
Proof.
  unfold remove_old. intros Hkeep H.
  destruct (remove_old_fuel _ keep d) as [o|] eqn:Hfuel; [|done].
  cbn in H. subst o. by eapply remove_old_fuel_length.
Qed.

Lemma written_dir_lookup (s : Learner) (name : string) :
  written_dir s !! name
  = if decide (name = checkpoint_name (train_step s) (env_steps s))
    then Some (File (_get_checkpoint_dict s))
    else if decide (name = "checkpoint_tmp") then None else own_dir s !! name.
Proof.
  unfold written_dir. case_decide as Hname.
  - subst. by rewrite lookup_insert_eq.
  - rewrite lookup_insert_ne by done. case_decide as Htmp.
    + subst. by rewrite lookup_delete_eq.
    + by rewrite lookup_delete_ne.
Qed.

(** A save is atomic and tidy: when [_save] returns, no [checkpoint_tmp]
    is left in the directory, also when one was lying there before, and
    the entries whose names do not match [checkpoint_*] are as they
    were: the rotation removes checkpoints only. *)
Theorem save_leaves_no_tmp (s s' : Learner) :
  _save s = Ok s' →
  own_dir s' !! "checkpoint_tmp" = None ∧
  ∀ name, ¬ glob_checkpoint name → own_dir s' !! name = own_dir s !! name.
Proof.
  intros H. apply save_inv in H as [H _].
  apply remove_old_Ok in H as (_ & removed & Hsplit & Hlookup). split.
  - rewrite Hlookup. case_decide; [done|]. rewrite written_dir_lookup.
    rewrite decide_False, decide_True; [done..|].
    intros Heq. by eapply checkpoint_name_not_tmp.
  - intros name Hglob. rewrite Hlookup. rewrite decide_False.
    + rewrite written_dir_lookup, !decide_False; [done| |].
      * intros ->. apply Hglob, glob_checkpoint_tmp.
      * intros ->. apply Hglob, glob_checkpoint_name.
    + intros Hin. apply Hglob.
      assert (name ∈ get_checkpoints (written_dir s)) as Hin'.
      { rewrite Hsplit. apply elem_of_app. by left. }
      by apply elem_of_get_checkpoints in Hin' as [? _].
Qed.

Lemma string_compare_lt_le (x y : string) : String.compare x y = Lt → ¬ String.le y x.
Proof.
  intros Hlt Hle. unfold String.le, String.leb in Hle.
  rewrite String.compare_antisym, Hlt in Hle. done.
Qed.

(** The checkpoint that [_save] has just written is the last of the
    directory when the older ones have smaller train steps. *)
Lemma saved_checkpoint_last (s s' : Learner) :
  _save s = Ok s' →
  0 ≤ train_step s < 10 ^ 9 → 1 ≤ keep_checkpoints (cfg s) →
  (∀ name, name ∈ get_checkpoints (own_dir s) →
           name = "checkpoint_tmp" ∨
           ∃ train_step' env_steps',
             name = checkpoint_name train_step' env_steps' ∧
             0 ≤ train_step' < train_step s) →
  last (get_checkpoints (own_dir s'))
    = Some (checkpoint_name (train_step s) (env_steps s)) ∧
  own_dir s' !! checkpoint_name (train_step s) (env_steps s)
    = Some (File (_get_checkpoint_dict s)).
Proof.
  intros H Hstep Hkeep Hold. apply save_inv in H as [H _].
  pose proof (remove_old_length (keep_checkpoints (cfg s)) _ _ ltac:(lia) H) as Hlen.
  apply remove_old_Ok in H as (_ & removed & Hsplit & Hlookup).
  set (new := checkpoint_name (train_step s) (env_steps s)) in *.
  assert (new ∈ get_checkpoints (written_dir s)) as Hnew.
  { apply elem_of_get_checkpoints. split; [apply glob_checkpoint_name|].
    rewrite written_dir_lookup, decide_True by done. done. }
  assert (∀ name, name ∈ get_checkpoints (written_dir s) → name ≠ new →
                  String.compare name new = Lt) as Hbelow.
  { intros name [Hglob Hsome]%elem_of_get_checkpoints Hne.
    rewrite written_dir_lookup, decide_False in Hsome by done.
    case_decide as Htmp; [by destruct Hsome|].
    destruct (Hold name) as [?|(ts & es & -> & Hts)]; [|done|].
    - apply elem_of_get_checkpoints. done.
    - apply checkpoint_name_lt; lia. }
  assert (get_checkpoints (own_dir s') ≠ []) as Hkept.
  { intros Hnil. rewrite Hnil in Hlen.
    destruct (get_checkpoints (written_dir s)); [by apply elem_of_nil in Hnew|].
    unfold Py.len in Hlen. cbn in Hlen. lia. }
  assert (last (get_checkpoints (written_dir s)) = Some new) as Hlast.
  { destruct (last (get_checkpoints (written_dir s))) as [x|] eqn:Hx.
    - f_equal. destruct (decide (x = new)) as [|Hne]; [done|]. exfalso.
      assert (x ∈ get_checkpoints (written_dir s)) as Hin.
      { rewrite last_lookup in Hx. by eapply list_elem_of_lookup_2. }
      apply (string_compare_lt_le _ _ (Hbelow x Hin Hne)).
      by eapply sorted_last_greatest; [apply sorted_get_checkpoints|..].
    - apply last_None in Hx. rewrite Hx in Hnew. by apply elem_of_nil in Hnew. }
  assert (last (get_checkpoints (own_dir s')) = Some new) as Hlast'.
  { rewrite Hsplit in Hlast. rewrite last_app in Hlast.
    destruct (last (get_checkpoints (own_dir s'))) eqn:Hl; [done|].
    by apply last_None in Hl. }
  split; [done|]. rewrite Hlookup, decide_False.
  - by rewrite written_dir_lookup, decide_True.
  - intros Hin. pose proof (NoDup_get_checkpoints (written_dir s)) as Hnodup.
    rewrite Hsplit in Hnodup. apply NoDup_app in Hnodup as (_ & Hdisjoint & _).
    apply (Hdisjoint _ Hin). rewrite last_lookup in Hlast'.
    by eapply list_elem_of_lookup_2.
Qed.

(** Saving and loading back is a round trip: after [_save] at a train
    step below a billion, into a directory whose older checkpoints have
    smaller train steps and with at least one checkpoint kept,
    [load_from_checkpoint] of the learner's own policy restores
    [train_step], [env_steps], [kl_coeff], the model and the optimiser
    as they were saved, whatever they are when it is called. *)
Theorem save_load_round_trip (s s' s1 : Learner) :
  _save s = Ok s' →
  0 ≤ train_step s < 10 ^ 9 → 1 ≤ keep_checkpoints (cfg s) →
  (∀ name, name ∈ get_checkpoints (own_dir s) →
           name = "checkpoint_tmp" ∨
           ∃ train_step' env_steps',
             name = checkpoint_name train_step' env_steps' ∧
             0 ≤ train_step' < train_step s) →
  fs s1 = fs s' → policy_id s1 = policy_id s →
  ∃ s2, load_from_checkpoint (policy_id s) s1 = Ok s2 ∧
        train_step s2 = train_step s ∧ env_steps s2 = env_steps s ∧
        kl_coeff s2 = kl_coeff s ∧ actor_critic s2 = actor_critic s ∧
        optimizer s2 = optimizer s.
Proof.
  intros H Hstep Hkeep Hold Hfs Hpid.
  destruct (saved_checkpoint_last _ _ H Hstep Hkeep Hold) as [Hlast Hfile].
  assert (policy_id s' = policy_id s) as Hpid'.
  { apply save_inv in H as [_ ->]. done. }
  assert (checkpoint_dir (fs s1) (policy_id s) = own_dir s') as Hdir.
  { unfold own_dir. by rewrite Hfs, Hpid'. }
  unfold load_from_checkpoint. rewrite Hdir.
  rewrite (load_checkpoint_latest _ _ _ _ Hlast Hfile), ret_bind.
  eexists. split; [done|]. rewrite Hpid, bool_decide_eq_true_2 by done.
  by unfold _load_state.
Qed.


Lemma load_from_checkpoint_latest (policy_id' : Z) (s : Learner) (name : string)
    (ck : Checkpoint) :
  last (get_checkpoints (checkpoint_dir (fs s) policy_id')) = Some name →
  checkpoint_dir (fs s) policy_id' !! name = Some (File ck) →
  load_from_checkpoint policy_id' s
    = Ok (_load_state ck (bool_decide (policy_id' = policy_id s)) s).
Proof.
  intros Hlast Hfile. unfold load_from_checkpoint.
  by rewrite (load_checkpoint_latest _ _ _ _ Hlast Hfile), ret_bind.
Qed.



(** [_after_optimizer_step] counts the step and saves on request: with
    [should_save_model] set, as it is at the start and after a
    [SAVE_MODEL] message, it saves whatever the save rate is, clears the
    flag, sets [model_saved_event] and records the step in
    [last_saved]; with the flag clear and fewer steps since the last
    save than the rate asks for, it only counts the step.  Either way
    the last save is never further back than the save rate allows. *)
Theorem optimizer_step_saves_on_request (s s' : Learner) :
  _after_optimizer_step s = Ok s' →
  train_step s' = train_step s + 1 ∧
  (should_save_model s = true →
   should_save_model s' = false ∧ model_saved_event s' = true ∧
   last_saved s' = train_step s' ∧
   ∃ s1, _save (set_train_step (train_step s + 1) s) = Ok s1 ∧ fs s' = fs s1) ∧
  (should_save_model s = false →
   (Qc_of_Z (train_step s + 1 - last_saved s) < save_rate_decay_at (train_step s + 1))%Qc →
   s' = set_train_step (train_step s + 1) s) ∧
  (last_saved s' = train_step s' ∨
   (Qc_of_Z (train_step s' - last_saved s') < save_rate_decay_at (train_step s'))%Qc).
Proof.
  intros H. split; [by apply after_optimizer_step_train_step in H|].
  unfold _after_optimizer_step, _maybe_save in H. cbn in H. split_and!.
  - intros Hflag. rewrite Hflag, orb_true_r in H. inv_ok H. simplify_eq.
    pose proof (save_train_step _ _ E) as Hstep. cbn in Hstep.
    cbn. split_and!; try done. by exists a.
  - intros Hflag Hrate. rewrite Hflag, orb_false_r in H.
    rewrite bool_decide_eq_false_2 in H; [by simplify_eq|].
    by apply Qclt_not_le.
  - destruct (bool_decide _ || should_save_model s) eqn:Hsave.
    + inv_ok H. simplify_eq. by left.
    + simplify_eq. right. cbn. apply orb_false_iff in Hsave as [Hrate _].
      apply bool_decide_eq_false in Hrate. by apply Qcnot_le_lt.
Qed.

(** ** PBT requests and the accounting of a batch *)

Lemma load_from_checkpoint_other (policy_id' : Z) (s s' : Learner) :
  load_from_checkpoint policy_id' s = Ok s' →
  cfg s' = cfg s ∧ new_cfg s' = new_cfg s ∧
  (policy_id' ≠ policy_id s → env_steps s' = env_steps s).
Proof.
  unfold load_from_checkpoint. intros H. inv_ok H.
  destruct a as [ck|]; simplify_eq; [|done].
  unfold _load_state. case_bool_decide; cbn; split_and!; done.
Qed.

(** [_update_pbt] serves the two PBT requests in a fixed order and
    clears them: the load first, then the change of configuration, so
    that the optimiser ends with the learning rate and the betas of the
    new configuration also when the checkpoint that was loaded had
    others.  A load request without [with_pbt] fails the assertion. *)
Theorem update_pbt_serves_requests (s : Learner) :
  (∀ s', _update_pbt s = Ok s' →
     load_policy_id s' = None ∧ new_cfg s' = None ∧
     match new_cfg s with
     | Some update =>
         cfg s' = update (cfg s) ∧
         lr (optimizer s') = learning_rate (cfg s') ∧
         betas (optimizer s') = (adam_beta1 (cfg s'), adam_beta2 (cfg s'))
     | None => cfg s' = cfg s
     end) ∧
  (is_Some (load_policy_id s) → with_pbt (cfg s) = false →
   _update_pbt s = Raise AssertionError).
Proof.
  split.
  - unfold _update_pbt. intros s' H. inv_ok H.
    assert (load_policy_id a = None ∧ cfg a = cfg s ∧ new_cfg a = new_cfg s)
      as (Hload & Hcfg & Hnew).
    { destruct (load_policy_id s) as [pid|] eqn:Hpid; [|by simplify_eq].
      inv_ok E. inv_ok E. simplify_eq.
      by apply load_from_checkpoint_other in E0 as (? & ? & _). }
    rewrite <- Hnew. destruct (new_cfg a) as [update|] eqn:Hupdate; simplify_eq; cbn.
    + by rewrite Hcfg.
    + done.
  - intros [pid Hpid] Hpbt. unfold _update_pbt. by rewrite Hpid, Hpbt.
Qed.

(** A batch is accounted for when it is trained on:
    [_process_training_data] adds the environment steps of the batch to
    [env_steps], with training on or off, unless the batch comes with a
    request to reload the learner's own checkpoint.  Then the count is
    the one of the learner's latest checkpoint, when that is a file:
    the steps of the batch, and all since that save, are not counted. *)
Theorem process_training_data_env_steps (buffer : Buffer) (samples env_steps' : Z)
    (s s' : Learner) :
  _process_training_data (buffer, samples, env_steps') s = Ok s' →
  (with_training s = false ∨ load_policy_id s ≠ Some (policy_id s) →
   env_steps s' = env_steps s + env_steps') ∧
  (∀ name ck,
     with_training s = true → load_policy_id s = Some (policy_id s) →
     last (get_checkpoints (own_dir s)) = Some name →
     own_dir s !! name = Some (File ck) →
     env_steps s' = ck_env_steps ck).
Proof.
  unfold _process_training_data. intros H. inv_ok H. rename a into discarding_rate.
  replace (with_training (set_env_steps (env_steps s + env_steps') s))
    with (with_training s) in H by done.
  destruct (with_training s) eqn:Htraining.
  2: { simplify_eq. split; [done|]. intros name ck Hon. discriminate Hon. }
  inv_ok H. inv_ok H. simplify_eq. rename a into s1, a0 into s2.
  apply train_training_frame in E1 as (_&_&_&_&_&_&_&_&_&Hsteps&_).
  cbn. rewrite Hsteps. clear Hsteps E.
  unfold _update_pbt in E0. inv_ok E0.
  change (load_policy_id (set_env_steps (env_steps s + env_steps') s))
    with (load_policy_id s) in E.
  split.
  - intros [Hoff|Hother]; [done|].
    assert (env_steps a = env_steps s + env_steps') as Ha.
    { destruct (load_policy_id s) as [pid|] eqn:Hpid; [|by simplify_eq].
      inv_ok E. inv_ok E. simplify_eq.
      apply load_from_checkpoint_other in E1 as (_ & _ & Hsteps). cbn in Hsteps.
      cbn. apply Hsteps. congruence. }
    destruct (new_cfg a); by simplify_eq.
  - intros name ck _ Hown Hlast Hfile.
    assert (env_steps a = ck_env_steps ck) as Ha.
    { rewrite Hown in E. inv_ok E. inv_ok E. simplify_eq.
      rewrite (load_from_checkpoint_latest (policy_id s)
                 (set_env_steps (env_steps s + env_steps') s) name ck Hlast Hfile) in E1.
      simplify_eq. cbn. by rewrite bool_decide_true. }
    destruct (new_cfg a); by simplify_eq.
Qed.

(** ** The statistics on discarded rollouts *)

(** Turns a goal on the order of rationals in canonical form into one
    on plain rationals. *)
Ltac qc_to_q :=
  unfold Qclt, Qcle, Qcplus, Qcminus, Qcopp, Q2Qc in *;
  cbn [this] in *;
  repeat setoid_rewrite Qred_correct;
  repeat match goal with
  | H : context [Qred _] |- _ => setoid_rewrite Qred_correct in H
  end.

Lemma Qc_gap_trans (a b c : Qc) : (a + 1 < b)%Qc → (b + 1 < c)%Qc → (a + 1 < c)%Qc.
Proof. intros. qc_to_q. lra. Qed.

Lemma Qc_gap_timer (a now : Qc) : (1 < now - a)%Qc → (a + 1 < now)%Qc.
Proof. intros. qc_to_q. lra. Qed.

Lemma Qc_gap_pos (a b : Qc) : (a + 1 < b)%Qc → (0 < b - a)%Qc.
Proof. intros. qc_to_q. lra. Qed.

Lemma window_ordered_snoc (window : list (Qc * Z)) (x : Qc * Z) :
  window_ordered window →
  (∀ a, last window = Some a → (a.1 + 1 < x.1)%Qc ∧ a.2 ≤ x.2) →
  window_ordered (window ++ [x]).
Proof.
  intros Hw Hlast i j a b Hij Hi Hj.
  assert (i < length window)%nat as Hilen.
  { apply lookup_lt_Some in Hj. rewrite length_app in Hj. cbn in Hj. lia. }
  rewrite lookup_app_l in Hi by done.
  destruct (decide (j < length window)%nat) as [Hjlen|Hjlen].
  { rewrite lookup_app_l in Hj by done. exact (Hw i j a b Hij Hi Hj). }
  rewrite lookup_app_r in Hj by lia.
  apply list_lookup_singleton_Some in Hj as [_ <-].
  destruct (last window) as [l|] eqn:Hl; [|apply last_None in Hl; by subst].
  destruct (Hlast l eq_refl) as [Htime Hcount].
  rewrite last_lookup in Hl.
  destruct (decide (i = Nat.pred (length window))) as [->|Hne].
  - by simplify_eq.
  - destruct (Hw i (Nat.pred (length window)) a l) as [Htime' Hcount'];
      [lia|done..|].
    split; [by eapply Qc_gap_trans|lia].
Qed.

Lemma window_ordered_drop (n : nat) (window : list (Qc * Z)) :
  window_ordered window → window_ordered (drop n window).
Proof.
  intros Hw i j a b Hij Hi Hj. rewrite lookup_drop in Hi, Hj.
  eapply (Hw (n + i)%nat (n + j)%nat); [lia|done..].
Qed.

(** [_experience_collection_rate_stats] keeps the window in order and
    within its thirty samples. *)
Lemma stats_invariant_sample (now : Qc) (s : Learner) :
  stats_invariant s → stats_invariant (_experience_collection_rate_stats now s).
Proof.
  intros (Hw & Hlen & Hlast). unfold _experience_collection_rate_stats.
  case_decide as Hnow; [|done].
  set (window := discarded_experience_over_time s) in *.
  set (x := (now, num_discarded_rollouts s)).
  assert (window_ordered (window ++ [x])) as Hw'.
  { apply window_ordered_snoc; [done|]. intros a Ha.
    destruct (Hlast a Ha) as [Htime Hcount]. cbn. split; [|done].
    rewrite Htime. by apply Qc_gap_timer. }
  unfold stats_invariant, deque_append. cbn. fold window x. split_and!.
  - by apply window_ordered_drop.
  - rewrite length_drop, length_app. cbn. lia.
  - intros a Ha. rewrite last_lookup, length_drop, lookup_drop in Ha.
    rewrite length_app in Ha. cbn in Ha.
    replace (length window + 1 - 30
             + Nat.pred (length window + 1 - (length window + 1 - 30)))%nat
      with (length window + 0)%nat in Ha by lia.
    rewrite lookup_app_r in Ha by lia.
    replace (length window + 0 - length window)%nat with 0%nat in Ha by lia.
    cbn in Ha. by simplify_eq.
Qed.

(** With two samples or more in an ordered window the discarding rate
    is a float, and not negative. *)
Lemma discarding_rate_ordered (s : Learner) :
  window_ordered (discarded_experience_over_time s) →
  (2 ≤ length (discarded_experience_over_time s))%nat →
  ∃ rate, _discarding_rate s = Ok (Py.Float rate) ∧ (0 ≤ rate)%Qc.
Proof.
  intros Hw Hlen. unfold _discarding_rate.
  destruct (discarded_experience_over_time s) as [|first window] eqn:Hwindow;
    [cbn in Hlen; lia|].
  change (Py.len (first :: window) <=? 0)
    with (Z.pos (Pos.of_succ_nat (length window)) <=? 0).
  destruct (Z.leb_spec (Z.pos (Pos.of_succ_nat (length window))) 0); [lia|].
  change (Py.index (first :: window) 0) with (@Ok (Qc * Z) first). rewrite ret_bind.
  rewrite index_last.
  destruct (last (first :: window)) as [l|] eqn:Hl; [|by apply last_None in Hl].
  rewrite ret_bind. rewrite last_lookup in Hl.
  destruct (Hw 0%nat (Nat.pred (length (first :: window))) first l) as [Htime Hcount];
    [cbn in *; lia|done|done|].
  apply Qc_gap_pos in Htime. unfold Py.truediv.
  rewrite decide_False by (intros Heq; rewrite Heq in Htime; by apply Qclt_not_eq in Htime).
  eexists. split; [done|]. unfold Qcdiv.
  replace 0%Qc with (0 * / (l.1 - first.1))%Qc by ring.
  apply Qcmult_le_compat_r.
  - rewrite <- Z2Qc_inj_0. apply (proj1 (Z2Qc_inj_le 0 (l.2 - first.2))). lia.
  - apply Qclt_le_weak, Qcinv_pos. done.
Qed.

Lemma stats_invariant_grow (s s' : Learner) :
  discarded_experience_over_time s' = discarded_experience_over_time s →
  discarded_experience_timer s' = discarded_experience_timer s →
  num_discarded_rollouts s ≤ num_discarded_rollouts s' →
  stats_invariant s → stats_invariant s'.
Proof.
  intros Hwindow Htimer Hnum (Hw & Hlen & Hlast). unfold stats_invariant.
  rewrite Hwindow, Htimer. split_and!; [done..|].
  intros a Ha. destruct (Hlast a Ha). split; [done|lia].
Qed.

Lemma handle_task_stats (t : Task) (rollouts rollouts' : list Rollout) (s s' : Learner) :
  handle_task t rollouts s = Ok (rollouts', s') →
  discarded_experience_over_time s' = discarded_experience_over_time s ∧
  discarded_experience_timer s' = discarded_experience_timer s ∧
  num_discarded_rollouts s' = num_discarded_rollouts s.
Proof.
  intros H. destruct t as [| |data|data|task|]; cbn in H.
  - by simplify_eq.
  - by simplify_eq.
  - inv_ok H. simplify_eq. unfold _init_rollout_tensors in E. inv_ok E. inv_ok E.
    simplify_eq. cbn. revert E0.
    apply (for_each_invariant _
             (λ s1, discarded_experience_over_time s1 = discarded_experience_over_time s ∧
                    discarded_experience_timer s1 = discarded_experience_timer s ∧
                    num_discarded_rollouts s1 = num_discarded_rollouts s) (λ _, True)).
    + intros [[env_idx agent_idx] rollout_data] s1 s2 _ Hs1 H. inv_ok H. by simplify_eq.
    + by apply Forall_true.
    + done.
  - inv_ok H. by simplify_eq.
  - inv_ok H. simplify_eq. unfold _process_pbt_task in E.
    by destruct task as [pid|pid new_policy_id|pid update]; inv_ok E; simplify_eq.
  - by simplify_eq.
Qed.

Lemma process_rollouts_stats (rollouts rest : list Rollout) (work_done : bool)
    (s s' : Learner) :
  _process_rollouts rollouts s = Ok (rest, work_done, s') →
  discarded_experience_over_time s' = discarded_experience_over_time s ∧
  discarded_experience_timer s' = discarded_experience_timer s ∧
  num_discarded_rollouts s ≤ num_discarded_rollouts s'.
Proof.
  intros H. apply process_rollouts_inv in H as (n & _ & H).
  destruct H as [(_ & _ & _ & ->)|(_ & k & s1 & s2 & _ & _ & _ & Hmark & Hs2 & H)];
    [split_and!; [done..|lia]|].
  apply mark_all_frame in Hmark.
  assert (discarded_experience_over_time s2 = discarded_experience_over_time s ∧
          discarded_experience_timer s2 = discarded_experience_timer s ∧
          num_discarded_rollouts s ≤ num_discarded_rollouts s2) as (Hw2 & Ht2 & Hn2).
  { rewrite Hs2. cbn. rewrite Hmark. cbn. split_and!; [done..|lia]. }
  destruct H as [(_ & _ & _ & Hbatch)|(_ & _ & _ & ->)]; [|done].
  apply process_macro_batch_inv in Hbatch as (s3 & samples & env_steps & Hmark3 & ->).
  apply mark_all_frame in Hmark3. cbn. rewrite Hmark3. cbn. done.
Qed.

(** The statistics on discarded rollouts in a run: the window never
    holds more than thirty samples, its samples are more than a second
    apart with counts that do not decrease, and with two samples or
    more in it [_discarding_rate] returns a float that is not negative:
    the division by zero is that of the single sample only. *)
Theorem discarding_rate_in_run (policy_id' : Z) (c : Config) (queues : nat)
    (fs0 : gmap Z dir) (events : list event) (rollouts : list Rollout) (s : Learner) :
  learner_process policy_id' c queues fs0 events = Ok (rollouts, s) →
  (length (discarded_experience_over_time s) ≤ 30)%nat ∧
  window_ordered (discarded_experience_over_time s) ∧
  ((2 ≤ length (discarded_experience_over_time s))%nat →
   ∃ rate, _discarding_rate s = Ok (Py.Float rate) ∧ (0 ≤ rate)%Qc).
Proof.
  unfold learner_process. intros H. inv_ok H. rename a into s0.
  assert (stats_invariant s) as (Hw & Hlen & _).
  { revert H. apply (run_keeps stats_invariant).
    - intros e r1 s1 r2 s2 _ Hs1 H. destruct e as [t|now|].
      + cbn in H. apply handle_task_stats in H as (Hw & Ht & Hn).
        apply (stats_invariant_grow s1); [done..|lia|done].
      + cbn in H. destruct (1 <? Py.len (experience_buffer_queue s1)).
        { by simplify_eq. }
        inv_ok H. destruct a as [[rest work_done] s3]. simplify_eq.
        apply process_rollouts_stats in E0 as (Hw & Ht & Hn).
        apply stats_invariant_sample. by apply (stats_invariant_grow s1).
      + apply trainer_pass_inv in H as [_ [->|(_ & data & queue & _ & H)]]; [done|].
        apply process_training_data_trainer_frame in H
          as (_ & _ & _ & _ & _ & _ & Hw & Ht & Hn & _).
        apply (stats_invariant_grow s1); [done..|cbn in Hn; lia|done].
    - apply initialize_trainer_frame in E as (_ & _ & _ & _ & _ & _ & Hw & Ht & Hn & _).
      unfold stats_invariant. rewrite Hw. cbn. split_and!; [|lia|done].
      by intros i j a b _ ?. }
  split_and!; [done..|]. by apply discarding_rate_ordered.
Qed.

End LearnerWorker.

(** * V-trace with ratios equal to zero ([C8]) *)

Section VtraceFacts.

Variables (recurrence batch_size : Z) (gamma : Qc).

(** The number of trajectories of the minibatch *)
Variable n : nat.

Hypothesis recurrence_pos : 0 < recurrence.
Hypothesis batch_size_eq : batch_size = recurrence * Z.of_nat n.

Lemma arange_stride (i : Z) :
  0 ≤ i < recurrence →
  Np.arange i batch_size recurrence
  = Ok ((λ k : nat, i + Z.of_nat k * recurrence) <$> seq 0 n).
Proof.
  intros Hi. unfold Np.arange.
  destruct (Z.eqb_spec recurrence 0); [lia|].
  replace (Z.to_nat (- ((i - batch_size) / recurrence))) with n; [done|].
  rewrite batch_size_eq.
  replace (i - recurrence * Z.of_nat n) with (i + - Z.of_nat n * recurrence) by lia.
  rewrite Z.div_add by lia. rewrite Z.div_small by lia. lia.
Qed.

Lemma stride_in_range (i : Z) :
  0 ≤ i < recurrence →
  Forall (λ j, 0 ≤ j < batch_size) ((λ k : nat, i + Z.of_nat k * recurrence) <$> seq 0 n).
Proof.
  intros Hi. apply Forall_fmap, Forall_forall. intros k Hk%elem_of_seq. cbn. nia.
Qed.

Lemma elem_of_stride (i : Z) (t : nat) :
  0 ≤ i < recurrence → Z.of_nat t < batch_size →
  Z.of_nat t ∈ (λ k : nat, i + Z.of_nat k * recurrence) <$> seq 0 n
  ↔ Z.of_nat t mod recurrence = i.
Proof.
  intros Hi Ht. rewrite list_elem_of_fmap. split.
  - intros (k & -> & _). rewrite Z.mod_add by lia. by apply Z.mod_small.
  - intros Hmod. exists (Z.to_nat (Z.of_nat t / recurrence)). split.
    + rewrite Z2Nat.id by (apply Z.div_pos; lia).
      rewrite <- Hmod. rewrite (Z.div_mod (Z.of_nat t) recurrence) at 1 by lia. lia.
    + apply elem_of_seq. split; [lia|]. cbn.
      assert (Z.of_nat t / recurrence < Z.of_nat n); [|lia].
      apply Z.div_lt_upper_bound; lia.
Qed.

End VtraceFacts.

Lemma index_in_range {A} (x : list A) (j : Z) (d : A) :
  0 ≤ j < Py.len x → Py.index x j = Ok (default d (x !! Z.to_nat j)).
Proof.
  intros Hj. unfold Py.index.
  destruct (Z.ltb_spec j 0); [lia|].
  destruct (Z.leb_spec 0 j); [|lia]. destruct (Z.ltb_spec j (Py.len x)); [|lia]. cbn.
  destruct (x !! Z.to_nat j) eqn:Hx; [done|].
  apply lookup_ge_None in Hx. unfold Py.len in Hj. lia.
Qed.

Lemma gather_in_range {A} (x : list A) (idx : list Z) (d : A) :
  Forall (λ j, 0 ≤ j < Py.len x) idx →
  Torch.gather x idx = Ok ((λ j, default d (x !! Z.to_nat j)) <$> idx).
Proof.
  unfold Torch.gather. induction 1 as [|j idx Hj _ IH]; cbn; [done|].
  by rewrite (index_in_range _ _ d), IH.
Qed.

(** Writing at each index the value that [source] has there. *)
Lemma scatter_gather {A} (source x : list A) (idx : list Z) (d : A) :
  length x = length source →
  Forall (λ j, 0 ≤ j < Py.len source) idx →
  ∃ x', Torch.scatter x idx ((λ j, default d (source !! Z.to_nat j)) <$> idx) = Ok x' ∧
        length x' = length x ∧
        ∀ t : nat, x' !! t = if decide (Z.of_nat t ∈ idx) then source !! t else x !! t.
Proof.
  intros Hlen Hidx. revert x Hlen.
  induction Hidx as [|j idx Hj _ IH]; intros x Hlen; cbn.
  { exists x. split_and!; [done..|]. intros t. by rewrite decide_False by apply not_elem_of_nil. }
  unfold Py.len in *. rewrite Hlen.
  destruct (Z.ltb_spec j 0); [lia|].
  destruct (Z.leb_spec 0 j); [|lia].
  destruct (Z.ltb_spec j (Z.of_nat (length source))); [|lia]. cbn.
  destruct (IH (<[Z.to_nat j := default d (source !! Z.to_nat j)]> x))
    as (x' & -> & Hlen' & Hlookup); [by rewrite length_insert|].
  exists x'. split_and!; [done|by rewrite Hlen', length_insert|].
  intros t. rewrite Hlookup.
  destruct (decide (Z.of_nat t ∈ idx)) as [Hin|Hnotin].
  - by rewrite decide_True by (by right).
  - destruct (decide (Z.of_nat t = j)) as [<-|Hne].
    + rewrite decide_True by (by left). rewrite Nat2Z.id.
      rewrite list_lookup_insert_eq by lia.
      destruct (source !! t) eqn:Hsource; [done|].
      apply lookup_ge_None in Hsource. lia.
    + rewrite decide_False by (by intros [?|?]%elem_of_cons).
      apply list_lookup_insert_ne. lia.
Qed.

(** Writing zeros into zeros. *)
Lemma scatter_zeros (m : nat) (idx : list Z) :
  Forall (λ j, 0 ≤ j < Z.of_nat m) idx →
  Torch.scatter (replicate m Float.zero) idx (replicate (length idx) Float.zero)
  = Ok (replicate m Float.zero).
Proof.
  induction 1 as [|j idx Hj _ IH]; cbn; [done|].
  unfold Py.len. rewrite length_replicate.
  destruct (Z.ltb_spec j 0); [lia|].
  destruct (Z.leb_spec 0 j); [|lia]. destruct (Z.ltb_spec j (Z.of_nat m)); [|lia]. cbn.
  rewrite list_insert_id; [done|]. apply lookup_replicate_2. lia.
Qed.

Lemma zip_broadcast_same_length {A} (f : A → A → A) (a b : list A) :
  length a = length b → Torch.zip_broadcast f a b = Ok (zip_with f a b).
Proof. intros Hlen. unfold Torch.zip_broadcast. by rewrite decide_True. Qed.

(** Zero times a finite value is zero; zero times an infinity is not. *)
Lemma mul_zero_l (x : Float.t) :
  Float.finite x → Float.mul Float.zero x = Float.zero.
Proof. destruct x as [q| | |]; [|done..]. intros _. cbn. f_equal. ring. Qed.

Lemma mul_zero_r (x : Float.t) :
  Float.finite x → Float.mul x Float.zero = Float.zero.
Proof. destruct x as [q| | |]; [|done..]. intros _. cbn. f_equal. ring. Qed.

Lemma add_zero_r (x : Float.t) : Float.add x Float.zero = x.
Proof. destruct x as [q| | |]; [|done..]. cbn. f_equal. ring. Qed.

Lemma mul_zeros_l (m : nat) (b : list Float.t) :
  length b = m → Forall Float.finite b →
  Tensor.mul (replicate m Float.zero) b = Ok (replicate m Float.zero).
Proof.
  intros <- Hb. unfold Tensor.mul.
  rewrite zip_broadcast_same_length by (by rewrite length_replicate). f_equal.
  induction Hb as [|x b Hx _ IH]; [done|].
  cbn [length replicate zip_with]. by rewrite mul_zero_l, IH.
Qed.

Lemma mul_zeros_r (m : nat) (a : list Float.t) :
  length a = m → Forall Float.finite a →
  Tensor.mul a (replicate m Float.zero) = Ok (replicate m Float.zero).
Proof.
  intros <- Ha. unfold Tensor.mul.
  rewrite zip_broadcast_same_length by (by rewrite length_replicate). f_equal.
  induction Ha as [|x a Hx _ IH]; [done|].
  cbn [length replicate zip_with]. by rewrite mul_zero_r, IH.
Qed.

Lemma add_zeros_r (m : nat) (a : list Float.t) :
  length a = m → Tensor.add a (replicate m Float.zero) = Ok a.
Proof.
  intros <-. unfold Tensor.add.
  rewrite zip_broadcast_same_length by (by rewrite length_replicate). f_equal.
  induction a as [|x a IH]; [done|].
  cbn [length replicate zip_with]. by rewrite add_zero_r, IH.
Qed.

Lemma zip_broadcast_length {A} (f : A → A → A) (a b : list A) :
  length a = length b →
  ∃ c, Torch.zip_broadcast f a b = Ok c ∧ length c = length a.
Proof.
  intros Hlen. rewrite zip_broadcast_same_length by done.
  eexists; split; [done|]. rewrite length_zip_with. lia.
Qed.

Lemma min_zeros (m : nat) :
  Tensor.min_ [Float.Fin 1] (replicate m Float.zero) = Ok (replicate m Float.zero).
Proof.
  unfold Tensor.min_, Torch.zip_broadcast. cbn [length].
  rewrite length_replicate. case_decide as Hm.
  - by subst m.
  - f_equal. induction m as [|m IH]; [done|]. cbn. f_equal.
    clear. induction m as [|m IH]; [done|]. cbn. by f_equal.
Qed.

Lemma mul_length (a b : list Float.t) :
  length a = length b → ∃ c, Tensor.mul a b = Ok c ∧ length c = length a.
Proof. apply zip_broadcast_length. Qed.

Lemma add_length (a b : list Float.t) :
  length a = length b → ∃ c, Tensor.add a b = Ok c ∧ length c = length a.
Proof. apply zip_broadcast_length. Qed.

Lemma sub_length (a b : list Float.t) :
  length a = length b → ∃ c, Tensor.sub a b = Ok c ∧ length c = length a.
Proof. apply zip_broadcast_length. Qed.

(** Sums, differences and products of finite values are finite. *)
Lemma zip_finite (f : Float.t → Float.t → Float.t) (a b : list Float.t) :
  (∀ x y, Float.finite x → Float.finite y → Float.finite (f x y)) →
  length a = length b → Forall Float.finite a → Forall Float.finite b →
  ∃ c, Torch.zip_broadcast f a b = Ok c ∧ length c = length a ∧ Forall Float.finite c.
Proof.
  intros Hf Hlen Ha Hb. rewrite zip_broadcast_same_length by done.
  eexists; split_and!; [done|rewrite length_zip_with; lia|].
  clear Hlen. revert b Hb. induction Ha as [|x a Hx _ IH]; intros b Hb; [done|].
  destruct Hb as [|y b Hy Hb]; [done|]. cbn. constructor; auto.
Qed.

Lemma add_finite (x y : Float.t) :
  Float.finite x → Float.finite y → Float.finite (Float.add x y).
Proof. by destruct x, y. Qed.

Lemma sub_finite (x y : Float.t) :
  Float.finite x → Float.finite y → Float.finite (Float.sub x y).
Proof. by destruct x, y. Qed.

Lemma mul_finite (x y : Float.t) :
  Float.finite x → Float.finite y → Float.finite (Float.mul x y).
Proof. by destruct x, y. Qed.

Lemma tensor_add_finite (a b : list Float.t) :
  length a = length b → Forall Float.finite a → Forall Float.finite b →
  ∃ c, Tensor.add a b = Ok c ∧ length c = length a ∧ Forall Float.finite c.
Proof. apply zip_finite, add_finite. Qed.

Lemma tensor_sub_finite (a b : list Float.t) :
  length a = length b → Forall Float.finite a → Forall Float.finite b →
  ∃ c, Tensor.sub a b = Ok c ∧ length c = length a ∧ Forall Float.finite c.
Proof. apply zip_finite, sub_finite. Qed.

Lemma tensor_mul_finite (a b : list Float.t) :
  length a = length b → Forall Float.finite a → Forall Float.finite b →
  ∃ c, Tensor.mul a b = Ok c ∧ length c = length a ∧ Forall Float.finite c.
Proof. apply zip_finite, mul_finite. Qed.

Lemma div_finite (x : Float.t) (q : Qc) :
  q ≠ 0%Qc → Float.finite x → Float.finite (Float.div x (Float.Fin q)).
Proof.
  intros Hq. destruct x as [a| | |]; [|done..]. intros _. cbn.
  by rewrite decide_False.
Qed.

Lemma gathered_finite (x : list Float.t) (idx : list Z) :
  Forall Float.finite x →
  Forall Float.finite ((λ j, default Float.zero (x !! Z.to_nat j)) <$> idx).
Proof.
  intros Hx. apply Forall_fmap, Forall_forall. intros j _. cbn.
  destruct (x !! Z.to_nat j) as [v|] eqn:Hv; [|done]. cbn.
  by eapply (Forall_lookup_1 _ _ _ _ Hx).
Qed.

Lemma gathered_zeros (m : nat) (idx : list Z) :
  (λ j, default Float.zero (replicate m Float.zero !! Z.to_nat j)) <$> idx
  = replicate (length idx) Float.zero.
Proof.
  induction idx as [|j idx IH]; [done|]. cbn. rewrite IH. f_equal.
  destruct (replicate m Float.zero !! Z.to_nat j) eqn:H; [|done].
  by apply lookup_replicate in H as [-> _].
Qed.

Section VtraceZero.

Variables (recurrence batch_size : Z) (gamma : Qc) (n : nat).
Variables (values_cpu rewards_cpu dones_cpu : list Float.t).

Hypothesis recurrence_pos : 0 < recurrence.
Hypothesis batch_size_eq : batch_size = recurrence * Z.of_nat n.
Hypothesis length_values : Py.len values_cpu = batch_size.
Hypothesis length_rewards : Py.len rewards_cpu = batch_size.
Hypothesis length_dones : Py.len dones_cpu = batch_size.
Hypothesis finite_values : Forall Float.finite values_cpu.
Hypothesis finite_rewards : Forall Float.finite rewards_cpu.
Hypothesis finite_dones : Forall Float.finite dones_cpu.

(** The ratios of the minibatch, clipped: all zero. *)
Let zeros : list Float.t := replicate (length values_cpu) Float.zero.

Let loop_invariant := zero_ratio_invariant recurrence n values_cpu.

Lemma vtrace_step_zero (i : Z) (l : VtraceLoop) :
  0 ≤ i < recurrence → loop_invariant (i + 1) l →
  ∃ l', vtrace_step recurrence batch_size gamma
          rewards_cpu dones_cpu values_cpu zeros zeros i l = Ok l' ∧
        loop_invariant i l'.
Proof.
  intros Hi (Hnv & Hnvs & Hfin_nv & Hfin_nvs & Hadv & Hlen_vs & Hvs). unfold vtrace_step.
  rewrite (arange_stride _ _ n) by done.
  set (timestep := (λ k : nat, i + Z.of_nat k * recurrence) <$> seq 0 n).
  assert (length timestep = n) as Hlen_t
    by (unfold timestep; by rewrite length_fmap, length_seq).
  pose proof (stride_in_range _ _ n recurrence_pos batch_size_eq i Hi) as Hrange.
  fold timestep in Hrange. rewrite ret_bind.
  rewrite (gather_in_range rewards_cpu _ Float.zero), ret_bind
    by (by rewrite length_rewards).
  rewrite (gather_in_range dones_cpu _ Float.zero), ret_bind by (by rewrite length_dones).
  rewrite (gather_in_range values_cpu _ Float.zero), ret_bind
    by (by rewrite length_values).
  assert (Py.len zeros = batch_size) as Hlen_z
    by (unfold zeros, Py.len; rewrite length_replicate; exact length_values).
  rewrite !(gather_in_range zeros _ Float.zero), !ret_bind by (by rewrite Hlen_z).
  assert ((λ j, default Float.zero (zeros !! Z.to_nat j)) <$> timestep
          = replicate n Float.zero)
    as Hgathered by (unfold zeros; by rewrite gathered_zeros, Hlen_t).
  rewrite !Hgathered.
  set (rewards := (λ j, default Float.zero (rewards_cpu !! Z.to_nat j)) <$> timestep).
  set (curr_values := (λ j, default Float.zero (values_cpu !! Z.to_nat j)) <$> timestep).
  set (not_done_times_gamma :=
         (λ x, Float.mul x (Float.Fin gamma)) <$>
           ((λ d, Float.sub (Float.Fin 1) d) <$>
              ((λ j, default Float.zero (dones_cpu !! Z.to_nat j)) <$> timestep))).
  assert (length rewards = n) as Hlen_r by (unfold rewards; by rewrite length_fmap).
  assert (length curr_values = n) as Hlen_c by (unfold curr_values; by rewrite length_fmap).
  assert (length not_done_times_gamma = n) as Hlen_g
    by (unfold not_done_times_gamma; by rewrite !length_fmap).
  assert (Forall Float.finite rewards) as Hfin_r by (by apply gathered_finite).
  assert (Forall Float.finite curr_values) as Hfin_c by (by apply gathered_finite).
  assert (Forall Float.finite not_done_times_gamma) as Hfin_g.
  { unfold not_done_times_gamma. apply Forall_fmap, Forall_fmap.
    eapply Forall_impl; [by apply (gathered_finite dones_cpu)|].
    intros d Hd. unfold compose. apply mul_finite; [by apply sub_finite|done]. }
  (* delta_s *)
  destruct (tensor_mul_finite not_done_times_gamma (l_next_values l))
    as (x1 & -> & Hx1 & Hfin1); [congruence|done|done|]. rewrite ret_bind.
  destruct (tensor_add_finite rewards x1) as (x2 & -> & Hx2 & Hfin2);
    [congruence|done|done|]. rewrite ret_bind.
  destruct (tensor_sub_finite x2 curr_values) as (x3 & -> & Hx3 & Hfin3);
    [congruence|done|done|]. rewrite ret_bind.
  rewrite mul_zeros_l, ret_bind by (done || congruence).
  (* adv *)
  destruct (tensor_mul_finite not_done_times_gamma (l_next_vs l))
    as (x4 & -> & Hx4 & Hfin4); [congruence|done|done|]. rewrite ret_bind.
  destruct (tensor_add_finite rewards x4) as (x5 & -> & Hx5 & Hfin5);
    [congruence|done|done|]. rewrite ret_bind.
  destruct (tensor_sub_finite x5 curr_values) as (x6 & -> & Hx6 & Hfin6);
    [congruence|done|done|]. rewrite ret_bind.
  rewrite mul_zeros_l, ret_bind by (done || congruence).
  change (l_adv l = zeros) in Hadv. rewrite Hadv.
  assert (Torch.scatter zeros timestep (replicate n Float.zero) = Ok zeros) as ->.
  { unfold zeros. rewrite <- Hlen_t. apply scatter_zeros.
    unfold Py.len in length_values. by rewrite length_values. }
  rewrite ret_bind.
  (* next_vs and vs *)
  rewrite add_zeros_r, ret_bind by done.
  rewrite mul_zeros_r, ret_bind by done.
  destruct (tensor_sub_finite (l_next_vs l) (l_next_values l))
    as (z & -> & Hz & Hfinz); [congruence|done|done|]. rewrite ret_bind.
  rewrite mul_zeros_l, ret_bind by (done || congruence).
  rewrite add_zeros_r, ret_bind by done.
  destruct (scatter_gather values_cpu (l_vs l) timestep Float.zero)
    as (vs' & Hscatter & Hlen_vs' & Hvs'); [done|by rewrite length_values|].
  fold curr_values in Hscatter. rewrite Hscatter, ret_bind.
  eexists. split; [done|]. split_and!; cbn; [done|done|done|done|done|congruence|].
  intros t Ht. rewrite Hvs'.
  assert (Z.of_nat t < batch_size) as Ht'
    by (unfold Py.len in length_values; lia).
  pose proof (elem_of_stride _ _ n recurrence_pos batch_size_eq i t Hi Ht') as Hin.
  fold timestep in Hin.
  pose proof (Z.mod_pos_bound (Z.of_nat t) recurrence recurrence_pos).
  destruct (decide (Z.of_nat t ∈ timestep)) as [Ht_in|Ht_out].
  - apply Hin in Ht_in. by rewrite decide_True by lia.
  - rewrite Hvs by done.
    assert (Z.of_nat t mod recurrence ≠ i) by (by rewrite <- Hin).
    destruct (decide (i + 1 ≤ Z.of_nat t mod recurrence)).
    + by rewrite decide_True by lia.
    + by rewrite decide_False by lia.
Qed.

Lemma vtrace_loop_zero (m : nat) (l : VtraceLoop) :
  Z.of_nat m ≤ recurrence → loop_invariant (Z.of_nat m) l →
  ∃ l', for_each (vtrace_step recurrence batch_size gamma
                    rewards_cpu dones_cpu values_cpu zeros zeros)
          (reverse (seqZ 0 (Z.of_nat m))) l = Ok l' ∧
        loop_invariant 0 l'.
Proof.
  revert l; induction m as [|m IH]; intros l Hm Hinv.
  { exists l. split; [done|]. exact Hinv. }
  rewrite seqZ_S, reverse_app. cbn [reverse rev_append app for_each].
  change (0 + Z.of_nat m) with (Z.of_nat m).
  destruct (vtrace_step_zero (Z.of_nat m) l) as (l1 & -> & Hinv1); [lia| |].
  { by replace (Z.of_nat m + 1) with (Z.of_nat (S m)) by lia. }
  rewrite ret_bind. apply IH; [lia|done].
Qed.

End VtraceZero.

Lemma mean_zeros (m : nat) :
  m ≠ 0%nat → Tensor.mean (replicate m Float.zero) = Float.zero.
Proof.
  intros Hm. unfold Tensor.mean.
  assert (foldr Float.add Float.zero (replicate m Float.zero) = Float.zero) as ->.
  { clear Hm. induction m as [|m IH]; [done|]. cbn [replicate foldr]. rewrite IH.
    apply add_zero_r. }
  unfold Float.zero, Float.div. rewrite decide_False.
  - f_equal. unfold Qcdiv. ring.
  - unfold Py.len. rewrite length_replicate. rewrite <- Z2Qc_inj_0.
    intros H%Z2Qc_inj. lia.
Qed.

(** Zero, normalised: the divisor is [1e-2] or more, also with a
    standard deviation that is infinite or NaN. *)
Lemma normalized_zero (std : Float.t) :
  Float.div (Float.sub Float.zero Float.zero)
    (Float.py_max (Float.Fin (Q2Qc (1 # 100))) std) = Float.zero.
Proof.
  assert (∀ q, q ≠ 0%Qc →
               Float.div (Float.sub Float.zero Float.zero) (Float.Fin q) = Float.zero)
    as Hdiv.
  { intros q Hq. cbn. rewrite decide_False by done.
    unfold Float.zero. f_equal. unfold Qcdiv. ring. }
  assert (Q2Qc (1 # 100) ≠ 0%Qc) as Hfloor.
  { intros H. apply (f_equal this) in H. vm_compute in H. discriminate H. }
  unfold Float.py_max. destruct std as [q| | |]; cbn [Float.ltb].
  - case_bool_decide as Hlt; apply Hdiv; [|done].
    intros ->. by vm_compute in Hlt.
  - done.
  - by apply Hdiv.
  - by apply Hdiv.
Qed.

Lemma zeros_replicate (l : list Float.t) :
  Forall (λ x, x = Float.zero) l → l = replicate (length l) Float.zero.
Proof. induction 1 as [|x l -> _ IH]; [done|]. cbn. by rewrite <- IH. Qed.

(** [C8] With every importance ratio of the minibatch equal to zero, a
    discount that is not zero and finite values, rewards and episode
    ends, the V-trace targets are the values at every timestep of every
    sub-trajectory and the advantages are zero, before they are
    normalised and after, whatever the standard deviation of the
    advantages is taken to be. *)
Theorem vtrace_zero_ratios (torch_std : list Float.t → Float.t)
    (recurrence batch_size : Z) (gamma : Qc) (num_trajectories : Z)
    (ratios values rewards dones : list Float.t) :
  0 < recurrence →
  recurrence * num_trajectories = batch_size →
  Py.len ratios = batch_size → Py.len values = batch_size →
  Py.len rewards = batch_size → Py.len dones = batch_size →
  gamma ≠ 0%Qc →
  Forall Float.finite values → Forall Float.finite rewards → Forall Float.finite dones →
  Forall (λ ratio, ratio = Float.zero) ratios →
  ∃ adv,
    vtrace recurrence batch_size gamma num_trajectories ratios values rewards dones
      = Ok (values, adv) ∧
    Py.len adv = batch_size ∧
    Forall (λ a, a = Float.zero) adv ∧
    Forall (λ a, a = Float.zero) (normalize_advantage torch_std adv).
Proof.
  intros Hrec Hbatch Hlen_ratios Hlen_values Hlen_rewards Hlen_dones Hgamma
    Hfin_values Hfin_rewards Hfin_dones Hratios.
  set (n := Z.to_nat num_trajectories).
  assert (0 ≤ num_trajectories) as Hn by (unfold Py.len in *; nia).
  assert (batch_size = recurrence * Z.of_nat n) as Hbatch' by (unfold n; lia).
  set (zeros := replicate (length values) Float.zero).
  assert (ratios = zeros) as ->.
  { rewrite (zeros_replicate _ Hratios). unfold zeros. f_equal.
    unfold Py.len in *. lia. }
  exists zeros. unfold vtrace.
  rewrite Hbatch, Z.eqb_refl. cbn [Py.assert]. rewrite ret_bind.
  unfold zeros at 1 2. rewrite !min_zeros, !ret_bind. fold zeros.
  assert (Tensor.zeros (num_trajectories * recurrence) = Ok zeros) as ->.
  { unfold Tensor.zeros. destruct (Z.ltb_spec (num_trajectories * recurrence) 0); [nia|].
    unfold zeros. do 2 f_equal. unfold Py.len in *. lia. }
  rewrite !ret_bind.
  rewrite (arange_stride _ _ n) by (done || lia).
  pose proof (stride_in_range _ _ n Hrec Hbatch' (recurrence - 1) ltac:(lia)) as Hrange.
  set (last_timestep :=
         (λ k : nat, recurrence - 1 + Z.of_nat k * recurrence) <$> seq 0 n) in *.
  rewrite ret_bind.
  rewrite (gather_in_range values _ Float.zero), ret_bind by (by rewrite Hlen_values).
  rewrite (gather_in_range rewards _ Float.zero), ret_bind by (by rewrite Hlen_rewards).
  assert (length last_timestep = n) as Hlen_t
    by (unfold last_timestep; by rewrite length_fmap, length_seq).
  destruct (tensor_sub_finite
              ((λ j, default Float.zero (values !! Z.to_nat j)) <$> last_timestep)
              ((λ j, default Float.zero (rewards !! Z.to_nat j)) <$> last_timestep))
    as (x & -> & Hx & Hfin_x);
    [by rewrite !length_fmap|by apply gathered_finite|by apply gathered_finite|].
  rewrite ret_bind. rewrite length_fmap, Hlen_t in Hx.
  set (next_values := fmap (M:=list) (λ x, Float.div x (Float.Fin gamma)) x).
  assert (Forall Float.finite next_values) as Hfin_next.
  { unfold next_values. apply Forall_fmap. eapply Forall_impl; [exact Hfin_x|].
    intros v Hv. cbn. by apply div_finite. }
  destruct (vtrace_loop_zero recurrence batch_size gamma n values rewards dones
              Hrec Hbatch' Hlen_values Hlen_rewards Hlen_dones
              Hfin_values Hfin_rewards Hfin_dones
              (Z.to_nat recurrence) (MkVtraceLoop next_values next_values zeros zeros))
    as (l & Hloop & Hl).
  { lia. }
  { split_and!; cbn; [by unfold next_values; rewrite length_fmap..|done|done|done|
                       by unfold zeros; rewrite length_replicate|].
    intros t Ht. rewrite Z2Nat.id by lia.
    pose proof (Z.mod_pos_bound (Z.of_nat t) recurrence Hrec).
    rewrite decide_False by lia. unfold zeros. by apply lookup_replicate_2. }
  rewrite Z2Nat.id in Hloop by lia. fold zeros in Hloop. rewrite Hloop, ret_bind.
  destruct Hl as (_ & _ & _ & _ & Hadv & Hlen_vs & Hvs).
  assert (l_vs l = values) as ->.
  { apply list_eq. intros t. destruct (decide (t < length values)%nat) as [Ht|Ht].
    - rewrite Hvs by done. rewrite decide_True; [done|].
      by apply Z.mod_pos_bound.
    - rewrite !lookup_ge_None_2 by lia. done. }
  rewrite Hadv. fold zeros. split_and!.
  - done.
  - unfold zeros, Py.len. rewrite length_replicate. exact Hlen_values.
  - unfold zeros. apply Forall_replicate. done.
  - unfold normalize_advantage, zeros.
    destruct (length values) as [|m] eqn:Hm; [by constructor|].
    rewrite mean_zeros by done.
    apply Forall_fmap, Forall_replicate. cbn. apply normalized_zero.
Qed.

(** * Minibatches of the buffer *)








(** * The clipped losses of PPO *)

Lemma sum_le (x y : list Qc) :
  Forall2 Qcle x y → (foldr Qcplus 0 x ≤ foldr Qcplus 0 y)%Qc.
Proof.
  induction 1 as [|a b x y Hab _ IH]; cbn; [apply Qcle_refl|].
  by apply Qcplus_le_compat.
Qed.

Lemma inv_length_nonneg (n : nat) : (0 ≤ / Qc_of_Z (Z.of_nat n))%Qc.
Proof.
  destruct n as [|n]; [done|].
  apply Qclt_le_weak, Qcinv_pos. rewrite <- Z2Qc_inj_0.
  apply (proj1 (Z2Qc_inj_lt 0 (Z.of_nat (S n)))). lia.
Qed.

(** The mean is monotone. *)
Lemma mean_le (x y : list Qc) :
  Forall2 Qcle x y → (Torch.mean x ≤ Torch.mean y)%Qc.
Proof.
  intros Hxy. unfold Torch.mean, Qcdiv, Py.len.
  rewrite (Forall2_length _ _ _ Hxy).
  apply Qcmult_le_compat_r; [by apply sum_le|apply inv_length_nonneg].
Qed.

Lemma sum_nonneg (x : list Qc) : Forall (Qcle 0) x → (0 ≤ foldr Qcplus 0 x)%Qc.
Proof.
  induction 1 as [|a x Ha _ IH]; cbn; [apply Qcle_refl|].
  pose proof (Qcplus_le_compat 0%Qc a 0%Qc (foldr Qcplus 0%Qc x) Ha IH) as H.
  by rewrite Qcplus_0_l in H.
Qed.

Lemma mean_nonneg (x : list Qc) : Forall (Qcle 0) x → (0 ≤ Torch.mean x)%Qc.
Proof.
  intros Hx. unfold Torch.mean, Qcdiv.
  pose proof (Qcmult_le_compat_r 0%Qc (foldr Qcplus 0%Qc x) (/ Qc_of_Z (Py.len x))%Qc
                (sum_nonneg x Hx) (inv_length_nonneg (length x))) as H.
  by rewrite Qcmult_0_l in H.
Qed.

Lemma clamp_length (x : list Qc) (lo hi : Qc) :
  length (torch_clamp x lo hi) = length x.
Proof. unfold torch_clamp. by rewrite length_fmap. Qed.

(** Inside the bounds [torch.clamp] changes nothing. *)
Lemma clamp_inside (x : list Qc) (lo hi : Qc) :
  Forall (λ v, (lo ≤ v)%Qc ∧ (v ≤ hi)%Qc) x → torch_clamp x lo hi = x.
Proof.
  unfold torch_clamp. induction 1 as [|v x [Hlo Hhi] _ IH]; [done|].
  cbn. rewrite IH. f_equal.
  rewrite (decide_False (P := (v < lo)%Qc)) by (by apply Qcle_not_lt).
  by rewrite decide_False by (by apply Qcle_not_lt).
Qed.

Lemma zip_min_le (u c : list Qc) :
  length u = length c →
  Forall2 Qcle (zip_with (λ a b, if decide (b < a)%Qc then b else a) u c) u.
Proof.
  revert c; induction u as [|a u IH]; intros [|b c] Hlen; cbn in *;
    [constructor|done|done|].
  constructor; [|apply IH; lia].
  case_decide; [by apply Qclt_le_weak|apply Qcle_refl].
Qed.

Lemma zip_min_same (u : list Qc) :
  zip_with (λ a b, if decide (b < a)%Qc then b else a) u u = u.
Proof. induction u as [|a u IH]; cbn; [done|]. rewrite IH. by case_decide. Qed.

(** The clipped surrogate of PPO is a pessimistic one: on ratios and
    advantages of one shape [_policy_loss] returns a loss that is never
    below the loss without clipping, the negated mean of
    [ratio * adv], and that is this loss when every ratio is within the
    clip range.  The tensors are not empty: the mean of an empty tensor
    is NaN in torch. *)
Theorem policy_loss_clipped (ratio adv : list Qc) (clip_ratio_low clip_ratio_high : Qc) :
  ratio ≠ [] →
  length ratio = length adv →
  ∃ loss,
    _policy_loss ratio adv clip_ratio_low clip_ratio_high = Ok loss ∧
    (- Torch.mean (zip_with Qcmult ratio adv) ≤ loss)%Qc ∧
    (Forall (λ r, (clip_ratio_low ≤ r)%Qc ∧ (r ≤ clip_ratio_high)%Qc) ratio →
     loss = (- Torch.mean (zip_with Qcmult ratio adv))%Qc).
Proof.
  intros _ Hlen. unfold _policy_loss, Torch.mul, Torch.min_.
  rewrite (zip_broadcast_same_length _ ratio adv), ret_bind by done.
  rewrite (zip_broadcast_same_length _ (torch_clamp _ _ _) adv), ret_bind
    by (by rewrite clamp_length).
  rewrite zip_broadcast_same_length, ret_bind
    by (by rewrite !length_zip_with, clamp_length).
  eexists. split; [done|]. split.
  - apply Qcopp_le_compat, mean_le, zip_min_le.
    by rewrite !length_zip_with, clamp_length.
  - intros Hinside. by rewrite clamp_inside, zip_min_same.
Qed.

Lemma square_nonneg (v : Qc) : (0 ≤ v * v)%Qc.
Proof.
  destruct (Qclt_le_dec v 0) as [Hneg|Hpos].
  - assert (0 ≤ - v)%Qc as Hopp.
    { apply Qclt_le_weak, Qcopp_le_compat in Hneg.
      by replace (- 0)%Qc with 0%Qc in Hneg by ring. }
    pose proof (Qcmult_le_compat_r 0%Qc (- v)%Qc (- v)%Qc Hopp Hopp) as H.
    rewrite Qcmult_0_l in H. by replace (- v * - v)%Qc with (v * v)%Qc in H by ring.
  - pose proof (Qcmult_le_compat_r 0%Qc v v Hpos Hpos) as H.
    by rewrite Qcmult_0_l in H.
Qed.

Lemma pow2_nonneg (x : list Qc) : Forall (Qcle 0) (torch_pow2 x).
Proof. unfold torch_pow2. apply Forall_fmap, Forall_true. intros v. apply square_nonneg. Qed.

Lemma zip_max_ge (a b : list Qc) :
  length a = length b →
  Forall2 Qcle a (zip_with (λ a b, if decide (a < b)%Qc then b else a) a b).
Proof.
  revert b; induction a as [|x a IH]; intros [|y b] Hlen; cbn in *;
    [constructor|done|done|].
  constructor; [|apply IH; lia].
  case_decide; [by apply Qclt_le_weak|apply Qcle_refl].
Qed.

Lemma zip_max_same (a : list Qc) :
  zip_with (λ a b, if decide (a < b)%Qc then b else a) a a = a.
Proof. induction a as [|x a IH]; cbn; [done|]. rewrite IH. by case_decide. Qed.

Lemma sub_same (x : list Qc) : zip_with Qcminus x x = replicate (length x) 0%Qc.
Proof. induction x as [|v x IH]; cbn; [done|]. rewrite IH. f_equal. ring. Qed.

Lemma clamp_zeros (m : nat) (clip : Qc) :
  (0 ≤ clip)%Qc → torch_clamp (replicate m 0%Qc) (- clip) clip = replicate m 0%Qc.
Proof.
  intros Hclip. apply clamp_inside, Forall_replicate. split; [|done].
  apply Qcopp_le_compat in Hclip. by replace (- 0)%Qc with 0%Qc in Hclip by ring.
Qed.

Lemma add_zeros (x : list Qc) : zip_with Qcplus x (replicate (length x) 0%Qc) = x.
Proof. induction x as [|v x IH]; cbn; [done|]. rewrite IH. f_equal. ring. Qed.

(** The clipped value loss is a pessimistic one too: on values and
    targets of one shape and with a coefficient that is not negative,
    [_value_loss] returns a loss that is not negative and never below
    the loss without clipping, the mean squared error times the
    coefficient, and that is this loss when the new values are the old
    ones.  The tensors are not empty, as for [_policy_loss]. *)
Theorem value_loss_clipped (value_loss_coeff : Qc) (new_values old_values target : list Qc)
    (clip_value : Qc) :
  new_values ≠ [] →
  length new_values = length old_values →
  length new_values = length target →
  (0 ≤ value_loss_coeff)%Qc →
  ∃ loss,
    _value_loss value_loss_coeff new_values old_values target clip_value = Ok loss ∧
    (Torch.mean (torch_pow2 (zip_with Qcminus new_values target)) * value_loss_coeff
     ≤ loss)%Qc ∧
    (0 ≤ loss)%Qc ∧
    (new_values = old_values → (0 ≤ clip_value)%Qc →
     loss = (Torch.mean (torch_pow2 (zip_with Qcminus new_values target))
             * value_loss_coeff)%Qc).
Proof.
  intros _ Hold Htarget Hcoeff. unfold _value_loss, Torch.sub, Torch.add, torch_max.
  rewrite (zip_broadcast_same_length _ new_values old_values), ret_bind by done.
  rewrite (zip_broadcast_same_length _ old_values), ret_bind
    by (rewrite clamp_length, length_zip_with; lia).
  rewrite (zip_broadcast_same_length _ new_values target), ret_bind by done.
  rewrite (zip_broadcast_same_length _ _ target), ret_bind
    by (rewrite !length_zip_with, clamp_length, length_zip_with; lia).
  set (original := torch_pow2 (zip_with Qcminus new_values target)).
  set (clipped := torch_pow2 _).
  assert (length original = length clipped) as Hlen.
  { unfold original, clipped, torch_pow2.
    rewrite !length_fmap, !length_zip_with, clamp_length, length_zip_with. lia. }
  rewrite zip_broadcast_same_length, ret_bind by done.
  eexists. split; [done|].
  assert (Torch.mean original * value_loss_coeff
          ≤ Torch.mean (zip_with (λ a b, if decide (a < b)%Qc then b else a)
                          original clipped) * value_loss_coeff)%Qc as Hle.
  { apply Qcmult_le_compat_r; [|done]. by apply mean_le, zip_max_ge. }
  split; [done|]. split.
  - eapply Qcle_trans; [|exact Hle].
    pose proof (Qcmult_le_compat_r 0%Qc (Torch.mean original) value_loss_coeff
                  (mean_nonneg _ (pow2_nonneg _)) Hcoeff) as H.
    by rewrite Qcmult_0_l in H.
  - intros -> Hclip.
    assert (clipped = original) as ->; [|by rewrite zip_max_same].
    unfold clipped, original. by rewrite sub_same, clamp_zeros, add_zeros.
Qed.

(** * The V-trace loop on any ratios *)

Lemma scatter_in_range {A} (x : list A) (idx : list Z) (v : list A) :
  Forall (λ j, 0 ≤ j < Py.len x) idx → length idx = length v →
  ∃ x', Torch.scatter x idx v = Ok x' ∧
        length x' = length x ∧
        ∀ t : nat, Z.of_nat t ∉ idx → x' !! t = x !! t.
Proof.
  intros Hidx. revert x v Hidx.
  induction idx as [|j idx IH]; intros x [|y v] Hidx Hlen; cbn in Hlen; try done.
  { exists x. by split_and!. }
  apply Forall_cons in Hidx as [Hj Hidx]. cbn.
  destruct (Z.ltb_spec j 0); [lia|].
  destruct (Z.leb_spec 0 j); [|lia].
  destruct (Z.ltb_spec j (Py.len x)); [|lia]. cbn.
  destruct (IH (<[Z.to_nat j := y]> x) v) as (x' & -> & Hlen' & Hframe).
  - unfold Py.len in *. by rewrite length_insert.
  - lia.
  - exists x'. split_and!; [done|by rewrite Hlen', length_insert|].
    intros t Ht. rewrite Hframe by (intros ?; apply Ht; by right).
    apply list_lookup_insert_ne. intros Heq. apply Ht.
    replace (Z.of_nat t) with j by lia. by left.
Qed.

Lemma min_length (ratios : list Float.t) :
  ∃ clipped, Tensor.min_ [Float.Fin 1] ratios = Ok clipped ∧ length clipped = length ratios.
Proof.
  unfold Tensor.min_, Torch.zip_broadcast. case_decide as Hlen.
  - eexists. split; [done|]. by rewrite length_zip_with, <- Hlen.
  - eexists. split; [done|]. by rewrite length_fmap.
Qed.

Section VtraceShape.

Variables (recurrence batch_size : Z) (gamma : Qc) (n : nat).
Variables (values_cpu rewards_cpu dones_cpu vtrace_rho vtrace_c : list Float.t).

Hypothesis recurrence_pos : 0 < recurrence.
Hypothesis batch_size_eq : batch_size = recurrence * Z.of_nat n.
Hypothesis length_values : Py.len values_cpu = batch_size.
Hypothesis length_rewards : Py.len rewards_cpu = batch_size.
Hypothesis length_dones : Py.len dones_cpu = batch_size.
Hypothesis length_rho : Py.len vtrace_rho = batch_size.
Hypothesis length_c : Py.len vtrace_c = batch_size.

(** A pass of the loop keeps the shapes and writes the targets and the
    advantages of its own timestep only. *)
Lemma vtrace_step_shape (i : Z) (l : VtraceLoop) :
  0 ≤ i < recurrence → vtrace_shapes n (length values_cpu) l →
  ∃ l', vtrace_step recurrence batch_size gamma
          rewards_cpu dones_cpu values_cpu vtrace_rho vtrace_c i l = Ok l' ∧
        vtrace_shapes n (length values_cpu) l' ∧
        ∀ t : nat, Z.of_nat t < batch_size → Z.of_nat t mod recurrence ≠ i →
                   l_adv l' !! t = l_adv l !! t ∧ l_vs l' !! t = l_vs l !! t.
Proof.
  intros Hi (Hnv & Hnvs & Hlen_vs & Hlen_adv). unfold vtrace_step.
  rewrite (arange_stride _ _ n) by done.
  set (timestep := (λ k : nat, i + Z.of_nat k * recurrence) <$> seq 0 n).
  assert (length timestep = n) as Hlen_t
    by (unfold timestep; by rewrite length_fmap, length_seq).
  pose proof (stride_in_range _ _ n recurrence_pos batch_size_eq i Hi) as Hrange.
  fold timestep in Hrange. rewrite ret_bind.
  rewrite (gather_in_range rewards_cpu _ Float.zero), ret_bind by (by rewrite length_rewards).
  rewrite (gather_in_range dones_cpu _ Float.zero), ret_bind by (by rewrite length_dones).
  rewrite (gather_in_range values_cpu _ Float.zero), ret_bind by (by rewrite length_values).
  rewrite (gather_in_range vtrace_rho _ Float.zero), ret_bind by (by rewrite length_rho).
  rewrite (gather_in_range vtrace_c _ Float.zero), ret_bind by (by rewrite length_c).
  set (rewards := (λ j, default Float.zero (rewards_cpu !! Z.to_nat j)) <$> timestep).
  set (curr_values := (λ j, default Float.zero (values_cpu !! Z.to_nat j)) <$> timestep).
  set (curr_vtrace_rho := (λ j, default Float.zero (vtrace_rho !! Z.to_nat j)) <$> timestep).
  set (curr_vtrace_c := (λ j, default Float.zero (vtrace_c !! Z.to_nat j)) <$> timestep).
  set (not_done_times_gamma :=
         (λ x, Float.mul x (Float.Fin gamma)) <$>
           ((λ d, Float.sub (Float.Fin 1) d) <$>
              ((λ j, default Float.zero (dones_cpu !! Z.to_nat j)) <$> timestep))).
  assert (length rewards = n) as Hlen_r by (unfold rewards; by rewrite length_fmap).
  assert (length curr_values = n) as Hlen_cv
    by (unfold curr_values; by rewrite length_fmap).
  assert (length curr_vtrace_rho = n) as Hlen_cr
    by (unfold curr_vtrace_rho; by rewrite length_fmap).
  assert (length curr_vtrace_c = n) as Hlen_cc
    by (unfold curr_vtrace_c; by rewrite length_fmap).
  assert (length not_done_times_gamma = n) as Hlen_g
    by (unfold not_done_times_gamma; by rewrite !length_fmap).
  destruct (mul_length not_done_times_gamma (l_next_values l)) as (x1 & -> & Hx1);
    [congruence|]. rewrite ret_bind.
  destruct (add_length rewards x1) as (x2 & -> & Hx2); [congruence|]. rewrite ret_bind.
  destruct (sub_length x2 curr_values) as (x3 & -> & Hx3); [congruence|]. rewrite ret_bind.
  destruct (mul_length curr_vtrace_rho x3) as (delta_s & -> & Hdelta); [congruence|].
  rewrite ret_bind.
  destruct (mul_length not_done_times_gamma (l_next_vs l)) as (x4 & -> & Hx4);
    [congruence|]. rewrite ret_bind.
  destruct (add_length rewards x4) as (x5 & -> & Hx5); [congruence|]. rewrite ret_bind.
  destruct (sub_length x5 curr_values) as (x6 & -> & Hx6); [congruence|]. rewrite ret_bind.
  destruct (mul_length curr_vtrace_rho x6) as (x7 & -> & Hx7); [congruence|].
  rewrite ret_bind.
  assert (Forall (λ j, 0 ≤ j < Py.len (l_adv l)) timestep) as Hrange_adv.
  { unfold Py.len. rewrite Hlen_adv. unfold Py.len in length_values.
    by rewrite length_values. }
  assert (Forall (λ j, 0 ≤ j < Py.len (l_vs l)) timestep) as Hrange_vs.
  { unfold Py.len. rewrite Hlen_vs. unfold Py.len in length_values.
    by rewrite length_values. }
  destruct (scatter_in_range (l_adv l) timestep x7 Hrange_adv)
    as (adv & -> & Hlen_adv' & Hadv); [congruence|]. rewrite ret_bind.
  destruct (add_length curr_values delta_s) as (y1 & -> & Hy1); [congruence|].
  rewrite ret_bind.
  destruct (mul_length not_done_times_gamma curr_vtrace_c) as (y2 & -> & Hy2);
    [congruence|]. rewrite ret_bind.
  destruct (sub_length (l_next_vs l) (l_next_values l)) as (z & -> & Hz);
    [congruence|]. rewrite ret_bind.
  destruct (mul_length y2 z) as (y3 & -> & Hy3); [congruence|]. rewrite ret_bind.
  destruct (add_length y1 y3) as (next_vs & -> & Hnext_vs); [congruence|].
  rewrite ret_bind.
  destruct (scatter_in_range (l_vs l) timestep next_vs Hrange_vs)
    as (vs & -> & Hlen_vs' & Hvs); [congruence|]. rewrite ret_bind.
  eexists. split; [done|]. split.
  - unfold vtrace_shapes. cbn. split_and!; congruence.
  - intros t Ht Hmod. cbn.
    pose proof (elem_of_stride _ _ n recurrence_pos batch_size_eq i t Hi Ht) as Hin.
    fold timestep in Hin.
    split; [apply Hadv|apply Hvs]; by rewrite Hin.
Qed.

Lemma vtrace_loop_shape (m : nat) (l : VtraceLoop) :
  Z.of_nat m ≤ recurrence → vtrace_shapes n (length values_cpu) l →
  ∃ l', for_each (vtrace_step recurrence batch_size gamma
                    rewards_cpu dones_cpu values_cpu vtrace_rho vtrace_c)
          (reverse (seqZ 0 (Z.of_nat m))) l = Ok l' ∧
        vtrace_shapes n (length values_cpu) l' ∧
        ∀ t : nat, Z.of_nat t < batch_size → Z.of_nat m ≤ Z.of_nat t mod recurrence →
                   l_adv l' !! t = l_adv l !! t ∧ l_vs l' !! t = l_vs l !! t.
Proof.
  revert l; induction m as [|m IH]; intros l Hm Hshape.
  { exists l. by split_and!. }
  rewrite seqZ_S, reverse_app. cbn [reverse rev_append app for_each].
  change (0 + Z.of_nat m) with (Z.of_nat m).
  destruct (vtrace_step_shape (Z.of_nat m) l) as (l1 & -> & Hshape1 & Hframe1);
    [lia|done|].
  rewrite ret_bind.
  destruct (IH l1) as (l' & -> & Hshape' & Hframe'); [lia|done|].
  exists l'. split_and!; [done..|].
  intros t Ht Hmod.
  destruct (Hframe' t Ht) as [-> ->]; [lia|]. apply Hframe1; [done|lia].
Qed.

End VtraceShape.

(** The V-trace targets on well-shaped input: with a minibatch of
    [num_trajectories] sub-trajectories of [recurrence] steps each, the
    loop of [_train] raises nothing and returns one target and one
    advantage per step, whatever the ratios, values, rewards and episode
    ends are; a minibatch whose size is not
    [recurrence * num_trajectories] fails the assertion. *)
Theorem vtrace_shape (recurrence batch_size : Z) (gamma : Qc) (num_trajectories : Z)
    (ratios values rewards dones : list Float.t) :
  (0 < recurrence → recurrence * num_trajectories = batch_size →
   Py.len ratios = batch_size → Py.len values = batch_size →
   Py.len rewards = batch_size → Py.len dones = batch_size →
   ∃ vs adv,
     vtrace recurrence batch_size gamma num_trajectories ratios values rewards dones
       = Ok (vs, adv) ∧
     Py.len vs = batch_size ∧ Py.len adv = batch_size) ∧
  (recurrence * num_trajectories ≠ batch_size →
   vtrace recurrence batch_size gamma num_trajectories ratios values rewards dones
     = Raise AssertionError).
Proof.
  split.
  - intros Hrec Hbatch Hlen_ratios Hlen_values Hlen_rewards Hlen_dones.
    set (n := Z.to_nat num_trajectories).
    assert (0 ≤ num_trajectories) as Hn by (unfold Py.len in *; nia).
    assert (batch_size = recurrence * Z.of_nat n) as Hbatch' by (unfold n; lia).
    unfold vtrace. rewrite Hbatch, Z.eqb_refl. cbn [Py.assert]. rewrite ret_bind.
    destruct (min_length ratios) as (vtrace_rho & Hmin & Hlen_rho).
    rewrite !Hmin, !ret_bind.
    assert (Py.len vtrace_rho = batch_size) as Hlen_rho'
      by (unfold Py.len in *; congruence).
    assert (Tensor.zeros (num_trajectories * recurrence)
            = Ok (replicate (length values) Float.zero)) as ->.
    { unfold Tensor.zeros.
      destruct (Z.ltb_spec (num_trajectories * recurrence) 0); [nia|].
      do 2 f_equal. unfold Py.len in *. lia. }
    rewrite !ret_bind.
    rewrite (arange_stride _ _ n) by (done || lia).
    pose proof (stride_in_range _ _ n Hrec Hbatch' (recurrence - 1) ltac:(lia)) as Hrange.
    set (last_timestep :=
           (λ k : nat, recurrence - 1 + Z.of_nat k * recurrence) <$> seq 0 n) in *.
    rewrite ret_bind.
    rewrite (gather_in_range values _ Float.zero), ret_bind by (by rewrite Hlen_values).
    rewrite (gather_in_range rewards _ Float.zero), ret_bind by (by rewrite Hlen_rewards).
    assert (length last_timestep = n) as Hlen_t
      by (unfold last_timestep; by rewrite length_fmap, length_seq).
    destruct (sub_length ((λ j, default Float.zero (values !! Z.to_nat j)) <$> last_timestep)
                ((λ j, default Float.zero (rewards !! Z.to_nat j)) <$> last_timestep))
      as (x & -> & Hx); [by rewrite !length_fmap|].
    rewrite ret_bind. rewrite length_fmap, Hlen_t in Hx.
    set (next_values := fmap (M:=list) (λ x, Float.div x (Float.Fin gamma)) x).
    destruct (vtrace_loop_shape recurrence batch_size gamma n values rewards dones
                vtrace_rho vtrace_rho Hrec Hbatch' Hlen_values Hlen_rewards Hlen_dones
                Hlen_rho' Hlen_rho' (Z.to_nat recurrence)
                (MkVtraceLoop next_values next_values
                   (replicate (length values) Float.zero) (replicate (length values) Float.zero)))
      as (l & Hloop & (_ & _ & Hlen_vs & Hlen_adv) & _).
    { lia. }
    { unfold vtrace_shapes. cbn. unfold next_values.
      by rewrite !length_fmap, !length_replicate. }
    rewrite Z2Nat.id in Hloop by lia. rewrite Hloop, ret_bind.
    eexists _, _. split; [done|]. unfold Py.len in *. split; congruence.
  - intros Hne. unfold vtrace.
    by destruct (Z.eqb_spec (recurrence * num_trajectories) batch_size).
Qed.

(** * Examples *)

(** The scenario "discard under lag" of the specification: three rollouts
    of version [0] and three of version [10] are pending at
    [train_step = 10]; the first three are discarded and the other three
    make the macro-batch. *)
Lemma process_rollouts_discards_witness :
  let s := example_learner (example_cfg 3 1 1 3) in
  let rollouts := [example_rollout 0 0; example_rollout 1 0; example_rollout 2 0;
                   example_rollout 3 10; example_rollout 4 10; example_rollout 5 10] in
  ∃ rest work_done s' (k : nat),
    _process_rollouts rollouts s = Ok (rest, work_done, s') ∧
    Forall (λ r, readiness s' r = Ok 1) (take k rollouts) ∧
    num_discarded_rollouts s' = num_discarded_rollouts s + Z.of_nat k.
Proof.
  intros s rollouts.
  destruct (process_rollouts_discards rollouts s 3) as (_ & Hreturns & Hspec);
    [reflexivity|].
  destruct Hreturns as (rest & work_done & s' & H);
    [lia | discriminate | reflexivity | reflexivity | reflexivity | |].
  { repeat constructor; try discriminate; by exists 0. }
  destruct (Hspec ltac:(vm_compute; discriminate) _ _ _ H)
    as (k & _ & _ & _ & Hready & Hnum & _).
  exists rest, work_done, s', k. exact (conj H (conj Hready Hnum)).
Defined.

Lemma macro_batch_within_lag_witness :
  let s := example_learner (example_cfg 3 1 1 3) in
  let rollouts := [example_rollout 0 0; example_rollout 1 0; example_rollout 2 0;
                   example_rollout 3 10; example_rollout 4 10; example_rollout 5 10] in
  ∃ rest s' batch samples env_steps,
    _process_rollouts rollouts s = Ok (rest, true, s') ∧
    experience_buffer_queue s'
      = experience_buffer_queue s ++ [(buffer_of batch, samples, env_steps)].
Proof.
  intros s rollouts.
  assert (∃ rest s', _process_rollouts rollouts s = Ok (rest, true, s'))
    as (rest & s' & H).
  { eexists _, _. vm_compute. reflexivity. }
  destruct (macro_batch_within_lag rollouts rest s s' H)
    as (batch & samples & env_steps & Hqueue & _).
  exists rest, s', batch, samples, env_steps. exact (conj H Hqueue).
Defined.

(** [C1] fails as stated: a rollout within the lag at the head shields
    the stale rollout behind it.  At [train_step = 10] with
    [max_policy_lag = 5], the pending list holds a rollout of version
    [10] and then one of version [0]; both enter the macro-batch. *)
Lemma stale_rollout_enters_macro_batch :
  let s := example_learner (example_cfg 2 1 1 2) in
  let stale_rollout := example_rollout 1 0 in
  let rollouts := [example_rollout 0 10; stale_rollout] in
  ∃ s' samples env_steps,
    _process_rollouts rollouts s = Ok ([], true, s') ∧
    experience_buffer_queue s' = [(buffer_of rollouts, samples, env_steps)] ∧
    num_discarded_rollouts s' = 0 ∧
    stale_rollout ∈ rollouts ∧
    tensor_min (t_policy_version (r_t stale_rollout)) = Ok 0 ∧
    ¬ (train_step s - 0 < max_policy_lag (cfg s)).
Proof.
  intros s stale_rollout rollouts. eexists _, _, _. split_and!.
  - vm_compute. reflexivity.
  - reflexivity.
  - reflexivity.
  - set_solver.
  - reflexivity.
  - vm_compute. discriminate.
Qed.

(** A training pass with one epoch and one minibatch whose KL divergence
    [0.03] exceeds [target_kl = 0.01]. *)
Lemma train_kl_coeff_witness :
  let s := example_learner (example_cfg 3 1 1 3) in
  let buffer := MkBuffer [10; 10; 10] [1%Qc; 1%Qc; 1%Qc] in
  ∃ s',
    _train identity_permutation (idle_optimizer_step (Q2Qc (3 # 100)))
      constant_save_rate buffer 3 s = Ok s' ∧
    (Q2Qc (1 # 1000000) ≤ kl_coeff s')%Qc.
Proof.
  intros s buffer.
  assert (∃ s', _train identity_permutation (idle_optimizer_step (Q2Qc (3 # 100)))
                  constant_save_rate buffer 3 s = Ok s') as (s' & H).
  { eexists. vm_compute. reflexivity. }
  destruct (train_kl_coeff _ _ _ _ _ _ _ H) as (kl & s1 & _ & _ & Hge).
  exists s'. exact (conj H Hge).
Defined.

(** The scenario "PBT LOAD" of the specification: the learner of policy
    [0] is at [train_step = 100] and [env_steps = 10000] and loads the
    checkpoint of policy [1], saved at [train_step = 80]. *)
Lemma load_from_checkpoint_progress_witness :
  let ck := MkCheckpoint 80 8000 (Q2Qc (3 # 10)) {[ "w" := [1%Qc] ]}
              (MkOptimizer (Q2Qc (1 # 1000)) (0%Qc, 0%Qc) ∅) in
  let s := set_fs {[ 1 := {[ checkpoint_name 80 8000 := File ck ]} ]}
             (set_env_steps 10000
                (set_train_step 100 (example_learner (example_cfg 3 1 1 3)))) in
  ∃ s', load_from_checkpoint 1 s = Ok s' ∧
    actor_critic s' = ck_model ck ∧ kl_coeff s' = ck_kl_coeff ck ∧
    train_step s' = 100 ∧ env_steps s' = 10000.
Proof.
  intros ck s.
  destruct (load_from_checkpoint_progress 1 s (checkpoint_name 80 8000) ck)
    as (s' & H & Hmodel & _ & Hkl & Hother & _).
  - vm_compute. reflexivity.
  - vm_compute. reflexivity.
  - exists s'. destruct Hother as [Hstep Henv]; [vm_compute; discriminate|].
    exact (conj H (conj Hmodel (conj Hkl (conj Hstep Henv)))).
Defined.

Lemma discarding_rate_single_sample_witness :
  let s := set_discarded_experience_timer (Q2Qc 100)
             (example_learner (example_cfg 3 1 1 3)) in
  _discarding_rate (_experience_collection_rate_stats (Q2Qc 102) s)
    = Raise ZeroDivisionError.
Proof.
  intros s.
  destruct (discarding_rate_single_sample s) as (_ & _ & H).
  apply (H (Q2Qc 102)); [reflexivity|]. vm_compute. reflexivity.
Defined.

(** Sixteen samples in minibatches of eight, with windows of four. *)
Lemma get_minibatches_partition_witness :
  let s := example_learner (example_cfg 16 4 4 8) in
  ∃ minibatches s',
    _get_minibatches identity_permutation 16 s = Ok (Some <$> minibatches, s') ∧
    concat minibatches ≡ₚ seqZ 0 16 ∧
    Forall (windowed 4) minibatches.
Proof.
  intros s.
  destruct (get_minibatches_partition identity_permutation 16 s)
    as [Hprops Hreturns].
  - intros l. reflexivity.
  - vm_compute. discriminate.
  - reflexivity.
  - reflexivity.
  - reflexivity.
  - destruct Hreturns as (result & s' & H);
      [lia | vm_compute; reflexivity | vm_compute; reflexivity | reflexivity |].
    destruct (Hprops _ _ H) as (minibatches & Hresult & Hperm & _ & _ & Hwindows).
    exists minibatches, s'. rewrite <- Hresult.
    exact (conj H (conj Hperm Hwindows)).
Defined.

(** [C3] fails as stated: [batch_size] has to be a multiple of
    [recurrence] too.  Twelve samples with [recurrence = 4] and
    [batch_size = 6]: the first minibatch is the window [0..3] and half
    of the window [4..7]. *)
Lemma minibatch_cuts_window :
  let s := example_learner (example_cfg 12 4 4 6) in
  macro_batch (cfg s) ≠ batch_size (cfg s) ∧
  12 mod batch_size (cfg s) = 0 ∧
  12 mod recurrence (cfg s) = 0 ∧
  (∀ l, identity_permutation (np_random_draws s) l ≡ₚ l) ∧
  ∃ s',
    _get_minibatches identity_permutation 12 s
      = Ok ([Some [0; 1; 2; 3; 4; 5]; Some [6; 7; 8; 9; 10; 11]], s') ∧
    ¬ windowed (recurrence (cfg s)) [0; 1; 2; 3; 4; 5].
Proof.
  intros s. split_and!; [vm_compute; discriminate|reflexivity|reflexivity|done|].
  eexists. split; [vm_compute; reflexivity|].
  intros (starts & Hmb & _).
  apply (f_equal length) in Hmb. rewrite length_concat_windows in Hmb.
  change (Z.to_nat (recurrence (cfg s))) with 4%nat in Hmb. cbn in Hmb. lia.
Qed.

(** The scenario "checkpoint rotation" of the specification: with
    [keep_checkpoints = 3], the fourth save removes the first
    checkpoint. *)
Lemma save_rotation_witness :
  let s0 := example_learner (example_cfg 3 1 1 3) in
  let s3 := match saves [(1, 10); (2, 20); (3, 30)] s0 with
            | Ok s => set_env_steps 40 (set_train_step 4 s)
            | _ => s0
            end in
  ∃ s4, _save s3 = Ok s4 ∧
        Py.len (get_checkpoints (own_dir s4)) ≤ keep_checkpoints (cfg s3) ∧
        get_checkpoints (own_dir s4)
          = [checkpoint_name 2 20; checkpoint_name 3 30; checkpoint_name 4 40].
Proof.
  intros s0 s3. eexists. split; [vm_compute; reflexivity|]. split.
  - refine (proj1 (save_rotation s3 _ _)). vm_compute. reflexivity.
  - vm_compute. reflexivity.
Defined.

(** [C5] fails as stated from the billionth train step on: the name of
    step [1000000000] has ten digits and sorts before the names of nine
    digits, so with [keep_checkpoints = 3] the save at that step removes
    the checkpoint it has just written, the newest one, and the three
    older checkpoints stay. *)
Lemma newest_checkpoint_removed :
  let s0 := example_learner (example_cfg 3 1 1 3) in
  ∃ s3 s4,
    saves [(999999997, 0); (999999998, 0); (999999999, 0)] s0 = Ok s3 ∧
    save_at (1000000000, 0) s3 = Ok s4 ∧
    own_dir s4 !! checkpoint_name 1000000000 0 = None ∧
    get_checkpoints (own_dir s4)
      = [checkpoint_name 999999997 0; checkpoint_name 999999998 0;
         checkpoint_name 999999999 0] ∧
    ¬ (1000000000 ≤ 999999997).
Proof.
  intros s0. eexists _, _. split_and!.
  - vm_compute. reflexivity.
  - vm_compute. reflexivity.
  - vm_compute. reflexivity.
  - vm_compute. reflexivity.
  - lia.
Qed.

(** Checkpoints of the steps [5] and [10]: the one of step [10] is
    last. *)
Lemma latest_checkpoint_selected_witness :
  let ck := MkCheckpoint 0 0 0%Qc ∅ (MkOptimizer 0%Qc (0%Qc, 0%Qc) ∅) in
  let d : dir := {[ checkpoint_name 10 0 := File ck; checkpoint_name 5 0 := File ck ]} in
  ∃ train_step env_steps,
    checkpoint_name 10 0 = checkpoint_name train_step env_steps ∧ 5 ≤ train_step.
Proof.
  intros ck d.
  assert (get_checkpoints d = [checkpoint_name 5 0; checkpoint_name 10 0]) as Hd
    by (vm_compute; reflexivity).
  destruct (latest_checkpoint_selected d) as (_ & _ & Hlatest).
  destruct (Hlatest) with (name := checkpoint_name 10 0)
    as (train_step & env_steps & Hname & Hmax).
  - intros name. rewrite Hd. intros [->|[->|[]%elem_of_nil]%elem_of_cons]%elem_of_cons.
    + exists 5, 0. split; [reflexivity|lia].
    + exists 10, 0. split; [reflexivity|lia].
  - rewrite Hd. reflexivity.
  - exists train_step, env_steps. split; [exact Hname|].
    apply (Hmax 5 0); [lia|]. rewrite Hd. left.
Defined.

(** [C6] fails as stated: train steps of ten digits are not padded and
    their names sort before those of nine digits.  After saves at the
    steps [999999999] and [1000000000], the checkpoint that
    [load_checkpoint] selects is the one of step [999999999]. *)
Lemma billionth_checkpoint_not_selected :
  let s0 := example_learner (example_cfg 3 1 1 3) in
  ∃ s2 ck,
    saves [(999999999, 0); (1000000000, 0)] s0 = Ok s2 ∧
    get_checkpoints (own_dir s2)
      = ["checkpoint_1000000000_0.pth"; "checkpoint_999999999_0.pth"] ∧
    load_checkpoint (get_checkpoints (own_dir s2)) (own_dir s2) = Ok (Some ck) ∧
    ck_train_step ck = 999999999 ∧
    ¬ (1000000000 ≤ ck_train_step ck).
Proof.
  intros s0. eexists _, _. split_and!.
  - vm_compute. reflexivity.
  - vm_compute. reflexivity.
  - vm_compute. reflexivity.
  - reflexivity.
  - intros H. apply H. reflexivity.
Qed.

(** Two macro-batches trained on, one epoch and one minibatch each: the
    broadcasts carry the versions [0], [1] and [2]. *)
Lemma broadcast_versions_increase_witness :
  let events := example_registration :: example_batch ++ example_batch in
  ∃ rollouts s,
    learner_process identity_permutation (idle_optimizer_step (Q2Qc (3 # 100)))
      constant_save_rate empty_model 0 (example_cfg 3 1 1 3) 1 ∅ events
      = Ok (rollouts, s) ∧
    Forall (λ queue, StronglySorted Z.lt (versions queue)) (policy_worker_queues s).
Proof.
  intros events. eexists _, _. split; [vm_compute; reflexivity|].
  refine (proj1 (broadcast_versions_increase identity_permutation
                   (idle_optimizer_step (Q2Qc (3 # 100))) constant_save_rate empty_model
                   0 (example_cfg 3 1 1 3) 1 ∅ events _ _ _ _ _)).
  - vm_compute. discriminate.
  - repeat constructor.
  - vm_compute. reflexivity.
Defined.

(** [C9] fails as stated, in two ways.  With [ppo_epochs = 0] a batch
    runs no optimiser step and the broadcast after it repeats the
    version of the one before.  And a [LOAD_MODEL] message that names
    the learner's own policy makes it load its latest checkpoint with
    its [train_step]: here the checkpoint of step [1] is loaded at step
    [2], which sets [train_step] back to [1], and version [2] is
    broadcast twice. *)
Lemma broadcast_version_repeated :
  (∃ rollouts s,
     learner_process identity_permutation (idle_optimizer_step (Q2Qc (3 # 100)))
       constant_save_rate empty_model 0 example_cfg_no_epoch 1 ∅
       (example_registration :: example_batch) = Ok (rollouts, s) ∧
     versions <$> policy_worker_queues s = [[0; 0]]) ∧
  (∃ rollouts1 s1 s1' rollouts2 s2,
     let run := learner_process identity_permutation
                  (idle_optimizer_step (Q2Qc (3 # 100))) constant_save_rate
                  empty_model 0 (example_cfg 3 1 1 3) 1 ∅ in
     let events := example_registration :: example_batch ++ example_batch
                     ++ [MainTask (PBT (LOAD_MODEL 0 0))] in
     run events = Ok (rollouts1, s1) ∧
     train_step s1 = 2 ∧
     _update_pbt s1 = Ok s1' ∧
     train_step s1' = 1 ∧
     run (events ++ example_batch) = Ok (rollouts2, s2) ∧
     versions <$> policy_worker_queues s2 = [[0; 1; 2; 2]]).
Proof.
  split.
  - eexists _, _. split; vm_compute; reflexivity.
  - eexists _, _, _, _, _. cbv zeta. split_and!; vm_compute; reflexivity.
Qed.

(** Two sub-trajectories of two steps each, the second of which ends its
    episode; the discount is [0.99]. *)
Lemma vtrace_zero_ratios_witness :
  let values := Float.Fin <$> [Q2Qc 1; Q2Qc 2; Q2Qc 3; Q2Qc 4] in
  let rewards := Float.Fin <$> [Q2Qc 1; Q2Qc 1; Q2Qc 1; Q2Qc 1] in
  let dones := Float.Fin <$> [0%Qc; 0%Qc; 0%Qc; Q2Qc 1] in
  let ratios := replicate 4 Float.zero in
  ∃ adv,
    vtrace 2 4 (Q2Qc (99 # 100)) 2 ratios values rewards dones = Ok (values, adv) ∧
    Forall (λ a, a = Float.zero) adv.
Proof.
  intros values rewards dones ratios.
  destruct (vtrace_zero_ratios (λ _, Float.NaN) 2 4 (Q2Qc (99 # 100)) 2
              ratios values rewards dones)
    as (adv & H & _ & Hadv & _).
  - lia.
  - reflexivity.
  - reflexivity.
  - reflexivity.
  - reflexivity.
  - reflexivity.
  - intros Hgamma. apply (f_equal this) in Hgamma. vm_compute in Hgamma.
    discriminate Hgamma.
  - repeat constructor.
  - repeat constructor.
  - repeat constructor.
  - repeat constructor.
  - exists adv. exact (conj H Hadv).
Defined.

(** [C8] fails as stated at a discount of zero.  The loop starts from
    [(values - rewards) / gamma], which is infinite there, and zero
    times an infinity is NaN: on the minibatch above, with every ratio
    equal to zero, every target and every advantage is NaN. *)
Lemma zero_discount_vtrace_nan :
  let values := Float.Fin <$> [Q2Qc 1; Q2Qc 2; Q2Qc 3; Q2Qc 4] in
  let rewards := Float.Fin <$> [Q2Qc 1; Q2Qc 1; Q2Qc 1; Q2Qc 1] in
  let dones := Float.Fin <$> [0%Qc; 0%Qc; 0%Qc; Q2Qc 1] in
  let ratios := replicate 4 Float.zero in
  Forall (λ ratio, ratio = Float.zero) ratios ∧
  vtrace 2 4 0%Qc 2 ratios values rewards dones
    = Ok (replicate 4 Float.NaN, replicate 4 Float.NaN) ∧
  replicate 4 Float.NaN ≠ values ∧
  ¬ Forall (λ a, a = Float.zero) (replicate 4 Float.NaN).
Proof.
  intros values rewards dones ratios. split_and!.
  - repeat constructor.
  - vm_compute. reflexivity.
  - discriminate.
  - intros H. apply Forall_cons in H as [H _]. discriminate H.
Qed.

(** * Examples for the rest of the learner *)

(** Buffers are registered, three rollouts announced and batched, and a
    save is requested: nothing of what training owns has moved. *)
Lemma main_thread_frame_witness :
  let s := example_learner (example_cfg 3 1 1 3) in
  let events := example_collect ++ [MainTask (PBT (SAVE_MODEL 0))] in
  ∃ rollouts s',
    for_each (step identity_permutation (idle_optimizer_step (Q2Qc (3 # 100)))
                constant_save_rate) events ([], s) = Ok (rollouts, s') ∧
    train_step s' = train_step s ∧ fs s' = fs s.
Proof.
  intros s events.
  assert (∃ rollouts s',
            for_each (step identity_permutation (idle_optimizer_step (Q2Qc (3 # 100)))
                        constant_save_rate) events ([], s) = Ok (rollouts, s'))
    as (rollouts & s' & H).
  { eexists _, _. vm_compute. reflexivity. }
  destruct (main_thread_frame identity_permutation (idle_optimizer_step (Q2Qc (3 # 100)))
              constant_save_rate events [] rollouts s s')
    as (_&_&_&_&_&Hstep&_&_&_&_&_&_&Hfs).
  - unfold events, example_collect. cbn [app].
    repeat (constructor; [discriminate|]). constructor.
  - exact H.
  - exists rollouts, s'. exact (conj H (conj Hstep Hfs)).
Defined.

(** The training thread takes the batch that the main thread has
    queued. *)
Lemma training_thread_frame_witness :
  let s := set_experience_buffer_queue [(example_buffer, 3, 3)]
             (example_learner (example_cfg 3 1 1 3)) in
  ∃ rollouts' s',
    step identity_permutation (idle_optimizer_step (Q2Qc (3 # 100))) constant_save_rate
      TrainerPass ([], s) = Ok (rollouts', s') ∧
    rollouts' = [] ∧
    (experience_buffer_queue s' = experience_buffer_queue s ∨
     ∃ data, experience_buffer_queue s = data :: experience_buffer_queue s').
Proof.
  intros s.
  assert (∃ rollouts' s',
            step identity_permutation (idle_optimizer_step (Q2Qc (3 # 100)))
              constant_save_rate TrainerPass ([], s) = Ok (rollouts', s'))
    as (rollouts' & s' & H).
  { eexists _, _. vm_compute. reflexivity. }
  destruct (training_thread_frame identity_permutation (idle_optimizer_step (Q2Qc (3 # 100)))
              constant_save_rate [] rollouts' s s' H)
    as (Hrollouts & Hqueue & _).
  exists rollouts', s'. exact (conj H (conj Hrollouts Hqueue)).
Defined.

Lemma experience_queue_bounded_witness :
  ∃ rollouts s,
    learner_process identity_permutation (idle_optimizer_step (Q2Qc (3 # 100)))
      constant_save_rate empty_model 0 (example_cfg 3 1 1 3) 1 ∅ example_collect
      = Ok (rollouts, s) ∧
    Py.len (experience_buffer_queue s) ≤ 2.
Proof.
  assert (∃ rollouts s,
            learner_process identity_permutation (idle_optimizer_step (Q2Qc (3 # 100)))
              constant_save_rate empty_model 0 (example_cfg 3 1 1 3) 1 ∅ example_collect
            = Ok (rollouts, s))
    as (rollouts & s & H).
  { eexists _, _. vm_compute. reflexivity. }
  exists rollouts, s.
  exact (conj H (experience_queue_bounded _ _ _ _ _ _ _ _ _ _ _ H)).
Defined.

(** A learner of policy [0] beside the checkpoints of policy [1]. *)
Lemma foreign_checkpoints_untouched_witness :
  let fs0 : gmap Z dir := {[ 1 := {[ checkpoint_name 80 8000 := File example_checkpoint ]} ]} in
  ∃ rollouts s,
    learner_process identity_permutation (idle_optimizer_step (Q2Qc (3 # 100)))
      constant_save_rate empty_model 0 (example_cfg 3 1 1 3) 1 fs0
      (example_collect ++ [TrainerPass]) = Ok (rollouts, s) ∧
    fs s !! 1 = fs0 !! 1.
Proof.
  intros fs0.
  assert (∃ rollouts s,
            learner_process identity_permutation (idle_optimizer_step (Q2Qc (3 # 100)))
              constant_save_rate empty_model 0 (example_cfg 3 1 1 3) 1 fs0
              (example_collect ++ [TrainerPass]) = Ok (rollouts, s))
    as (rollouts & s & H).
  { eexists _, _. vm_compute. reflexivity. }
  exists rollouts, s.
  exact (conj H (proj2 (foreign_checkpoints_untouched _ _ _ _ _ _ _ _ _ _ _ H) 1
                   ltac:(discriminate))).
Defined.

(** Two policy workers: after a batch both queues hold the same two
    updates. *)
Lemma policy_worker_queues_agree_witness :
  ∃ rollouts s updates,
    learner_process identity_permutation (idle_optimizer_step (Q2Qc (3 # 100)))
      constant_save_rate empty_model 0 (example_cfg 3 1 1 3) 2 ∅
      (example_collect ++ [TrainerPass]) = Ok (rollouts, s) ∧
    policy_worker_queues s = replicate 2 updates.
Proof.
  assert (∃ rollouts s,
            learner_process identity_permutation (idle_optimizer_step (Q2Qc (3 # 100)))
              constant_save_rate empty_model 0 (example_cfg 3 1 1 3) 2 ∅
              (example_collect ++ [TrainerPass]) = Ok (rollouts, s))
    as (rollouts & s & H).
  { eexists _, _. vm_compute. reflexivity. }
  destruct (policy_worker_queues_agree _ _ _ _ _ _ _ _ _ _ _ H) as [updates Hqueues].
  exists rollouts, s, updates. exact (conj H Hqueues).
Defined.

(** A [TERMINATE] with a batch still on the experience queue, followed
    by a pass of each thread. *)
Lemma terminate_set_by_task_witness :
  let s := set_experience_buffer_queue [(example_buffer, 3, 3)]
             (example_learner (example_cfg 3 1 1 3)) in
  let events := [MainTask TERMINATE; TrainerPass; MainPass 1%Qc] in
  ∃ rollouts s',
    for_each (step identity_permutation (idle_optimizer_step (Q2Qc (3 # 100)))
                constant_save_rate) events ([], s) = Ok (rollouts, s') ∧
    terminate s' = true.
Proof.
  intros s events.
  assert (∃ rollouts s',
            for_each (step identity_permutation (idle_optimizer_step (Q2Qc (3 # 100)))
                        constant_save_rate) events ([], s) = Ok (rollouts, s'))
    as (rollouts & s' & H).
  { eexists _, _. vm_compute. reflexivity. }
  exists rollouts, s'.
  refine (conj H (proj2 (terminate_set_by_task identity_permutation
                           (idle_optimizer_step (Q2Qc (3 # 100))) constant_save_rate
                           events [] rollouts s s' H) (or_intror _))).
  unfold events. constructor.
Defined.

(** Three stale rollouts and three fresh ones are pending: the list is
    split into what was discarded, the macro-batch and the rest. *)
Lemma process_rollouts_partition_witness :
  let s := example_learner (example_cfg 3 1 1 3) in
  let rollouts := [example_rollout 0 0; example_rollout 1 0; example_rollout 2 0;
                   example_rollout 3 10; example_rollout 4 10; example_rollout 5 10] in
  ∃ rest s' discarded batch,
    _process_rollouts rollouts s = Ok (rest, true, s') ∧
    rollouts = discarded ++ batch ++ rest ∧
    Py.len batch = 3.
Proof.
  intros s rollouts.
  assert (∃ rest s', _process_rollouts rollouts s = Ok (rest, true, s'))
    as (rest & s' & H).
  { eexists _, _. vm_compute. reflexivity. }
  destruct (process_rollouts_partition rollouts rest true s s' 3 eq_refl H)
    as (discarded & batch & Hsplit & _ & _ & Hlen & _).
  exists rest, s', discarded, batch.
  exact (conj H (conj Hsplit (Hlen ltac:(lia)))).
Defined.

(** The buffers of three environments are registered and one rollout
    of each is announced. *)
Lemma extract_registered_rollouts_witness :
  let s := new_learner 0 (example_cfg 3 1 1 3) 1 ∅ in
  ∃ s' rollouts,
    _init_rollout_tensors example_init_tensors s = Ok s' ∧
    _extract_rollouts example_train_data s' = Ok rollouts ∧
    traj_buffer_ready s' !! (0, 0) = Some (it_is_ready_tensor example_init_tensors).
Proof.
  intros s.
  assert (∃ s', _init_rollout_tensors example_init_tensors s = Ok s') as (s' & H).
  { eexists. vm_compute. reflexivity. }
  destruct (extract_registered_rollouts example_init_tensors example_train_data s s' H)
    as (rollouts & Hextract & _ & Hready);
    [reflexivity | reflexivity | reflexivity | reflexivity | |].
  { repeat constructor; eexists; repeat constructor. }
  exists s', rollouts. exact (conj H (conj Hextract Hready)).
Defined.

Lemma init_rollout_tensors_twice_witness :
  let s := new_learner 0 (example_cfg 3 1 1 3) 1 ∅ in
  ∃ s', _init_rollout_tensors example_init_tensors s = Ok s' ∧
        _init_rollout_tensors example_init_tensors s' = Raise AssertionError.
Proof.
  intros s.
  assert (∃ s', _init_rollout_tensors example_init_tensors s = Ok s') as (s' & H).
  { eexists. vm_compute. reflexivity. }
  exists s'.
  exact (conj H (init_rollout_tensors_twice example_init_tensors s s' H
                   ltac:(discriminate))).
Defined.

(** Rollouts are announced to a learner that has registered no
    buffer. *)
Lemma extract_unregistered_rollout_witness :
  _extract_rollouts example_train_data (example_learner (example_cfg 3 1 1 3))
    = Raise KeyError.
Proof.
  apply extract_unregistered_rollout. apply Exists_cons_hd. reflexivity.
Defined.

(** A save into a directory where a [checkpoint_tmp] of an interrupted
    save and a directory of summaries are lying. *)
Lemma save_leaves_no_tmp_witness :
  let s := set_fs {[ 0 := {[ "checkpoint_tmp" := File example_checkpoint;
                            "summaries" := Directory ]} ]}
             (example_learner (example_cfg 3 1 1 3)) in
  ∃ s', _save s = Ok s' ∧
        own_dir s' !! "checkpoint_tmp" = None ∧
        own_dir s' !! "summaries" = own_dir s !! "summaries".
Proof.
  intros s.
  assert (∃ s', _save s = Ok s') as (s' & H).
  { eexists. vm_compute. reflexivity. }
  destruct (save_leaves_no_tmp s s' H) as (Htmp & Hother).
  exists s'. exact (conj H (conj Htmp (Hother "summaries" ltac:(discriminate)))).
Defined.

(** A save at [train_step = 4] beside a checkpoint of step [2]; the
    learner is then at step [999] when the checkpoint is loaded. *)
Lemma save_load_round_trip_witness :
  let s := set_fs {[ 0 := {[ checkpoint_name 2 20 := File example_checkpoint ]} ]}
             (set_env_steps 40
                (set_train_step 4 (example_learner (example_cfg 3 1 1 3)))) in
  ∃ s' s2,
    _save s = Ok s' ∧
    load_from_checkpoint 0 (set_train_step 999 s') = Ok s2 ∧
    train_step s2 = 4 ∧ env_steps s2 = 40.
Proof.
  intros s.
  assert (∃ s', _save s = Ok s' ∧ policy_id s' = 0) as (s' & H & Hpolicy).
  { eexists. split; vm_compute; reflexivity. }
  assert (get_checkpoints (own_dir s) = [checkpoint_name 2 20]) as Hnames
    by (vm_compute; reflexivity).
  assert (0 ≤ train_step s < 10 ^ 9) as Hstep_range
    by (split; [discriminate | reflexivity]).
  assert (1 ≤ keep_checkpoints (cfg s)) as Hkeep by discriminate.
  destruct (save_load_round_trip s s' (set_train_step 999 s') H Hstep_range Hkeep)
    as (s2 & Hload & Hstep & Henv & _).
  - intros name Hin. rewrite Hnames in Hin. apply list_elem_of_singleton in Hin.
    right. exists 2, 20. split; [exact Hin | split; [discriminate | reflexivity]].
  - reflexivity.
  - exact Hpolicy.
  - exists s', s2. exact (conj H (conj Hload (conj Hstep Henv))).
Defined.


(** The first optimiser step of a learner: the flag is set, so the
    model is saved. *)
Lemma optimizer_step_saves_on_request_witness :
  let s := example_learner (example_cfg 3 1 1 3) in
  ∃ s', _after_optimizer_step constant_save_rate s = Ok s' ∧
        train_step s' = train_step s + 1 ∧ last_saved s' = train_step s'.
Proof.
  intros s.
  assert (∃ s', _after_optimizer_step constant_save_rate s = Ok s') as (s' & H).
  { eexists. vm_compute. reflexivity. }
  destruct (optimizer_step_saves_on_request constant_save_rate s s' H)
    as (Hstep & Hsave & _).
  destruct (Hsave eq_refl) as (_ & _ & Hlast & _).
  exists s'. exact (conj H (conj Hstep Hlast)).
Defined.

(** A request to load the checkpoint of policy [1] together with a new
    configuration. *)
Lemma update_pbt_serves_requests_witness :
  let s := set_new_cfg (Some (λ _, example_cfg 3 1 1 6))
             (set_load_policy_id (Some 1)
                (set_fs {[ 1 := {[ checkpoint_name 80 8000 := File example_checkpoint ]} ]}
                   (example_learner (example_cfg 3 1 1 3)))) in
  ∃ s', _update_pbt s = Ok s' ∧
        load_policy_id s' = None ∧
        lr (optimizer s') = learning_rate (cfg s').
Proof.
  intros s.
  assert (∃ s', _update_pbt s = Ok s') as (s' & H).
  { eexists. vm_compute. reflexivity. }
  destruct (proj1 (update_pbt_serves_requests s) s' H) as (Hload & _ & _ & Hlr & _).
  exists s'. exact (conj H (conj Hload Hlr)).
Defined.

(** A batch of three samples that stand for three environment steps. *)
Lemma process_training_data_env_steps_witness :
  let s := example_learner (example_cfg 3 1 1 3) in
  ∃ s',
    _process_training_data identity_permutation (idle_optimizer_step (Q2Qc (3 # 100)))
      constant_save_rate (example_buffer, 3, 3) s = Ok s' ∧
    env_steps s' = env_steps s + 3.
Proof.
  intros s.
  assert (∃ s', _process_training_data identity_permutation
                  (idle_optimizer_step (Q2Qc (3 # 100)))
                  constant_save_rate (example_buffer, 3, 3) s = Ok s') as (s' & H).
  { eexists. vm_compute. reflexivity. }
  destruct (process_training_data_env_steps _ _ _ _ _ _ _ _ H) as (Henv & _).
  assert (load_policy_id s ≠ Some (policy_id s)) as Hother by discriminate.
  exists s'. exact (conj H (Henv (or_intror Hother))).
Defined.

(** Two passes of the main loop, two seconds apart: the window holds
    two samples. *)
Lemma discarding_rate_in_run_witness :
  ∃ rollouts s rate,
    learner_process identity_permutation (idle_optimizer_step (Q2Qc (3 # 100)))
      constant_save_rate empty_model 0 (example_cfg 3 1 1 3) 1 ∅
      [MainPass (Q2Qc 2); MainPass (Q2Qc 4)] = Ok (rollouts, s) ∧
    _discarding_rate s = Ok (Py.Float rate) ∧ (0 ≤ rate)%Qc.
Proof.
  assert (∃ rollouts s,
            learner_process identity_permutation (idle_optimizer_step (Q2Qc (3 # 100)))
              constant_save_rate empty_model 0 (example_cfg 3 1 1 3) 1 ∅
              [MainPass (Q2Qc 2); MainPass (Q2Qc 4)] = Ok (rollouts, s) ∧
            length (discarded_experience_over_time s) = 2%nat)
    as (rollouts & s & H & Hlen).
  { eexists _, _. split; vm_compute; reflexivity. }
  destruct (discarding_rate_in_run _ _ _ _ _ _ _ _ _ _ _ H) as (_ & _ & Hrate).
  destruct Hrate as (rate & Hrate & Hpos); [rewrite Hlen; apply le_n|].
  exists rollouts, s, rate. exact (conj H (conj Hrate Hpos)).
Defined.


(** One ratio below the clipping range and one above it. *)
Lemma policy_loss_clipped_witness :
  let ratio := [Q2Qc (1 # 2); Q2Qc 2] in
  let adv := [1%Qc; (- 1)%Qc] in
  ∃ loss,
    _policy_loss ratio adv (Q2Qc (9 # 10)) (Q2Qc (11 # 10)) = Ok loss ∧
    (- Torch.mean (zip_with Qcmult ratio adv) ≤ loss)%Qc.
Proof.
  intros ratio adv.
  destruct (policy_loss_clipped ratio adv (Q2Qc (9 # 10)) (Q2Qc (11 # 10))
              ltac:(discriminate) eq_refl)
    as (loss & H & Hle & _).
  exists loss. exact (conj H Hle).
Defined.

Lemma value_loss_clipped_witness :
  let new_values := [Q2Qc 2; 1%Qc] in
  let old_values := [1%Qc; 1%Qc] in
  let target := [Q2Qc 3; 0%Qc] in
  ∃ loss,
    _value_loss (Q2Qc (1 # 2)) new_values old_values target (Q2Qc (1 # 5)) = Ok loss ∧
    (0 ≤ loss)%Qc.
Proof.
  intros new_values old_values target.
  destruct (value_loss_clipped (Q2Qc (1 # 2)) new_values old_values target (Q2Qc (1 # 5))
              ltac:(discriminate) eq_refl eq_refl ltac:(discriminate))
    as (loss & H & _ & Hpos & _).
  exists loss. exact (conj H Hpos).
Defined.

(** Two sub-trajectories of two steps. *)
Lemma vtrace_shape_witness :
  let ratios := Float.Fin <$> [1%Qc; 1%Qc; 1%Qc; 1%Qc] in
  let values := Float.Fin <$> [1%Qc; Q2Qc 2; Q2Qc 3; Q2Qc 4] in
  let rewards := Float.Fin <$> [1%Qc; 0%Qc; 1%Qc; 0%Qc] in
  let dones := Float.Fin <$> [0%Qc; 0%Qc; 0%Qc; 1%Qc] in
  ∃ vs adv,
    vtrace 2 4 (Q2Qc (99 # 100)) 2 ratios values rewards dones = Ok (vs, adv) ∧
    Py.len vs = 4 ∧ Py.len adv = 4.
Proof.
  intros ratios values rewards dones.
  exact (proj1 (vtrace_shape 2 4 (Q2Qc (99 # 100)) 2 ratios values rewards dones)
           eq_refl eq_refl eq_refl eq_refl eq_refl eq_refl).
Defined.
